(** * Worker pool and thread controller of base/: a shallow embedding

    The development follows two translation units of the repository:

    - [task_scheduler/scheduler_worker_pool_impl.cc]: the pool of workers
      (module [WorkerPool]);
    - [task/sequence_manager/thread_controller_impl.cc]: the single-thread
      work-loop driver (module [ThreadController]).

    Member functions become functions of a state-and-error monad over a
    record holding the members of the class.  [DCHECK] and [CHECK] are
    fatal: a failed one ends the computation with [Abort].  Calls on
    external collaborators (waking a worker, histogram samples, posting a
    task) are appended to a trace kept in the state. *)

From Stdlib Require Import ZArith Lia.
From stdpp Require Import base option list gmap.

Local Open Scope Z_scope.

(** ** Outcomes and the state-and-error monad *)

Inductive Fatal : Type :=
| CheckFailure    (* CHECK(...) failed *)
| DCheckFailure   (* DCHECK(...) failed *)
| Undefined.      (* dereference of an object that is not alive *)

Inductive outcome (A : Type) : Type :=
| Ok (a : A)
| Abort (f : Fatal).
Arguments Ok {A} a.
Arguments Abort {A} f.

Definition M (S A : Type) : Type := S -> outcome (A * S).

Definition ret {S A} (a : A) : M S A := fun s => Ok (a, s).

Definition bind {S A B} (c : M S A) (k : A -> M S B) : M S B :=
  fun s => match c s with
           | Ok (a, s') => k a s'
           | Abort f => Abort f
           end.

Definition gets {S A} (f : S -> A) : M S A := fun s => Ok (f s, s).
Definition modify {S} (f : S -> S) : M S unit := fun s => Ok (tt, f s).
Definition abort {S A} (f : Fatal) : M S A := fun _ => Abort f.

Definition DCHECK {S} (b : bool) : M S unit :=
  if b then ret tt else abort DCheckFailure.
Definition CHECK {S} (b : bool) : M S unit :=
  if b then ret tt else abort CheckFailure.

Declare Scope monad_scope.
Delimit Scope monad_scope with monad.
Notation "'let*' x ':=' c 'in' k" := (bind c (fun x => k))
  (at level 10, x name, c at level 100, k at level 200) : monad_scope.
Notation "c1 '>>' c2" := (bind c1 (fun _ => c2))
  (at level 100, c2 at level 200, right associativity) : monad_scope.

(** The state reached by a computation, when it returns. *)
Definition exec {S A} (c : M S A) (s : S) : outcome S :=
  match c s with
  | Ok (_, s') => Ok s'
  | Abort f => Abort f
  end.

(** A computation keeps a view [f] of the state when every run of it that
    returns leaves [f] as it was. *)
Definition keeps {S A V : Type} (f : S -> V) (c : M S A) : Prop :=
  forall s a s', c s = Ok (a, s') -> f s' = f s.

(** ** Integer conversions

    [worker_capacity_] is a [size_t], [num_wake_ups_before_start_] and the
    loop index of [Start] are [int]. *)

Definition to_size_t (z : Z) : Z := z mod 2 ^ 64.

(** [static_cast<int>] of a [size_t]: the low 32 bits, two's complement. *)
Definition static_cast_int (z : Z) : Z := (z + 2 ^ 31) mod 2 ^ 32 - 2 ^ 31.

Definition INT_MAX : Z := 2 ^ 31 - 1.

(** Workers are identified by the address of the [SchedulerWorker] object. *)
Definition Worker : Type := nat.

Definition TimeTicks : Type := Z.

(** ** SchedulerWorkerStack *)

Module SchedulerWorkerStack.

(** Modelled from the spec: the class SchedulerWorkerStack
    (scheduler_worker_stack.cc) is not among the sources.  The spec gives
    "a LIFO set of idle workers; supports push/pop/peek/contains/remove/
    size", [Pop] "fails if empty", [Peek] is "non-destructive", [Remove]
    is "for out-of-order removal during cleanup", and the "double-insertion
    of a worker into the idle stack" is a fatal invariant violation.  The
    head of the list is the top of the stack. *)
Definition t : Type := list Worker.

Definition empty : t := [].

Definition Contains (w : Worker) (s : t) : bool := bool_decide (w ∈ s).

Definition Push (w : Worker) (s : t) : outcome t :=
  if Contains w s then Abort DCheckFailure else Ok (w :: s).

Definition Pop (s : t) : option Worker * t :=
  match s with
  | [] => (None, [])
  | w :: s' => (Some w, s')
  end.

Definition Peek (s : t) : option Worker := head s.

Fixpoint Remove (w : Worker) (s : t) : t :=
  match s with
  | [] => []
  | x :: s' => if Nat.eqb x w then s' else x :: Remove w s'
  end.

Definition Size (s : t) : nat := length s.

Definition IsEmpty (s : t) : bool :=
  match s with [] => true | _ => false end.

End SchedulerWorkerStack.

(** ** Sequences and the shared priority queue *)

Record SequenceSortKey : Type := {
priority : nat;          (* lower value = higher priority *)
sequence_number : nat    (* tie-break: lower wins *)
}.

Record Sequence : Type := {
sequence_id : nat;
sort_key : SequenceSortKey
}.

Definition GetSortKey (seq : Sequence) : SequenceSortKey := sort_key seq.

Module PriorityQueue.

(** Modelled from the spec: the class PriorityQueue (priority_queue.cc) is
    not among the sources.  The spec gives "(SortKey, Sequence) pair;
    invariant: entries are totally ordered by SortKey; pop always returns
    the minimum (highest priority, then earliest sequence number)";
    [PopSequence] "removes and returns the Sequence with the minimum sort
    key, failing (returns empty) if none exist"; [IsEmpty] is a pure
    query.  A transaction is the exclusive access to the container; the
    operations below are the ones made through it. *)
Definition t : Type := list (SequenceSortKey * Sequence).

Definition empty : t := [].

(** [key_le a b]: [a] is popped no later than [b]. *)
Definition key_le (a b : SequenceSortKey) : bool :=
  (priority a <? priority b)%nat
  || ((priority a =? priority b)%nat
      && (sequence_number a <=? sequence_number b)%nat).

Fixpoint Push (seq : Sequence) (key : SequenceSortKey) (q : t) : t :=
  match q with
  | [] => [(key, seq)]
  | (k, s) :: q' =>
      if key_le k key then (k, s) :: Push seq key q'
      else (key, seq) :: (k, s) :: q'
  end.

Definition PopSequence (q : t) : option Sequence * t :=
  match q with
  | [] => (None, [])
  | (_, s) :: q' => (Some s, q')
  end.

Definition IsEmpty (q : t) : bool :=
  match q with [] => true | _ => false end.

End PriorityQueue.

(** ** The worker pool: scheduler_worker_pool_impl.cc *)

Module WorkerPool.

(** Members of [SchedulerWorkerDelegateImpl] that the pool reads or writes. *)
Record Delegate : Type := {
  is_on_idle_workers_stack_ : bool;
  num_tasks_since_last_wait_ : Z;     (* size_t *)
  num_tasks_since_last_detach_ : Z    (* size_t *)
}.

(** A delegate as its constructor leaves it. *)
Definition new_delegate : Delegate :=
  {| is_on_idle_workers_stack_ := true;
     num_tasks_since_last_wait_ := 0;
     num_tasks_since_last_detach_ := 0 |}.

Inductive HistogramId : Type :=
| detach_duration_histogram_
| num_tasks_before_detach_histogram_
| num_tasks_between_waits_histogram_.

(** Calls on collaborators outside the pool. *)
Inductive Event : Type :=
| EvWakeUp (w : Worker)                 (* worker->WakeUp() *)
| EvWorkerCleanup (w : Worker)          (* worker->Cleanup() *)
| EvHistogram (h : HistogramId) (sample : Z)
    (* h->Add(sample) or h->AddTime(sample): the value of the argument,
       before its conversion to the sample type of the histogram *)
| EvBroadcastIdle.                      (* idle_workers_stack_cv_for_testing_ *)

Record SchedulerWorkerPoolParams : Type := {
  max_threads : Z;                      (* int *)
  suggested_reclaim_time : Z;
  backward_compatibility : bool
}.

(** Members of [SchedulerWorkerPoolImpl], the heap of delegates, the
    allocation counter for worker objects, the clock and the trace. *)
Record Pool : Type := {
  workers_ : list Worker;
  idle_workers_stack_ : SchedulerWorkerStack.t;
  worker_capacity_ : Z;                 (* size_t *)
  suggested_reclaim_time_ : Z;
  backward_compatibility_ : bool;
  num_wake_ups_before_start_ : Z;       (* int *)
  shared_priority_queue_ : PriorityQueue.t;
  worker_cleanup_disallowed_ : bool;
  cleanup_timestamps_ : list TimeTicks; (* std::stack, head = top *)
  delegates : gmap Worker Delegate;
  next_worker : Worker;
  now : TimeTicks;                      (* TimeTicks::Now() *)
  trace : list Event
}.

Definition set_workers (f : list Worker -> list Worker) (s : Pool) : Pool :=
  {| workers_ := f (workers_ s);
     idle_workers_stack_ := idle_workers_stack_ s;
     worker_capacity_ := worker_capacity_ s;
     suggested_reclaim_time_ := suggested_reclaim_time_ s;
     backward_compatibility_ := backward_compatibility_ s;
     num_wake_ups_before_start_ := num_wake_ups_before_start_ s;
     shared_priority_queue_ := shared_priority_queue_ s;
     worker_cleanup_disallowed_ := worker_cleanup_disallowed_ s;
     cleanup_timestamps_ := cleanup_timestamps_ s;
     delegates := delegates s;
     next_worker := next_worker s;
     now := now s;
     trace := trace s |}.

Definition set_idle (f : SchedulerWorkerStack.t -> SchedulerWorkerStack.t)
    (s : Pool) : Pool :=
  {| workers_ := workers_ s;
     idle_workers_stack_ := f (idle_workers_stack_ s);
     worker_capacity_ := worker_capacity_ s;
     suggested_reclaim_time_ := suggested_reclaim_time_ s;
     backward_compatibility_ := backward_compatibility_ s;
     num_wake_ups_before_start_ := num_wake_ups_before_start_ s;
     shared_priority_queue_ := shared_priority_queue_ s;
     worker_cleanup_disallowed_ := worker_cleanup_disallowed_ s;
     cleanup_timestamps_ := cleanup_timestamps_ s;
     delegates := delegates s;
     next_worker := next_worker s;
     now := now s;
     trace := trace s |}.

Definition set_params (p : SchedulerWorkerPoolParams) (s : Pool) : Pool :=
  {| workers_ := workers_ s;
     idle_workers_stack_ := idle_workers_stack_ s;
     worker_capacity_ := to_size_t (max_threads p);
     suggested_reclaim_time_ := suggested_reclaim_time p;
     backward_compatibility_ := backward_compatibility p;
     num_wake_ups_before_start_ := num_wake_ups_before_start_ s;
     shared_priority_queue_ := shared_priority_queue_ s;
     worker_cleanup_disallowed_ := worker_cleanup_disallowed_ s;
     cleanup_timestamps_ := cleanup_timestamps_ s;
     delegates := delegates s;
     next_worker := next_worker s;
     now := now s;
     trace := trace s |}.

Definition set_num_wake_ups (f : Z -> Z) (s : Pool) : Pool :=
  {| workers_ := workers_ s;
     idle_workers_stack_ := idle_workers_stack_ s;
     worker_capacity_ := worker_capacity_ s;
     suggested_reclaim_time_ := suggested_reclaim_time_ s;
     backward_compatibility_ := backward_compatibility_ s;
     num_wake_ups_before_start_ := f (num_wake_ups_before_start_ s);
     shared_priority_queue_ := shared_priority_queue_ s;
     worker_cleanup_disallowed_ := worker_cleanup_disallowed_ s;
     cleanup_timestamps_ := cleanup_timestamps_ s;
     delegates := delegates s;
     next_worker := next_worker s;
     now := now s;
     trace := trace s |}.

Definition set_queue (f : PriorityQueue.t -> PriorityQueue.t) (s : Pool)
    : Pool :=
  {| workers_ := workers_ s;
     idle_workers_stack_ := idle_workers_stack_ s;
     worker_capacity_ := worker_capacity_ s;
     suggested_reclaim_time_ := suggested_reclaim_time_ s;
     backward_compatibility_ := backward_compatibility_ s;
     num_wake_ups_before_start_ := num_wake_ups_before_start_ s;
     shared_priority_queue_ := f (shared_priority_queue_ s);
     worker_cleanup_disallowed_ := worker_cleanup_disallowed_ s;
     cleanup_timestamps_ := cleanup_timestamps_ s;
     delegates := delegates s;
     next_worker := next_worker s;
     now := now s;
     trace := trace s |}.

Definition set_cleanup_disallowed (b : bool) (s : Pool) : Pool :=
  {| workers_ := workers_ s;
     idle_workers_stack_ := idle_workers_stack_ s;
     worker_capacity_ := worker_capacity_ s;
     suggested_reclaim_time_ := suggested_reclaim_time_ s;
     backward_compatibility_ := backward_compatibility_ s;
     num_wake_ups_before_start_ := num_wake_ups_before_start_ s;
     shared_priority_queue_ := shared_priority_queue_ s;
     worker_cleanup_disallowed_ := b;
     cleanup_timestamps_ := cleanup_timestamps_ s;
     delegates := delegates s;
     next_worker := next_worker s;
     now := now s;
     trace := trace s |}.

Definition set_cleanup_timestamps (f : list TimeTicks -> list TimeTicks)
    (s : Pool) : Pool :=
  {| workers_ := workers_ s;
     idle_workers_stack_ := idle_workers_stack_ s;
     worker_capacity_ := worker_capacity_ s;
     suggested_reclaim_time_ := suggested_reclaim_time_ s;
     backward_compatibility_ := backward_compatibility_ s;
     num_wake_ups_before_start_ := num_wake_ups_before_start_ s;
     shared_priority_queue_ := shared_priority_queue_ s;
     worker_cleanup_disallowed_ := worker_cleanup_disallowed_ s;
     cleanup_timestamps_ := f (cleanup_timestamps_ s);
     delegates := delegates s;
     next_worker := next_worker s;
     now := now s;
     trace := trace s |}.

Definition set_delegates (f : gmap Worker Delegate -> gmap Worker Delegate)
    (s : Pool) : Pool :=
  {| workers_ := workers_ s;
     idle_workers_stack_ := idle_workers_stack_ s;
     worker_capacity_ := worker_capacity_ s;
     suggested_reclaim_time_ := suggested_reclaim_time_ s;
     backward_compatibility_ := backward_compatibility_ s;
     num_wake_ups_before_start_ := num_wake_ups_before_start_ s;
     shared_priority_queue_ := shared_priority_queue_ s;
     worker_cleanup_disallowed_ := worker_cleanup_disallowed_ s;
     cleanup_timestamps_ := cleanup_timestamps_ s;
     delegates := f (delegates s);
     next_worker := next_worker s;
     now := now s;
     trace := trace s |}.

Definition set_next_worker (n : Worker) (s : Pool) : Pool :=
  {| workers_ := workers_ s;
     idle_workers_stack_ := idle_workers_stack_ s;
     worker_capacity_ := worker_capacity_ s;
     suggested_reclaim_time_ := suggested_reclaim_time_ s;
     backward_compatibility_ := backward_compatibility_ s;
     num_wake_ups_before_start_ := num_wake_ups_before_start_ s;
     shared_priority_queue_ := shared_priority_queue_ s;
     worker_cleanup_disallowed_ := worker_cleanup_disallowed_ s;
     cleanup_timestamps_ := cleanup_timestamps_ s;
     delegates := delegates s;
     next_worker := n;
     now := now s;
     trace := trace s |}.

Definition set_now (t : TimeTicks) (s : Pool) : Pool :=
  {| workers_ := workers_ s;
     idle_workers_stack_ := idle_workers_stack_ s;
     worker_capacity_ := worker_capacity_ s;
     suggested_reclaim_time_ := suggested_reclaim_time_ s;
     backward_compatibility_ := backward_compatibility_ s;
     num_wake_ups_before_start_ := num_wake_ups_before_start_ s;
     shared_priority_queue_ := shared_priority_queue_ s;
     worker_cleanup_disallowed_ := worker_cleanup_disallowed_ s;
     cleanup_timestamps_ := cleanup_timestamps_ s;
     delegates := delegates s;
     next_worker := next_worker s;
     now := t;
     trace := trace s |}.

Definition emit (e : Event) (s : Pool) : Pool :=
  {| workers_ := workers_ s;
     idle_workers_stack_ := idle_workers_stack_ s;
     worker_capacity_ := worker_capacity_ s;
     suggested_reclaim_time_ := suggested_reclaim_time_ s;
     backward_compatibility_ := backward_compatibility_ s;
     num_wake_ups_before_start_ := num_wake_ups_before_start_ s;
     shared_priority_queue_ := shared_priority_queue_ s;
     worker_cleanup_disallowed_ := worker_cleanup_disallowed_ s;
     cleanup_timestamps_ := cleanup_timestamps_ s;
     delegates := delegates s;
     next_worker := next_worker s;
     now := now s;
     trace := trace s ++ [e] |}.

(** The pool as its constructor leaves it. *)
Definition initial_pool : Pool :=
  {| workers_ := [];
     idle_workers_stack_ := SchedulerWorkerStack.empty;
     worker_capacity_ := 0;
     suggested_reclaim_time_ := 0;
     backward_compatibility_ := false;
     num_wake_ups_before_start_ := 0;
     shared_priority_queue_ := PriorityQueue.empty;
     worker_cleanup_disallowed_ := false;
     cleanup_timestamps_ := [];
     delegates := ∅;
     next_worker := 0%nat;
     now := 0;
     trace := [] |}.

Section Operations.

(** Whether [SchedulerWorker::Start()] succeeds for the worker object
    allocated at a given address, that is whether the platform could create
    its thread. *)
Variable thread_starts : Worker -> bool.

Local Open Scope monad_scope.

(** [ContainsWorker], by [std::find_if] on the address. *)
Definition ContainsWorker (workers : list Worker) (worker : Worker) : bool :=
  existsb (fun i => Nat.eqb i worker) workers.

(** [worker->delegate()], of a worker object that is alive. *)
Definition delegate (w : Worker) : M Pool Delegate :=
  fun s => match delegates s !! w with
           | Some d => Ok (d, s)
           | None => Abort Undefined
           end.

Definition with_is_on_idle_workers_stack (b : bool) (d : Delegate)
    : Delegate :=
  {| is_on_idle_workers_stack_ := b;
     num_tasks_since_last_wait_ := num_tasks_since_last_wait_ d;
     num_tasks_since_last_detach_ := num_tasks_since_last_detach_ d |}.

Definition with_num_tasks_since_last_wait (n : Z) (d : Delegate)
    : Delegate :=
  {| is_on_idle_workers_stack_ := is_on_idle_workers_stack_ d;
     num_tasks_since_last_wait_ := n;
     num_tasks_since_last_detach_ := num_tasks_since_last_detach_ d |}.

Definition with_num_tasks_since_last_detach (n : Z) (d : Delegate)
    : Delegate :=
  {| is_on_idle_workers_stack_ := is_on_idle_workers_stack_ d;
     num_tasks_since_last_wait_ := num_tasks_since_last_wait_ d;
     num_tasks_since_last_detach_ := n |}.

Definition store_delegate (w : Worker) (d : Delegate) : M Pool unit :=
  modify (set_delegates (insert w d)).

Definition idle_Contains (w : Worker) : M Pool bool :=
  gets (fun s => SchedulerWorkerStack.Contains w (idle_workers_stack_ s)).

Definition idle_Push (w : Worker) : M Pool unit :=
  fun s => match SchedulerWorkerStack.Push w (idle_workers_stack_ s) with
           | Ok st => Ok (tt, set_idle (fun _ => st) s)
           | Abort f => Abort f
           end.

Definition idle_Pop : M Pool (option Worker) :=
  fun s => let '(w, st) := SchedulerWorkerStack.Pop (idle_workers_stack_ s) in
           Ok (w, set_idle (fun _ => st) s).

Definition idle_IsEmpty : M Pool bool :=
  gets (fun s => SchedulerWorkerStack.IsEmpty (idle_workers_stack_ s)).

Definition below_capacity : M Pool bool :=
  gets (fun s => Z.of_nat (length (workers_ s)) <? worker_capacity_ s).

Definition WakeUp (w : Worker) : M Pool unit := modify (emit (EvWakeUp w)).

(** [SchedulerWorkerDelegateImpl::SetIsOnIdleWorkersStack] *)
Definition SetIsOnIdleWorkersStack (worker : Worker) : M Pool unit :=
  let* d := delegate worker in
  DCHECK (negb (is_on_idle_workers_stack_ d)) >>
  let* on_stack := idle_Contains worker in
  DCHECK on_stack >>
  store_delegate worker (with_is_on_idle_workers_stack true d).

(** [SchedulerWorkerDelegateImpl::UnsetIsOnIdleWorkersStack] *)
Definition UnsetIsOnIdleWorkersStack (worker : Worker) : M Pool unit :=
  let* d := delegate worker in
  DCHECK (is_on_idle_workers_stack_ d) >>
  let* on_stack := idle_Contains worker in
  DCHECK (negb on_stack) >>
  store_delegate worker (with_is_on_idle_workers_stack false d).

(** [SchedulerWorkerDelegateImpl::AssertIsOnIdleWorkersStack] *)
Definition AssertIsOnIdleWorkersStack (worker : Worker) : M Pool unit :=
  let* d := delegate worker in
  DCHECK (is_on_idle_workers_stack_ d) >>
  let* on_stack := idle_Contains worker in
  DCHECK on_stack.

(** [SchedulerWorkerPoolImpl::CreateRegisterAndStartSchedulerWorker]: the
    worker object is allocated at the next free address; when its thread
    cannot be started the object is dropped and [nullptr] returned. *)
Definition CreateRegisterAndStartSchedulerWorker : M Pool (option Worker) :=
  let* below := below_capacity in
  DCHECK below >>
  let* worker := gets next_worker in
  modify (set_next_worker (S worker)) >>
  if negb (thread_starts worker) then ret None
  else
    store_delegate worker new_delegate >>
    modify (set_workers (fun ws => ws ++ [worker])) >>
    let* stamps := gets cleanup_timestamps_ in
    match stamps with
    | [] => ret tt
    | top :: rest =>
        let* t := gets now in
        modify (emit (EvHistogram detach_duration_histogram_ (t - top))) >>
        modify (set_cleanup_timestamps (fun _ => rest))
    end >>
    ret (Some worker).

(** The body of the [for] loop of [Start], from [index] on, for [n] more
    rounds. *)
Fixpoint Start_loop (n : nat) (index : Z) : M Pool unit :=
  match n with
  | O => ret tt
  | S n' =>
      let* worker := CreateRegisterAndStartSchedulerWorker in
      CHECK (bool_decide (is_Some worker) || (0 <? index)) >>
      match worker with
      | Some w =>
          let* wake_ups := gets num_wake_ups_before_start_ in
          if index <? wake_ups
          then UnsetIsOnIdleWorkersStack w >> WakeUp w
          else idle_Push w >> AssertIsOnIdleWorkersStack w
      | None => ret tt
      end >>
      Start_loop n' (index + 1)
  end.

(** [std::min(num_wake_ups_before_start_ + 1,
    static_cast<int>(worker_capacity_))].  The sum is that of the integers:
    it is the [int] of the source while the count of wake-ups is below
    [INT_MAX]. *)
Definition num_initial_workers (s : Pool) : Z :=
  Z.min (num_wake_ups_before_start_ s + 1)
        (static_cast_int (worker_capacity_ s)).

(** [SchedulerWorkerPoolImpl::Start].  The call
    [workers_.reserve(num_initial_workers)] is left out: it changes no
    member that the pool reads while its count is not negative, which is so
    for [0 <= max_threads] and a count of wake-ups that is not negative. *)
Definition Start (params : SchedulerWorkerPoolParams) : M Pool unit :=
  let* ws := gets workers_ in
  DCHECK (bool_decide (ws = [])) >>
  modify (set_params params) >>
  let* n := gets num_initial_workers in
  Start_loop (Z.to_nat n) 0.

(** [SchedulerWorkerPoolImpl::WakeUpOneWorker].  The increment of
    [num_wake_ups_before_start_] is that of the integers: it is the [++] of
    the source while the count is below [INT_MAX]. *)
Definition WakeUpOneWorker : M Pool unit :=
  let* ws := gets workers_ in
  match ws with
  | [] => modify (set_num_wake_ups (fun n => n + 1))
  | _ :: _ =>
      let* idle_empty := idle_IsEmpty in
      let* below := below_capacity in
      let* worker :=
        (if idle_empty && below
         then CreateRegisterAndStartSchedulerWorker
         else idle_Pop) in
      match worker with
      | Some w => UnsetIsOnIdleWorkersStack w >> WakeUp w
      | None => ret tt
      end >>
      let* idle_empty := idle_IsEmpty in
      let* below := below_capacity in
      if idle_empty && below
      then
        let* new_worker := CreateRegisterAndStartSchedulerWorker in
        match new_worker with
        | Some w => idle_Push w
        | None => ret tt
        end
      else ret tt
  end.

Definition queue_Push (sequence : Sequence) (key : SequenceSortKey)
    : M Pool unit :=
  modify (set_queue (PriorityQueue.Push sequence key)).

(** [SchedulerWorkerPoolImpl::ScheduleSequence] *)
Definition ScheduleSequence (sequence : Sequence) : M Pool unit :=
  let sequence_sort_key := GetSortKey sequence in
  queue_Push sequence sequence_sort_key >>
  WakeUpOneWorker.

(** [SchedulerWorkerDelegateImpl::ReEnqueueSequence] *)
Definition ReEnqueueSequence (sequence : Sequence) : M Pool unit :=
  let sequence_sort_key := GetSortKey sequence in
  queue_Push sequence sequence_sort_key.

(** [SchedulerWorkerPoolImpl::AddToIdleWorkersStack] *)
Definition AddToIdleWorkersStack (worker : Worker) : M Pool unit :=
  let* on_stack := idle_Contains worker in
  DCHECK (negb on_stack) >>
  idle_Push worker >>
  let* idle_size :=
    gets (fun s => SchedulerWorkerStack.Size (idle_workers_stack_ s)) in
  let* workers_size := gets (fun s => length (workers_ s)) in
  DCHECK (idle_size <=? workers_size)%nat >>
  if (idle_size =? workers_size)%nat
  then modify (emit EvBroadcastIdle)
  else ret tt.

(** [SchedulerWorkerPoolImpl::PeekAtIdleWorkersStack] *)
Definition PeekAtIdleWorkersStack (s : Pool) : option Worker :=
  SchedulerWorkerStack.Peek (idle_workers_stack_ s).

(** [SchedulerWorkerPoolImpl::RemoveFromIdleWorkersStack] *)
Definition RemoveFromIdleWorkersStack (worker : Worker) : M Pool unit :=
  modify (set_idle (SchedulerWorkerStack.Remove worker)).

(** [SchedulerWorkerPoolImpl::CanWorkerCleanupForTesting] *)
Definition CanWorkerCleanupForTesting (s : Pool) : bool :=
  negb (worker_cleanup_disallowed_ s).

(** [SchedulerWorkerPoolImpl::DisallowWorkerCleanupForTesting] *)
Definition DisallowWorkerCleanupForTesting : M Pool unit :=
  modify (set_cleanup_disallowed true).

(** [SchedulerWorkerDelegateImpl::CanCleanup] *)
Definition CanCleanup (worker : Worker) (s : Pool) : bool :=
  negb (bool_decide (Some worker = PeekAtIdleWorkersStack s))
  && CanWorkerCleanupForTesting s.

(** [workers_.erase(std::find(...))]: the first occurrence goes. *)
Fixpoint erase_first (w : Worker) (ws : list Worker) : list Worker :=
  match ws with
  | [] => []
  | x :: ws' => if Nat.eqb x w then ws' else x :: erase_first w ws'
  end.

(** [SchedulerWorkerDelegateImpl::Cleanup] *)
Definition Cleanup (worker : Worker) : M Pool unit :=
  let* d := delegate worker in
  modify (emit (EvHistogram num_tasks_before_detach_histogram_
                            (num_tasks_since_last_detach_ d))) >>
  let* t := gets now in
  modify (set_cleanup_timestamps (cons t)) >>
  modify (emit (EvWorkerCleanup worker)) >>
  RemoveFromIdleWorkersStack worker >>
  let* ws := gets workers_ in
  DCHECK (ContainsWorker ws worker) >>
  modify (set_workers (erase_first worker)).

(** [SchedulerWorkerDelegateImpl::GetWork] *)
Definition GetWork (worker : Worker) : M Pool (option Sequence) :=
  let* ws := gets workers_ in
  DCHECK (ContainsWorker ws worker) >>
  let* d := delegate worker in
  let* on_stack := idle_Contains worker in
  DCHECK (bool_decide (is_on_idle_workers_stack_ d = on_stack)) >>
  if is_on_idle_workers_stack_ d
  then
    let* can := gets (CanCleanup worker) in
    (if can then Cleanup worker else ret tt) >>
    let* d := delegate worker in
    DCHECK (num_tasks_since_last_wait_ d =? 0) >>
    modify (emit (EvHistogram num_tasks_between_waits_histogram_
                              (num_tasks_since_last_wait_ d))) >>
    ret None
  else
    let* queue := gets shared_priority_queue_ in
    if PriorityQueue.IsEmpty queue
    then
      let* d := delegate worker in
      modify (emit (EvHistogram num_tasks_between_waits_histogram_
                                (num_tasks_since_last_wait_ d))) >>
      store_delegate worker (with_num_tasks_since_last_wait 0 d) >>
      AddToIdleWorkersStack worker >>
      SetIsOnIdleWorkersStack worker >>
      ret None
    else
      let '(sequence, queue') := PriorityQueue.PopSequence queue in
      modify (set_queue (fun _ => queue')) >>
      DCHECK (bool_decide (is_Some sequence)) >>
      let* on_stack := idle_Contains worker in
      DCHECK (negb on_stack) >>
      ret sequence.

(** [SchedulerWorkerDelegateImpl::DidRunTask], of the delegate of
    [worker]. *)
Definition DidRunTask (worker : Worker) : M Pool unit :=
  let* d := delegate worker in
  store_delegate worker
    (with_num_tasks_since_last_detach
       (to_size_t (num_tasks_since_last_detach_ d + 1))
       (with_num_tasks_since_last_wait
          (to_size_t (num_tasks_since_last_wait_ d + 1)) d)).

(** [SchedulerWorkerDelegateImpl::GetSleepTimeout] *)
Definition GetSleepTimeout (s : Pool) : Z := suggested_reclaim_time_ s.

(** [SchedulerWorkerPoolImpl::NumberOfWorkersForTesting] *)
Definition NumberOfWorkersForTesting (s : Pool) : nat := length (workers_ s).

(** [SchedulerWorkerPoolImpl::GetWorkerCapacityForTesting] *)
Definition GetWorkerCapacityForTesting (s : Pool) : Z := worker_capacity_ s.

(** *** Sequences of operations *)

(** The calls that the threads of the process make on the pool.  Each one
    runs under [lock_], so a run of the pool is a sequence of them. *)
Inductive Op : Type :=
| OpStart (params : SchedulerWorkerPoolParams)
| OpScheduleSequence (sequence : Sequence)
| OpWakeUpOneWorker
| OpGetWork (worker : Worker)
| OpReEnqueueSequence (sequence : Sequence)
| OpDidRunTask (worker : Worker)
| OpDisallowWorkerCleanupForTesting
| OpAdvanceClock (t : TimeTicks).

Definition run_op (o : Op) : M Pool unit :=
  match o with
  | OpStart params => Start params
  | OpScheduleSequence sequence => ScheduleSequence sequence
  | OpWakeUpOneWorker => WakeUpOneWorker
  | OpGetWork worker => GetWork worker >> ret tt
  | OpReEnqueueSequence sequence => ReEnqueueSequence sequence
  | OpDidRunTask worker => DidRunTask worker
  | OpDisallowWorkerCleanupForTesting => DisallowWorkerCleanupForTesting
  | OpAdvanceClock t => modify (fun s => set_now (Z.max (now s) t) s)
  end.

Fixpoint run_ops (ops : list Op) : M Pool unit :=
  match ops with
  | [] => ret tt
  | o :: ops' => run_op o >> run_ops ops'
  end.

(** *** Invariants *)

(** The invariant of the data model: the idle stack holds workers of the
    pool only, and the sizes are ordered. *)
Definition pool_inv (s : Pool) : Prop :=
  (forall w, w ∈ idle_workers_stack_ s -> w ∈ workers_ s)
  /\ (SchedulerWorkerStack.Size (idle_workers_stack_ s)
      <= length (workers_ s))%nat
  /\ Z.of_nat (length (workers_ s)) <= worker_capacity_ s.

(** What is kept by the operations whatever their arguments: no worker is
    twice on the idle stack. *)
Definition stack_inv (s : Pool) : Prop :=
  NoDup (idle_workers_stack_ s)
  /\ (forall w, w ∈ idle_workers_stack_ s -> w ∈ workers_ s)
  /\ Z.of_nat (length (workers_ s)) <= worker_capacity_ s.

(** A worker of the pool and its delegate agree with the idle stack. *)
Definition delegate_ok (s : Pool) (w : Worker) : Prop :=
  exists d,
    delegates s !! w = Some d
    /\ (is_on_idle_workers_stack_ d = true <-> w ∈ idle_workers_stack_ s)
    /\ (is_on_idle_workers_stack_ d = true ->
        num_tasks_since_last_wait_ d = 0).

(** The states of a pool whose operations are called as the worker threads
    call them. *)
Definition pool_wf (s : Pool) : Prop :=
  stack_inv s
  /\ NoDup (workers_ s)
  /\ (forall w, w ∈ workers_ s -> (w < next_worker s)%nat)
  /\ (forall w, w ∈ workers_ s -> delegate_ok s w).

(** When a call is one that the process makes: [Start] before any worker
    exists and on a machine that can create a thread, [GetWork] by a worker
    of the pool, [DidRunTask] by a worker that is running. *)
Definition enabled (s : Pool) (o : Op) : Prop :=
  match o with
  | OpStart params =>
      workers_ s = []
      /\ (0 < num_initial_workers (set_params params s) ->
          thread_starts (next_worker s) = true)
  | OpGetWork worker => worker ∈ workers_ s
  | OpDidRunTask worker =>
      worker ∈ workers_ s /\ worker ∉ idle_workers_stack_ s
  | _ => True
  end.

(** [enabled], as a test. *)
Definition enabledb (s : Pool) (o : Op) : bool :=
  match o with
  | OpStart params =>
      bool_decide (workers_ s = [])
      && (negb (0 <? num_initial_workers (set_params params s))
          || thread_starts (next_worker s))
  | OpGetWork worker => bool_decide (worker ∈ workers_ s)
  | OpDidRunTask worker =>
      bool_decide (worker ∈ workers_ s)
      && negb (bool_decide (worker ∈ idle_workers_stack_ s))
  | _ => true
  end.

(** A run of calls that the process makes; [None] when one of them is not
    enabled or does not return. *)
Fixpoint run_checked (ops : list Op) (s : Pool) : option Pool :=
  match ops with
  | [] => Some s
  | o :: ops' =>
      if enabledb s o
      then match run_op o s with
           | Ok (_, s') => run_checked ops' s'
           | Abort _ => None
           end
      else None
  end.

(** The pools that the process can reach from a new pool. *)
Definition reachable (s : Pool) : Prop :=
  exists ops, run_checked ops initial_pool = Some s.

(** *** The steps of the operations, as changes of the pool

    The definitions below say what each operation leaves, without the
    assertions of the code.  The theorems relate them to the member
    functions above. *)

(** The detach-duration sample taken when a worker is created after a
    cleanup. *)
Definition settle_detach_duration (s : Pool) : Pool :=
  match cleanup_timestamps_ s with
  | [] => s
  | top :: rest =>
      set_cleanup_timestamps (fun _ => rest)
        (emit (EvHistogram detach_duration_histogram_ (now s - top)) s)
  end.

(** The pool in which a worker has been created and registered. *)
Definition created (s : Pool) : Pool :=
  settle_detach_duration
    (set_workers (fun ws => ws ++ [next_worker s])
       (set_delegates (insert (next_worker s) new_delegate)
          (set_next_worker (S (next_worker s)) s))).

(** "create a new worker": the worker is registered when its thread
    starts. *)
Definition spec_create_worker (s : Pool) : option Worker * Pool :=
  if thread_starts (next_worker s)
  then (Some (next_worker s), created s)
  else (None, set_next_worker (S (next_worker s)) s).

(** "wake it": the worker is not idle-marked any more and is woken. *)
Definition spec_wake (w : Worker) (s : Pool) : Pool :=
  emit (EvWakeUp w)
    (set_delegates (alter (with_is_on_idle_workers_stack false) w) s).

(** "idle stack is empty and capacity remains" *)
Definition spec_has_room (s : Pool) : bool :=
  SchedulerWorkerStack.IsEmpty (idle_workers_stack_ s)
  && (Z.of_nat (length (workers_ s)) <? worker_capacity_ s).

(** "if idle stack is empty and capacity remains, create a new worker and
    wake it directly; else pop and wake the top of the idle stack" *)
Definition wake_one (s : Pool) : Pool :=
  if spec_has_room s
  then match spec_create_worker s with
       | (Some w, s') => spec_wake w s'
       | (None, s') => s'
       end
  else match idle_workers_stack_ s with
       | w :: rest => spec_wake w (set_idle (fun _ => rest) s)
       | [] => s
       end.

(** "if idle stack is now empty and capacity remains, eagerly create one
    more worker and push it idle" *)
Definition keep_one_idle (s : Pool) : Pool :=
  if spec_has_room s
  then match spec_create_worker s with
       | (Some w, s') => set_idle (cons w) s'
       | (None, s') => s'
       end
  else s.

(** [WakeUpOneWorker], as the specification words it: "if no workers exist
    yet, record a deferred wake-up count", else wake one and keep one
    idle. *)
Definition WakeUpOneWorker_spec (s : Pool) : Pool :=
  match workers_ s with
  | [] => set_num_wake_ups Z.succ s
  | _ :: _ => keep_one_idle (wake_one s)
  end.

(** The workers on which [WakeUp()] was called, in order. *)
Definition woken (tr : list Event) : list Worker :=
  omap (fun e => match e with EvWakeUp w => Some w | _ => None end) tr.

(** What one round of the loop of [Start] leaves. *)
Definition Start_round (index : Z) (s : Pool) : Pool :=
  if thread_starts (next_worker s)
  then if index <? num_wake_ups_before_start_ s
       then spec_wake (next_worker s) (created s)
       else set_idle (cons (next_worker s)) (created s)
  else set_next_worker (S (next_worker s)) s.

Fixpoint Start_loop_spec (n : nat) (index : Z) (s : Pool) : Pool :=
  match n with
  | O => s
  | S n' => Start_loop_spec n' (index + 1) (Start_round index s)
  end.

(** The pool that [Start] leaves. *)
Definition Start_spec (params : SchedulerWorkerPoolParams) (s : Pool)
    : Pool :=
  Start_loop_spec
    (Z.to_nat (num_initial_workers (set_params params s))) 0
    (set_params params s).

(** Of [n] rounds that begin at [index], the number of those whose index is
    below [p]. *)
Definition woken_rounds (n : nat) (index p : Z) : nat :=
  Z.to_nat (Z.min (Z.of_nat n) (Z.max 0 (p - index))).

(** The pool once [worker] has cleaned itself up. *)
Definition cleaned (worker : Worker) (d : Delegate) (s : Pool) : Pool :=
  set_workers (erase_first worker)
    (set_idle (SchedulerWorkerStack.Remove worker)
       (emit (EvWorkerCleanup worker)
          (set_cleanup_timestamps (cons (now s))
             (emit (EvHistogram num_tasks_before_detach_histogram_
                      (num_tasks_since_last_detach_ d)) s)))).

(** The pool once [worker], finding no work, has gone idle. *)
Definition gone_idle (worker : Worker) (d : Delegate) (s : Pool) : Pool :=
  let s1 :=
    set_idle (cons worker)
      (set_delegates (insert worker (with_num_tasks_since_last_wait 0 d))
         (emit (EvHistogram num_tasks_between_waits_histogram_
                  (num_tasks_since_last_wait_ d)) s)) in
  set_delegates
    (insert worker
       (with_is_on_idle_workers_stack true
          (with_num_tasks_since_last_wait 0 d)))
    (if (S (length (idle_workers_stack_ s)) =? length (workers_ s))%nat
     then emit EvBroadcastIdle s1
     else s1).

(** What [GetWork] returns and leaves. *)
Definition GetWork_spec (worker : Worker) (s : Pool)
    : option Sequence * Pool :=
  match delegates s !! worker with
  | None => (None, s)
  | Some d =>
      if is_on_idle_workers_stack_ d
      then (None,
            emit (EvHistogram num_tasks_between_waits_histogram_
                    (num_tasks_since_last_wait_ d))
              (if CanCleanup worker s then cleaned worker d s else s))
      else
        match shared_priority_queue_ s with
        | [] => (None, gone_idle worker d s)
        | (_, sequence) :: rest =>
            (Some sequence, set_queue (fun _ => rest) s)
        end
  end.

(** *** The other member functions *)

(** [SchedulerWorkerDelegateImpl::OnMainEntry], as far as the pool is
    concerned: its two assertions. *)
Definition OnMainEntry (worker : Worker) : M Pool unit :=
  let* ws := gets workers_ in
  DCHECK (ContainsWorker ws worker) >>
  let* d := delegate worker in
  DCHECK (num_tasks_since_last_wait_ d =? 0).

(** [SchedulerWorkerDelegateImpl::OnMainExit]; [shutdown_complete] is what
    [task_tracker_->IsShutdownComplete()] answers, [join_started] whether
    [join_for_testing_started_] is set. *)
Definition OnMainExit (shutdown_complete join_started : bool)
    (worker : Worker) : M Pool unit :=
  if negb shutdown_complete && negb join_started
  then
    let* on_stack := idle_Contains worker in
    DCHECK (negb on_stack) >>
    let* ws := gets workers_ in
    DCHECK (negb (ContainsWorker ws worker))
  else ret tt.

(** [SchedulerWorkerPoolImpl::GetMaxConcurrentTasksDeprecated]: the
    [size_t] is returned as an [int]. *)
Definition GetMaxConcurrentTasksDeprecated : M Pool Z :=
  let* capacity := gets worker_capacity_ in
  DCHECK (negb (capacity =? 0)) >>
  ret (static_cast_int capacity).

(** The condition of the loop of
    [SchedulerWorkerPoolImpl::WaitForAllWorkersIdleForTesting]: while it
    holds the caller waits on [idle_workers_stack_cv_for_testing_]. *)
Definition WaitForAllWorkersIdleForTesting_waits (s : Pool) : bool :=
  (SchedulerWorkerStack.Size (idle_workers_stack_ s)
   <? length (workers_ s))%nat.

(** The calls on which the arithmetic of the model is that of the source:
    [Start] gets a [max_threads] that is not negative, so that
    [workers_.reserve] gets a count that is not negative, and no [int]
    overflows in [num_wake_ups_before_start_ + 1] or in
    [++num_wake_ups_before_start_]. *)
Definition in_int_range (s : Pool) (o : Op) : Prop :=
  match o with
  | OpStart params =>
      0 <= max_threads params <= INT_MAX
      /\ 0 <= num_wake_ups_before_start_ s < INT_MAX
  | OpScheduleSequence _ | OpWakeUpOneWorker =>
      workers_ s = [] -> num_wake_ups_before_start_ s < INT_MAX
  | _ => True
  end.

(** Whether the call is made by [worker] through its delegate. *)
Definition is_call_of (worker : Worker) (o : Op) : bool :=
  match o with
  | OpGetWork w | OpDidRunTask w => Nat.eqb w worker
  | _ => false
  end.

(** The two counters of the delegate of [worker]. *)
Definition task_counters (worker : Worker) (s : Pool) : option (Z * Z) :=
  (fun d => (num_tasks_since_last_wait_ d, num_tasks_since_last_detach_ d))
    <$> delegates s !! worker.

(** The samples of the detach-duration histogram, in order. *)
Definition detach_durations (tr : list Event) : list Z :=
  omap (fun e => match e with
                 | EvHistogram detach_duration_histogram_ sample =>
                     Some sample
                 | _ => None
                 end) tr.

(** The times of the cleanups are in the past, and the durations recorded
    are not negative. *)
Definition cleanup_times_ok (s : Pool) : Prop :=
  Forall (fun t => t <= now s) (cleanup_timestamps_ s)
  /\ Forall (fun sample => 0 <= sample) (detach_durations (trace s)).

End Operations.

(** *** Sample environments and parameters *)

Definition every_thread_starts : Worker -> bool := fun _ => true.
Definition only_first_thread_starts : Worker -> bool :=
  fun w => Nat.eqb w 0.

Definition params_of (capacity : Z) : SchedulerWorkerPoolParams :=
  {| max_threads := capacity;
     suggested_reclaim_time := 30;
     backward_compatibility := false |}.

Definition sample_sequence (n : nat) : Sequence :=
  {| sequence_id := n;
     sort_key := {| priority := 1; sequence_number := n |} |}.

(** Two wake-ups are requested before [Start]. *)
Definition ops_before_start : list Op :=
  [OpScheduleSequence (sample_sequence 1); OpWakeUpOneWorker].

Definition pool_before_start : Pool :=
  Eval vm_compute in
    default initial_pool
      (run_checked every_thread_starts ops_before_start initial_pool).

(** Then the pool is started with room for four workers. *)
Definition ops_started : list Op :=
  ops_before_start ++ [OpStart (params_of 4)].

Definition pool_started : Pool :=
  Eval vm_compute in
    default initial_pool
      (run_checked every_thread_starts ops_started initial_pool).

(** Then the first worker runs the one sequence and goes idle, on top of the
    standby worker. *)
Definition ops_two_idle : list Op :=
  ops_started ++ [OpGetWork 0%nat; OpDidRunTask 0%nat; OpGetWork 0%nat].

Definition pool_two_idle : Pool :=
  Eval vm_compute in
    default initial_pool
      (run_checked every_thread_starts ops_two_idle initial_pool).

(** A pool of one worker, which is running. *)
Definition ops_at_capacity : list Op :=
  [OpStart (params_of 1); OpWakeUpOneWorker].

Definition pool_at_capacity : Pool :=
  Eval vm_compute in
    default initial_pool
      (run_checked every_thread_starts ops_at_capacity initial_pool).

(** After [ops_two_idle] the standby worker times out and leaves at time 0;
    at time 10 a wake-up takes the idle worker and creates a new standby;
    the woken worker goes idle again and the new standby times out and
    leaves; the clock then reads 25. *)
Definition ops_recreated : list Op :=
  ops_two_idle
  ++ [OpGetWork 2%nat; OpAdvanceClock 10; OpWakeUpOneWorker;
      OpGetWork 0%nat; OpGetWork 3%nat; OpAdvanceClock 25].

Definition pool_recreated : Pool :=
  Eval vm_compute in
    default initial_pool
      (run_checked every_thread_starts ops_recreated initial_pool).

End WorkerPool.

(** ** The deduplicator of work requests *)

Module WorkDeduplicator.

(** Modelled from the spec: the class WorkDeduplicator
    (work_deduplicator.cc) is not among the sources.  The spec gives the
    states "{Idle, Pending-immediate, Pending-delayed, Running}" and the
    transitions "a work-request while Idle moves to Pending and signals
    schedule now; a work-request while already Pending signals already
    scheduled, no-op; entering DoWork moves to Running; on exit,
    re-evaluates to Idle or Pending based on whether further work was
    found".  Where the spec is silent the model follows the comments at the
    call sites in thread_controller_impl.cc: a request that arrives while
    DoWork runs is remembered as pending and is answered when DoWork has
    checked for more work ("another thread may have posted an immediate task
    while we computed the delay"). *)
Inductive State : Type :=
| Idle
| PendingImmediate
| PendingDelayed
| Running.

Inductive ShouldScheduleWork : Type :=
| kScheduleImmediate
| kNotNeeded.

Inductive NextTask : Type :=
| kIsImmediate
| kIsDelayed.

Definition OnWorkRequested (st : State) : ShouldScheduleWork * State :=
  match st with
  | Idle => (kScheduleImmediate, PendingImmediate)
  | PendingImmediate => (kNotNeeded, PendingImmediate)
  | PendingDelayed => (kNotNeeded, PendingDelayed)
  | Running => (kNotNeeded, PendingImmediate)
  end.

Definition OnDelayedWorkRequested (st : State) : ShouldScheduleWork :=
  match st with
  | Idle => kScheduleImmediate
  | _ => kNotNeeded
  end.

Definition OnWorkStarted (st : State) : State := Running.

Definition WillCheckForMoreWork (st : State) : State := Running.

Definition DidCheckForMoreWork (next_task : NextTask) (st : State)
    : ShouldScheduleWork * State :=
  match next_task with
  | kIsImmediate => (kScheduleImmediate, PendingImmediate)
  | kIsDelayed =>
      match st with
      | PendingImmediate => (kScheduleImmediate, PendingImmediate)
      | _ => (kNotNeeded, Idle)
      end
  end.

Definition should_schedule (a : ShouldScheduleWork) : bool :=
  match a with kScheduleImmediate => true | kNotNeeded => false end.

End WorkDeduplicator.

(** ** The thread controller: thread_controller_impl.cc *)

Module ThreadController.

Import WorkDeduplicator.

(** [TimeTicks()] is the null time, [TimeTicks::Max()] the largest one. *)
Definition TimeTicks_null : TimeTicks := 0.
Definition TimeTicks_Max : TimeTicks := 2 ^ 63 - 1.

(** A task is opaque to the controller.  What running it does to the
    controller is recorded with it: it may request work (a call of
    [ScheduleWork]) and it may destroy the controller, which [DoWork] sees
    through its weak pointer. *)
Record Task : Type := {
  task_id : nat;
  task_requests_work : bool;
  task_deletes_controller : bool
}.

(** The interface [SequencedTaskSource], as far as [DoWork] calls it.  The
    argument of type [TimeTicks] is the reading of the [LazyNow]. *)
Class SequencedTaskSource (Src : Type) : Type := {
  SelectNextTask : Src -> option Task * Src;
  DidRunTask : Src -> Src;
  RemoveAllCanceledDelayedTasksFromFront : TimeTicks -> Src -> Src;
  GetNextTaskTime : TimeTicks -> Src -> TimeTicks;
  OnSystemIdle : Src -> bool * Src
}.

(** Modelled from the spec: the class RunLevelTracker (thread_controller.cc)
    is not among the sources; the spec speaks of "entering a nested run
    level" and of its exit.  The model keeps the stack of run levels, the
    innermost first, with the state names used at the call sites. *)
Inductive RunLevelState : Type :=
| kIdle
| kSelectingNextTask
| kRunningTask.

(** Modelled from the spec: the class CancelableClosure
    (cancelable_callback.h) is not among the sources.  [Reset] wraps a new
    closure and cancels the earlier one, [Cancel] cancels; a posted callback
    runs only while it is the current, uncancelled one. *)
Record CancelableClosure : Type := {
  generation : nat;
  is_cancelled : bool
}.

Definition Cancel (c : CancelableClosure) : CancelableClosure :=
  {| generation := generation c; is_cancelled := true |}.

Definition Reset (c : CancelableClosure) : CancelableClosure :=
  {| generation := S (generation c); is_cancelled := false |}.

(** Calls on [task_runner_]. *)
Inductive Posted : Type :=
| PostTask_immediate_do_work
| PostDelayedTask_delayed_do_work (closure : nat) (delay : Z).

#[export] Instance Posted_eq_dec : EqDecision Posted.
Proof. solve_decision. Defined.

(** Calls on [work_deduplicator_]. *)
Inductive DeduplicatorCall : Type :=
| CallOnWorkRequested
| CallOnDelayedWorkRequested
| CallOnWorkStarted
| CallWillCheckForMoreWork
| CallDidCheckForMoreWork (next_task : NextTask).

Inductive ObserverCall : Type :=
| ObserverOnBeginNestedRunLoop
| ObserverOnExitNestedRunLoop.

Section Controller.

Context {Src : Type} `{SequencedTaskSource Src}.

(** Members of [ThreadControllerImpl], and the calls it made on its
    collaborators. *)
Record Controller : Type := {
  work_deduplicator_ : State;
  next_delayed_do_work : TimeTicks;
  cancelable_delayed_do_work_closure_ : CancelableClosure;
  work_batch_size_ : Z;                          (* int *)
  run_level_tracker : list RunLevelState;
  sequence_ : option Src;
  nesting_observer_ : bool;                      (* whether one is set *)
  weak_ptr_valid : bool;
  posted : list Posted;
  deduplicator_calls : list DeduplicatorCall;
  tasks_run : list Task;
  observer_calls : list ObserverCall
}.

Definition set_deduplicator (call : DeduplicatorCall) (st : State)
    (c : Controller) : Controller :=
  {| work_deduplicator_ := st;
     next_delayed_do_work := next_delayed_do_work c;
     cancelable_delayed_do_work_closure_ :=
       cancelable_delayed_do_work_closure_ c;
     work_batch_size_ := work_batch_size_ c;
     run_level_tracker := run_level_tracker c;
     sequence_ := sequence_ c;
     nesting_observer_ := nesting_observer_ c;
     weak_ptr_valid := weak_ptr_valid c;
     posted := posted c;
     deduplicator_calls := deduplicator_calls c ++ [call];
     tasks_run := tasks_run c;
     observer_calls := observer_calls c |}.

Definition set_next_delayed_do_work (t : TimeTicks) (c : Controller)
    : Controller :=
  {| work_deduplicator_ := work_deduplicator_ c;
     next_delayed_do_work := t;
     cancelable_delayed_do_work_closure_ :=
       cancelable_delayed_do_work_closure_ c;
     work_batch_size_ := work_batch_size_ c;
     run_level_tracker := run_level_tracker c;
     sequence_ := sequence_ c;
     nesting_observer_ := nesting_observer_ c;
     weak_ptr_valid := weak_ptr_valid c;
     posted := posted c;
     deduplicator_calls := deduplicator_calls c;
     tasks_run := tasks_run c;
     observer_calls := observer_calls c |}.

Definition set_cancelable (f : CancelableClosure -> CancelableClosure)
    (c : Controller) : Controller :=
  {| work_deduplicator_ := work_deduplicator_ c;
     next_delayed_do_work := next_delayed_do_work c;
     cancelable_delayed_do_work_closure_ :=
       f (cancelable_delayed_do_work_closure_ c);
     work_batch_size_ := work_batch_size_ c;
     run_level_tracker := run_level_tracker c;
     sequence_ := sequence_ c;
     nesting_observer_ := nesting_observer_ c;
     weak_ptr_valid := weak_ptr_valid c;
     posted := posted c;
     deduplicator_calls := deduplicator_calls c;
     tasks_run := tasks_run c;
     observer_calls := observer_calls c |}.

Definition set_work_batch_size (n : Z) (c : Controller) : Controller :=
  {| work_deduplicator_ := work_deduplicator_ c;
     next_delayed_do_work := next_delayed_do_work c;
     cancelable_delayed_do_work_closure_ :=
       cancelable_delayed_do_work_closure_ c;
     work_batch_size_ := n;
     run_level_tracker := run_level_tracker c;
     sequence_ := sequence_ c;
     nesting_observer_ := nesting_observer_ c;
     weak_ptr_valid := weak_ptr_valid c;
     posted := posted c;
     deduplicator_calls := deduplicator_calls c;
     tasks_run := tasks_run c;
     observer_calls := observer_calls c |}.

Definition set_run_levels
    (f : list RunLevelState -> list RunLevelState) (c : Controller)
    : Controller :=
  {| work_deduplicator_ := work_deduplicator_ c;
     next_delayed_do_work := next_delayed_do_work c;
     cancelable_delayed_do_work_closure_ :=
       cancelable_delayed_do_work_closure_ c;
     work_batch_size_ := work_batch_size_ c;
     run_level_tracker := f (run_level_tracker c);
     sequence_ := sequence_ c;
     nesting_observer_ := nesting_observer_ c;
     weak_ptr_valid := weak_ptr_valid c;
     posted := posted c;
     deduplicator_calls := deduplicator_calls c;
     tasks_run := tasks_run c;
     observer_calls := observer_calls c |}.

Definition set_sequence (src : option Src) (c : Controller) : Controller :=
  {| work_deduplicator_ := work_deduplicator_ c;
     next_delayed_do_work := next_delayed_do_work c;
     cancelable_delayed_do_work_closure_ :=
       cancelable_delayed_do_work_closure_ c;
     work_batch_size_ := work_batch_size_ c;
     run_level_tracker := run_level_tracker c;
     sequence_ := src;
     nesting_observer_ := nesting_observer_ c;
     weak_ptr_valid := weak_ptr_valid c;
     posted := posted c;
     deduplicator_calls := deduplicator_calls c;
     tasks_run := tasks_run c;
     observer_calls := observer_calls c |}.

Definition set_nesting_observer (b : bool) (c : Controller) : Controller :=
  {| work_deduplicator_ := work_deduplicator_ c;
     next_delayed_do_work := next_delayed_do_work c;
     cancelable_delayed_do_work_closure_ :=
       cancelable_delayed_do_work_closure_ c;
     work_batch_size_ := work_batch_size_ c;
     run_level_tracker := run_level_tracker c;
     sequence_ := sequence_ c;
     nesting_observer_ := b;
     weak_ptr_valid := weak_ptr_valid c;
     posted := posted c;
     deduplicator_calls := deduplicator_calls c;
     tasks_run := tasks_run c;
     observer_calls := observer_calls c |}.

Definition set_weak_ptr_valid (b : bool) (c : Controller) : Controller :=
  {| work_deduplicator_ := work_deduplicator_ c;
     next_delayed_do_work := next_delayed_do_work c;
     cancelable_delayed_do_work_closure_ :=
       cancelable_delayed_do_work_closure_ c;
     work_batch_size_ := work_batch_size_ c;
     run_level_tracker := run_level_tracker c;
     sequence_ := sequence_ c;
     nesting_observer_ := nesting_observer_ c;
     weak_ptr_valid := b;
     posted := posted c;
     deduplicator_calls := deduplicator_calls c;
     tasks_run := tasks_run c;
     observer_calls := observer_calls c |}.

Definition post (p : Posted) (c : Controller) : Controller :=
  {| work_deduplicator_ := work_deduplicator_ c;
     next_delayed_do_work := next_delayed_do_work c;
     cancelable_delayed_do_work_closure_ :=
       cancelable_delayed_do_work_closure_ c;
     work_batch_size_ := work_batch_size_ c;
     run_level_tracker := run_level_tracker c;
     sequence_ := sequence_ c;
     nesting_observer_ := nesting_observer_ c;
     weak_ptr_valid := weak_ptr_valid c;
     posted := posted c ++ [p];
     deduplicator_calls := deduplicator_calls c;
     tasks_run := tasks_run c;
     observer_calls := observer_calls c |}.

Definition record_task (t : Task) (c : Controller) : Controller :=
  {| work_deduplicator_ := work_deduplicator_ c;
     next_delayed_do_work := next_delayed_do_work c;
     cancelable_delayed_do_work_closure_ :=
       cancelable_delayed_do_work_closure_ c;
     work_batch_size_ := work_batch_size_ c;
     run_level_tracker := run_level_tracker c;
     sequence_ := sequence_ c;
     nesting_observer_ := nesting_observer_ c;
     weak_ptr_valid := weak_ptr_valid c;
     posted := posted c;
     deduplicator_calls := deduplicator_calls c;
     tasks_run := tasks_run c ++ [t];
     observer_calls := observer_calls c |}.

Definition notify_observer (o : ObserverCall) (c : Controller)
    : Controller :=
  {| work_deduplicator_ := work_deduplicator_ c;
     next_delayed_do_work := next_delayed_do_work c;
     cancelable_delayed_do_work_closure_ :=
       cancelable_delayed_do_work_closure_ c;
     work_batch_size_ := work_batch_size_ c;
     run_level_tracker := run_level_tracker c;
     sequence_ := sequence_ c;
     nesting_observer_ := nesting_observer_ c;
     weak_ptr_valid := weak_ptr_valid c;
     posted := posted c;
     deduplicator_calls := deduplicator_calls c;
     tasks_run := tasks_run c;
     observer_calls := observer_calls c ++ [o] |}.

Local Open Scope monad_scope.

Inductive WorkType : Type :=
| kImmediate
| kDelayed.

(** The controller as its constructor leaves it: the deduplicator bound to
    the thread, one run level, a batch of one task. *)
Definition initial_controller : Controller :=
  {| work_deduplicator_ := Idle;
     next_delayed_do_work := TimeTicks_Max;
     cancelable_delayed_do_work_closure_ :=
       {| generation := 0; is_cancelled := true |};
     work_batch_size_ := 1;
     run_level_tracker := [kIdle];
     sequence_ := None;
     nesting_observer_ := false;
     weak_ptr_valid := true;
     posted := [];
     deduplicator_calls := [];
     tasks_run := [];
     observer_calls := [] |}.

(** *** Calls on the members *)

Definition deduplicator_OnWorkRequested : M Controller ShouldScheduleWork :=
  fun c =>
    let '(answer, st) := OnWorkRequested (work_deduplicator_ c) in
    Ok (answer, set_deduplicator CallOnWorkRequested st c).

Definition deduplicator_OnDelayedWorkRequested
    : M Controller ShouldScheduleWork :=
  fun c =>
    Ok (OnDelayedWorkRequested (work_deduplicator_ c),
        set_deduplicator CallOnDelayedWorkRequested (work_deduplicator_ c) c).

Definition deduplicator_OnWorkStarted : M Controller unit :=
  modify (fun c => set_deduplicator CallOnWorkStarted
                     (OnWorkStarted (work_deduplicator_ c)) c).

Definition deduplicator_WillCheckForMoreWork : M Controller unit :=
  modify (fun c => set_deduplicator CallWillCheckForMoreWork
                     (WillCheckForMoreWork (work_deduplicator_ c)) c).

Definition deduplicator_DidCheckForMoreWork (next_task : NextTask)
    : M Controller ShouldScheduleWork :=
  fun c =>
    let '(answer, st) :=
      DidCheckForMoreWork next_task (work_deduplicator_ c) in
    Ok (answer, set_deduplicator (CallDidCheckForMoreWork next_task) st c).

Definition PostTask_immediate : M Controller unit :=
  modify (post PostTask_immediate_do_work).

(** [PostDelayedTask] of [cancelable_delayed_do_work_closure_.callback()]. *)
Definition PostDelayedTask_cancelable (delay : Z) : M Controller unit :=
  modify (fun c =>
    post (PostDelayedTask_delayed_do_work
            (generation (cancelable_delayed_do_work_closure_ c)) delay) c).

Definition has_sequence (c : Controller) : bool :=
  match sequence_ c with Some _ => true | None => false end.

(** A call through the pointer [sequence_]. *)
Definition on_sequence {A} (f : Src -> A * Src) : M Controller A :=
  fun c => match sequence_ c with
           | Some src => let '(a, src') := f src in
                         Ok (a, set_sequence (Some src') c)
           | None => Abort Undefined
           end.

Definition set_top (x : RunLevelState) (levels : list RunLevelState)
    : list RunLevelState :=
  match levels with
  | [] => []
  | _ :: rest => x :: rest
  end.

Definition OnRunLoopStarted (x : RunLevelState) : M Controller unit :=
  modify (set_run_levels (cons x)).
Definition OnRunLoopEnded : M Controller unit :=
  modify (set_run_levels (@tail _)).
Definition OnTaskStarted : M Controller unit :=
  modify (set_run_levels (set_top kRunningTask)).
Definition OnTaskEnded : M Controller unit :=
  modify (set_run_levels (set_top kSelectingNextTask)).
Definition OnIdle : M Controller unit :=
  modify (set_run_levels (set_top kIdle)).
Definition num_run_levels (c : Controller) : nat :=
  length (run_level_tracker c).

(** *** The member functions *)

(** [ThreadControllerImpl::SetSequencedTaskSource] *)
Definition SetSequencedTaskSource (sequence : option Src)
    : M Controller unit :=
  DCHECK (bool_decide (is_Some sequence)) >>
  let* bound := gets has_sequence in
  DCHECK (negb bound) >>
  modify (set_sequence sequence).

(** [ThreadControllerImpl::ScheduleWork] *)
Definition ScheduleWork : M Controller unit :=
  let* answer := deduplicator_OnWorkRequested in
  match answer with
  | kScheduleImmediate => PostTask_immediate
  | kNotNeeded => ret tt
  end.

(** [ThreadControllerImpl::SetNextDelayedDoWork]; [lazy_now] is what
    [lazy_now->Now()] reads. *)
Definition SetNextDelayedDoWork (lazy_now : TimeTicks) (run_time : TimeTicks)
    : M Controller unit :=
  let* bound := gets has_sequence in
  DCHECK bound >>
  let* next := gets next_delayed_do_work in
  if next =? run_time then ret tt
  else if run_time =? TimeTicks_Max
  then
    modify (set_cancelable Cancel) >>
    modify (set_next_delayed_do_work TimeTicks_Max)
  else
    let* answer := deduplicator_OnDelayedWorkRequested in
    match answer with
    | kNotNeeded => ret tt
    | kScheduleImmediate =>
        let delay := Z.max 0 (run_time - lazy_now) in
        modify (set_next_delayed_do_work run_time) >>
        modify (set_cancelable Reset) >>
        PostDelayedTask_cancelable delay
    end.

(** [task_annotator_.RunTask]: the task runs, to completion. *)
Definition RunTask (task : Task) : M Controller unit :=
  modify (record_task task) >>
  (if task_requests_work task then ScheduleWork else ret tt) >>
  if task_deletes_controller task
  then modify (set_weak_ptr_valid false)
  else ret tt.

(** The [for] loop of [DoWork], for [n] more rounds.  The result tells
    whether the controller is still there: [false] stands for the [return]
    taken when the weak pointer has been invalidated.  No task of the model
    calls [SetWorkBatchSize], so the bound read at each round is the one
    read at the first. *)
Fixpoint DoWork_batch (n : nat) : M Controller bool :=
  match n with
  | O => ret true
  | S n' =>
      let* selected_task := on_sequence SelectNextTask in
      match selected_task with
      | None => ret true
      | Some task =>
          let* levels := gets num_run_levels in
          DCHECK (0 <? levels)%nat >>
          OnTaskStarted >>
          RunTask task >>
          let* valid := gets weak_ptr_valid in
          if negb valid then ret false
          else
            on_sequence (fun src => (tt, DidRunTask src)) >>
            OnTaskEnded >>
            let* levels := gets num_run_levels in
            if (1 <? levels)%nat then ret true
            else DoWork_batch n'
      end
  end.

(** The part of [DoWork] that follows the loop: the check for more work
    and the posting of a continuation. *)
Definition DoWork_continuation (time_now : TimeTicks) : M Controller unit :=
  deduplicator_WillCheckForMoreWork >>
  on_sequence
    (fun src => (tt, RemoveAllCanceledDelayedTasksFromFront time_now src)) >>
  let* next_task_time :=
    on_sequence (fun src => (GetNextTaskTime time_now src, src)) in
  let* immediate :=
    (if next_task_time =? TimeTicks_null then ret true
     else on_sequence OnSystemIdle) in
  if immediate
  then
    let* answer := deduplicator_DidCheckForMoreWork kIsImmediate in
    match answer with
    | kScheduleImmediate => PostTask_immediate
    | kNotNeeded => ret tt
    end
  else
    let* answer := deduplicator_DidCheckForMoreWork kIsDelayed in
    match answer with
    | kScheduleImmediate => PostTask_immediate
    | kNotNeeded =>
        OnIdle >>
        if next_task_time =? TimeTicks_Max
        then
          modify (set_next_delayed_do_work TimeTicks_Max) >>
          modify (set_cancelable Cancel)
        else
          let* next := gets next_delayed_do_work in
          if next_task_time =? next then ret tt
          else
            modify (set_next_delayed_do_work next_task_time) >>
            modify (set_cancelable Reset) >>
            PostDelayedTask_cancelable (next_task_time - time_now)
    end.

(** [ThreadControllerImpl::DoWork]; [time_now] is what the [LazyNow] built
    from [time_source_] reads. *)
Definition DoWork (work_type : WorkType) (time_now : TimeTicks)
    : M Controller unit :=
  let* bound := gets has_sequence in
  DCHECK bound >>
  deduplicator_OnWorkStarted >>
  let* batch := gets work_batch_size_ in
  let* valid := DoWork_batch (Z.to_nat batch) in
  if negb valid then ret tt
  else DoWork_continuation time_now.

(** [ThreadControllerImpl::AddNestingObserver] *)
Definition AddNestingObserver : M Controller unit :=
  modify (set_nesting_observer true).

(** [ThreadControllerImpl::RemoveNestingObserver] *)
Definition RemoveNestingObserver : M Controller unit :=
  let* observer := gets nesting_observer_ in
  DCHECK observer >>
  modify (set_nesting_observer false).

(** [ThreadControllerImpl::OnBeginNestedRunLoop] *)
Definition OnBeginNestedRunLoop : M Controller unit :=
  OnRunLoopStarted kSelectingNextTask >>
  let* _answer := deduplicator_OnWorkRequested in
  PostTask_immediate >>
  let* observer := gets nesting_observer_ in
  if observer then modify (notify_observer ObserverOnBeginNestedRunLoop)
  else ret tt.

(** [ThreadControllerImpl::OnExitNestedRunLoop] *)
Definition OnExitNestedRunLoop : M Controller unit :=
  let* observer := gets nesting_observer_ in
  (if observer then modify (notify_observer ObserverOnExitNestedRunLoop)
   else ret tt) >>
  OnRunLoopEnded.

(** [ThreadControllerImpl::SetWorkBatchSize] *)
Definition SetWorkBatchSize (work_batch_size : Z) : M Controller unit :=
  modify (set_work_batch_size work_batch_size).

(** *** The steps of the member functions, as changes of the controller *)

(** What [ScheduleWork] leaves. *)
Definition ScheduleWork_spec (c : Controller) : Controller :=
  let '(answer, st) := OnWorkRequested (work_deduplicator_ c) in
  let c' := set_deduplicator CallOnWorkRequested st c in
  match answer with
  | kScheduleImmediate => post PostTask_immediate_do_work c'
  | kNotNeeded => c'
  end.

(** What running a task leaves. *)
Definition RunTask_spec (task : Task) (c : Controller) : Controller :=
  let c1 := record_task task c in
  let c2 := if task_requests_work task then ScheduleWork_spec c1 else c1 in
  if task_deletes_controller task then set_weak_ptr_valid false c2 else c2.

(** The immediate [DoWork] tasks posted so far. *)
Definition immediate_posts (c : Controller) : nat :=
  length (filter (fun p => p = PostTask_immediate_do_work) (posted c)).

(** *** What the task source hands out *)

(** The tasks that [n] calls of [SelectNextTask], each followed by
    [DidRunTask], hand out before the first call that returns no task. *)
Fixpoint handed_out (n : nat) (src : Src) : list Task :=
  match n with
  | O => []
  | S n' =>
      match SelectNextTask src with
      | (None, _) => []
      | (Some task, src') => task :: handed_out n' (DidRunTask src')
      end
  end.

(** *** Sequences of calls *)

(** The calls made on the controller, on its thread: by the sequence
    manager, by the run loop, and by the task runner when a posted [DoWork]
    becomes due. *)
Inductive Call : Type :=
| CallScheduleWork
| CallSetNextDelayedDoWork (lazy_now run_time : TimeTicks)
| CallDoWork (work_type : WorkType) (time_now : TimeTicks)
| CallOnBeginNestedRunLoop
| CallOnExitNestedRunLoop
| CallSetWorkBatchSize (work_batch_size : Z)
| CallAddNestingObserver
| CallRemoveNestingObserver.

Definition run_call (call : Call) : M Controller unit :=
  match call with
  | CallScheduleWork => ScheduleWork
  | CallSetNextDelayedDoWork lazy_now run_time =>
      SetNextDelayedDoWork lazy_now run_time
  | CallDoWork work_type time_now => DoWork work_type time_now
  | CallOnBeginNestedRunLoop => OnBeginNestedRunLoop
  | CallOnExitNestedRunLoop => OnExitNestedRunLoop
  | CallSetWorkBatchSize work_batch_size => SetWorkBatchSize work_batch_size
  | CallAddNestingObserver => AddNestingObserver
  | CallRemoveNestingObserver => RemoveNestingObserver
  end.

Fixpoint run_calls (calls : list Call) : M Controller unit :=
  match calls with
  | [] => ret tt
  | call :: calls' => run_call call >> run_calls calls'
  end.

(** *** The delayed [DoWork] *)

(** The closure that a posted task carries: the generation of the
    cancelable closure, for a delayed [DoWork]. *)
Definition closure_of (p : Posted) : option nat :=
  match p with
  | PostTask_immediate_do_work => None
  | PostDelayedTask_delayed_do_work closure _ => Some closure
  end.

(** The closures of the delayed [DoWork] tasks posted so far, in order. *)
Definition delayed_closures (c : Controller) : list nat :=
  omap closure_of (posted c).

(** What the bookkeeping of the delayed [DoWork] reads and writes. *)
Definition delayed_view (c : Controller)
    : TimeTicks * CancelableClosure * list nat :=
  (next_delayed_do_work c, cancelable_delayed_do_work_closure_ c,
   delayed_closures c).

(** The bookkeeping of the delayed [DoWork]: no time is recorded exactly
    when the closure is cancelled; no posted task carries a closure newer
    than the current one, at most one carries the current one, and it is
    the task posted last while a time is recorded. *)
Definition delayed_do_work_inv (c : Controller) : Prop :=
  let current := generation (cancelable_delayed_do_work_closure_ c) in
  (next_delayed_do_work c = TimeTicks_Max
   <-> is_cancelled (cancelable_delayed_do_work_closure_ c) = true)
  /\ Forall (fun closure => (closure <= current)%nat) (delayed_closures c)
  /\ (length (filter (fun closure => closure = current) (delayed_closures c))
      <= 1)%nat
  /\ (next_delayed_do_work c <> TimeTicks_Max ->
      last (delayed_closures c) = Some current).

(** What the run loop and its observer see of the controller, below the
    innermost run level. *)
Definition loop_view (c : Controller)
    : list RunLevelState * nat * bool * list ObserverCall :=
  (tail (run_level_tracker c), length (run_level_tracker c),
   nesting_observer_ c, observer_calls c).

End Controller.

Arguments Controller Src : clear implicits.

(** *** A task source for examples *)

(** A source that hands out the tasks of a list, then reports the time of
    its next delayed task. *)
Record FakeTaskSource : Type := {
  ready_tasks : list Task;
  next_delayed_task : TimeTicks
}.

#[export] Instance FakeTaskSource_source : SequencedTaskSource FakeTaskSource :=
  {| SelectNextTask src :=
       match ready_tasks src with
       | [] => (None, src)
       | t :: rest =>
           (Some t, {| ready_tasks := rest;
                       next_delayed_task := next_delayed_task src |})
       end;
     DidRunTask src := src;
     RemoveAllCanceledDelayedTasksFromFront _ src := src;
     GetNextTaskTime _ src :=
       match ready_tasks src with
       | [] => next_delayed_task src
       | _ :: _ => TimeTicks_null
       end;
     OnSystemIdle src := (false, src) |}.

Definition plain_task (n : nat) : Task :=
  {| task_id := n;
     task_requests_work := false;
     task_deletes_controller := false |}.

Definition fake_source (n : nat) : FakeTaskSource :=
  {| ready_tasks := map plain_task (seq 0 n);
     next_delayed_task := TimeTicks_Max |}.

(** A controller bound to a source of [n] ready tasks. *)
Definition sample_controller (n : nat) : Controller FakeTaskSource :=
  set_sequence (Some (fake_source n)) initial_controller.

End ThreadController.

(** * Theorems *)

(** ** The monad *)

Module MonadFacts.

Section Inversion.
Context {S A B : Type}.

Lemma bind_Ok_inv (c : M S A) (k : A -> M S B) s b s' :
  bind c k s = Ok (b, s') ->
  exists a s1, c s = Ok (a, s1) /\ k a s1 = Ok (b, s').
Proof.
  unfold bind. destruct (c s) as [[a s1]|f]; [eauto | discriminate].
Qed.

Lemma bind_Ok (c : M S A) (k : A -> M S B) s a s1 :
  c s = Ok (a, s1) -> bind c k s = k a s1.
Proof. unfold bind. intros ->. reflexivity. Qed.

Lemma bind_Abort (c : M S A) (k : A -> M S B) s f :
  c s = Abort f -> bind c k s = Abort f.
Proof. unfold bind. intros ->. reflexivity. Qed.

Lemma bind_gets (f : S -> A) (k : A -> M S B) s :
  bind (gets f) k s = k (f s) s.
Proof. reflexivity. Qed.

Lemma bind_modify (f : S -> S) (k : unit -> M S B) s :
  bind (modify f) k s = k tt (f s).
Proof. reflexivity. Qed.

Lemma bind_ret (a : A) (k : A -> M S B) s : bind (ret a) k s = k a s.
Proof. reflexivity. Qed.

Lemma bind_DCHECK (k : unit -> M S B) s : bind (DCHECK true) k s = k tt s.
Proof. reflexivity. Qed.

Lemma bind_CHECK (k : unit -> M S B) s : bind (CHECK true) k s = k tt s.
Proof. reflexivity. Qed.

Lemma bind_assoc {C} (c : M S A) (k1 : A -> M S B) (k2 : B -> M S C) s :
  bind (bind c k1) k2 s = bind c (fun a => bind (k1 a) k2) s.
Proof. unfold bind. by destruct (c s) as [[a s1]|f]. Qed.

Lemma ret_inv (a a' : A) (s s' : S) : ret a s = Ok (a', s') -> a' = a /\ s' = s.
Proof. unfold ret. by intros [= <- <-]. Qed.

Lemma gets_inv (f : S -> A) s a s' : gets f s = Ok (a, s') -> a = f s /\ s' = s.
Proof. unfold gets. by intros [= <- <-]. Qed.

Lemma modify_inv (f : S -> S) s u s' : modify f s = Ok (u, s') -> s' = f s.
Proof. unfold modify. by intros [= <-]. Qed.

Lemma DCHECK_inv (b : bool) (s : S) u s' :
  DCHECK b s = Ok (u, s') -> b = true /\ s' = s.
Proof. destruct b; cbn; [intros [= <-]; auto | discriminate]. Qed.

Lemma CHECK_inv (b : bool) (s : S) u s' :
  CHECK b s = Ok (u, s') -> b = true /\ s' = s.
Proof. destruct b; cbn; [intros [= <-]; auto | discriminate]. Qed.

End Inversion.

Ltac minv H :=
  cbv beta in H;
  lazymatch type of H with
  | bind _ _ _ = Ok _ =>
      let a := fresh "a" in
      let s := fresh "s" in
      let H1 := fresh "H" in
      apply bind_Ok_inv in H as (a & s & H1 & H); minv H1; minv H
  | ret _ _ = Ok _ => apply ret_inv in H as [? ?]; subst
  | gets _ _ = Ok _ => apply gets_inv in H as [? ?]; subst
  | modify _ _ = Ok _ => apply modify_inv in H; subst
  | DCHECK _ _ = Ok _ =>
      let Hs := fresh "H" in apply DCHECK_inv in H as [H Hs]; subst
  | CHECK _ _ = Ok _ =>
      let Hs := fresh "H" in apply CHECK_inv in H as [H Hs]; subst
  | abort _ _ = Ok _ => discriminate H
  | Abort _ = Ok _ => discriminate H
  | _ => idtac
  end.

End MonadFacts.

(** ** The worker pool *)

Module WorkerPoolFacts.
Import WorkerPool MonadFacts.

Section Facts.
Variable thread_starts : Worker -> bool.


(** *** List facts *)

Lemma ContainsWorker_elem (ws : list Worker) w :
  ContainsWorker ws w = true <-> w ∈ ws.
Proof.
  unfold ContainsWorker. rewrite existsb_exists. split.
  - intros (x & Hin & Heq). apply Nat.eqb_eq in Heq. subst.
    by apply list_elem_of_In.
  - intros Hin. exists w. split; [by apply list_elem_of_In | apply Nat.eqb_refl].
Qed.

Lemma Contains_elem w (st : SchedulerWorkerStack.t) :
  SchedulerWorkerStack.Contains w st = true <-> w ∈ st.
Proof. unfold SchedulerWorkerStack.Contains. apply bool_decide_eq_true. Qed.

Lemma Contains_not_elem w (st : SchedulerWorkerStack.t) :
  SchedulerWorkerStack.Contains w st = false <-> w ∉ st.
Proof. unfold SchedulerWorkerStack.Contains. apply bool_decide_eq_false. Qed.

Lemma erase_first_elem w x (ws : list Worker) :
  x ∈ erase_first w ws -> x ∈ ws.
Proof.
  induction ws as [|y ws IH]; cbn; [done|].
  rewrite elem_of_cons.
  destruct (Nat.eqb_spec y w); [by right|].
  rewrite elem_of_cons. intros [->|Hx]; auto.
Qed.

Lemma erase_first_other w x (ws : list Worker) :
  x ≠ w -> x ∈ ws -> x ∈ erase_first w ws.
Proof.
  intros Hne. induction ws as [|y ws IH]; cbn; [done|].
  rewrite elem_of_cons. intros [->|Hx].
  - destruct (Nat.eqb_spec y w); [congruence | apply elem_of_cons; by left].
  - destruct (Nat.eqb_spec y w); [done | apply elem_of_cons; auto].
Qed.

Lemma erase_first_length w (ws : list Worker) :
  (length (erase_first w ws) <= length ws)%nat.
Proof.
  induction ws as [|y ws IH]; cbn; [lia|].
  destruct (Nat.eqb y w); cbn; lia.
Qed.

Lemma erase_first_length_elem w (ws : list Worker) :
  w ∈ ws -> S (length (erase_first w ws)) = length ws.
Proof.
  induction ws as [|y ws IH]; cbn; [by intros ?%elem_of_nil|].
  intros Hx. destruct (Nat.eqb_spec y w); [done|].
  apply elem_of_cons in Hx as [->|Hx]; [done|]. cbn. by rewrite IH.
Qed.

Lemma erase_first_NoDup w (ws : list Worker) :
  NoDup ws -> NoDup (erase_first w ws).
Proof.
  induction 1 as [|y ws Hy Hnd IH]; cbn; [constructor|].
  destruct (Nat.eqb y w); [done|].
  constructor; [|done]. intros ?%erase_first_elem. done.
Qed.

Lemma erase_first_not_elem w (ws : list Worker) :
  NoDup ws -> w ∉ erase_first w ws.
Proof.
  induction 1 as [|y ws Hy Hnd IH]; cbn; [apply not_elem_of_nil|].
  destruct (Nat.eqb_spec y w) as [->|Hne]; [done|].
  intros [?|?]%elem_of_cons; [congruence | done].
Qed.

Lemma Remove_erase_first w (st : list Worker) :
  SchedulerWorkerStack.Remove w st = erase_first w st.
Proof. induction st as [|y st IH]; cbn; [done|]. by rewrite IH. Qed.

Lemma NoDup_subset_length (l k : list Worker) :
  NoDup l -> (forall x, x ∈ l -> x ∈ k) -> (length l <= length k)%nat.
Proof. intros Hnd Hsub. apply submseteq_length, NoDup_submseteq; done. Qed.


(** *** Members of updated states *)

Lemma workers_set_workers f s : workers_ (set_workers f s) = f (workers_ s).
Proof. reflexivity. Qed.
Lemma idle_workers_stack_set_workers f s : idle_workers_stack_ (set_workers f s) = idle_workers_stack_ s.
Proof. reflexivity. Qed.
Lemma worker_capacity_set_workers f s : worker_capacity_ (set_workers f s) = worker_capacity_ s.
Proof. reflexivity. Qed.
Lemma num_wake_ups_before_start_set_workers f s : num_wake_ups_before_start_ (set_workers f s) = num_wake_ups_before_start_ s.
Proof. reflexivity. Qed.
Lemma shared_priority_queue_set_workers f s : shared_priority_queue_ (set_workers f s) = shared_priority_queue_ s.
Proof. reflexivity. Qed.
Lemma worker_cleanup_disallowed_set_workers f s : worker_cleanup_disallowed_ (set_workers f s) = worker_cleanup_disallowed_ s.
Proof. reflexivity. Qed.
Lemma cleanup_timestamps_set_workers f s : cleanup_timestamps_ (set_workers f s) = cleanup_timestamps_ s.
Proof. reflexivity. Qed.
Lemma delegates_set_workers f s : delegates (set_workers f s) = delegates s.
Proof. reflexivity. Qed.
Lemma next_worker_set_workers f s : next_worker (set_workers f s) = next_worker s.
Proof. reflexivity. Qed.
Lemma now_set_workers f s : now (set_workers f s) = now s.
Proof. reflexivity. Qed.
Lemma trace_set_workers f s : trace (set_workers f s) = trace s.
Proof. reflexivity. Qed.
Lemma workers_set_idle f s : workers_ (set_idle f s) = workers_ s.
Proof. reflexivity. Qed.
Lemma idle_workers_stack_set_idle f s : idle_workers_stack_ (set_idle f s) = f (idle_workers_stack_ s).
Proof. reflexivity. Qed.
Lemma worker_capacity_set_idle f s : worker_capacity_ (set_idle f s) = worker_capacity_ s.
Proof. reflexivity. Qed.
Lemma num_wake_ups_before_start_set_idle f s : num_wake_ups_before_start_ (set_idle f s) = num_wake_ups_before_start_ s.
Proof. reflexivity. Qed.
Lemma shared_priority_queue_set_idle f s : shared_priority_queue_ (set_idle f s) = shared_priority_queue_ s.
Proof. reflexivity. Qed.
Lemma worker_cleanup_disallowed_set_idle f s : worker_cleanup_disallowed_ (set_idle f s) = worker_cleanup_disallowed_ s.
Proof. reflexivity. Qed.
Lemma cleanup_timestamps_set_idle f s : cleanup_timestamps_ (set_idle f s) = cleanup_timestamps_ s.
Proof. reflexivity. Qed.
Lemma delegates_set_idle f s : delegates (set_idle f s) = delegates s.
Proof. reflexivity. Qed.
Lemma next_worker_set_idle f s : next_worker (set_idle f s) = next_worker s.
Proof. reflexivity. Qed.
Lemma now_set_idle f s : now (set_idle f s) = now s.
Proof. reflexivity. Qed.
Lemma trace_set_idle f s : trace (set_idle f s) = trace s.
Proof. reflexivity. Qed.
Lemma workers_set_num_wake_ups f s : workers_ (set_num_wake_ups f s) = workers_ s.
Proof. reflexivity. Qed.
Lemma idle_workers_stack_set_num_wake_ups f s : idle_workers_stack_ (set_num_wake_ups f s) = idle_workers_stack_ s.
Proof. reflexivity. Qed.
Lemma worker_capacity_set_num_wake_ups f s : worker_capacity_ (set_num_wake_ups f s) = worker_capacity_ s.
Proof. reflexivity. Qed.
Lemma num_wake_ups_before_start_set_num_wake_ups f s : num_wake_ups_before_start_ (set_num_wake_ups f s) = f (num_wake_ups_before_start_ s).
Proof. reflexivity. Qed.
Lemma shared_priority_queue_set_num_wake_ups f s : shared_priority_queue_ (set_num_wake_ups f s) = shared_priority_queue_ s.
Proof. reflexivity. Qed.
Lemma worker_cleanup_disallowed_set_num_wake_ups f s : worker_cleanup_disallowed_ (set_num_wake_ups f s) = worker_cleanup_disallowed_ s.
Proof. reflexivity. Qed.
Lemma cleanup_timestamps_set_num_wake_ups f s : cleanup_timestamps_ (set_num_wake_ups f s) = cleanup_timestamps_ s.
Proof. reflexivity. Qed.
Lemma delegates_set_num_wake_ups f s : delegates (set_num_wake_ups f s) = delegates s.
Proof. reflexivity. Qed.
Lemma next_worker_set_num_wake_ups f s : next_worker (set_num_wake_ups f s) = next_worker s.
Proof. reflexivity. Qed.
Lemma now_set_num_wake_ups f s : now (set_num_wake_ups f s) = now s.
Proof. reflexivity. Qed.
Lemma trace_set_num_wake_ups f s : trace (set_num_wake_ups f s) = trace s.
Proof. reflexivity. Qed.
Lemma workers_set_queue f s : workers_ (set_queue f s) = workers_ s.
Proof. reflexivity. Qed.
Lemma idle_workers_stack_set_queue f s : idle_workers_stack_ (set_queue f s) = idle_workers_stack_ s.
Proof. reflexivity. Qed.
Lemma worker_capacity_set_queue f s : worker_capacity_ (set_queue f s) = worker_capacity_ s.
Proof. reflexivity. Qed.
Lemma num_wake_ups_before_start_set_queue f s : num_wake_ups_before_start_ (set_queue f s) = num_wake_ups_before_start_ s.
Proof. reflexivity. Qed.
Lemma shared_priority_queue_set_queue f s : shared_priority_queue_ (set_queue f s) = f (shared_priority_queue_ s).
Proof. reflexivity. Qed.
Lemma worker_cleanup_disallowed_set_queue f s : worker_cleanup_disallowed_ (set_queue f s) = worker_cleanup_disallowed_ s.
Proof. reflexivity. Qed.
Lemma cleanup_timestamps_set_queue f s : cleanup_timestamps_ (set_queue f s) = cleanup_timestamps_ s.
Proof. reflexivity. Qed.
Lemma delegates_set_queue f s : delegates (set_queue f s) = delegates s.
Proof. reflexivity. Qed.
Lemma next_worker_set_queue f s : next_worker (set_queue f s) = next_worker s.
Proof. reflexivity. Qed.
Lemma now_set_queue f s : now (set_queue f s) = now s.
Proof. reflexivity. Qed.
Lemma trace_set_queue f s : trace (set_queue f s) = trace s.
Proof. reflexivity. Qed.
Lemma workers_set_cleanup_disallowed b s : workers_ (set_cleanup_disallowed b s) = workers_ s.
Proof. reflexivity. Qed.
Lemma idle_workers_stack_set_cleanup_disallowed b s : idle_workers_stack_ (set_cleanup_disallowed b s) = idle_workers_stack_ s.
Proof. reflexivity. Qed.
Lemma worker_capacity_set_cleanup_disallowed b s : worker_capacity_ (set_cleanup_disallowed b s) = worker_capacity_ s.
Proof. reflexivity. Qed.
Lemma num_wake_ups_before_start_set_cleanup_disallowed b s : num_wake_ups_before_start_ (set_cleanup_disallowed b s) = num_wake_ups_before_start_ s.
Proof. reflexivity. Qed.
Lemma shared_priority_queue_set_cleanup_disallowed b s : shared_priority_queue_ (set_cleanup_disallowed b s) = shared_priority_queue_ s.
Proof. reflexivity. Qed.
Lemma worker_cleanup_disallowed_set_cleanup_disallowed b s : worker_cleanup_disallowed_ (set_cleanup_disallowed b s) = b.
Proof. reflexivity. Qed.
Lemma cleanup_timestamps_set_cleanup_disallowed b s : cleanup_timestamps_ (set_cleanup_disallowed b s) = cleanup_timestamps_ s.
Proof. reflexivity. Qed.
Lemma delegates_set_cleanup_disallowed b s : delegates (set_cleanup_disallowed b s) = delegates s.
Proof. reflexivity. Qed.
Lemma next_worker_set_cleanup_disallowed b s : next_worker (set_cleanup_disallowed b s) = next_worker s.
Proof. reflexivity. Qed.
Lemma now_set_cleanup_disallowed b s : now (set_cleanup_disallowed b s) = now s.
Proof. reflexivity. Qed.
Lemma trace_set_cleanup_disallowed b s : trace (set_cleanup_disallowed b s) = trace s.
Proof. reflexivity. Qed.
Lemma workers_set_cleanup_timestamps f s : workers_ (set_cleanup_timestamps f s) = workers_ s.
Proof. reflexivity. Qed.
Lemma idle_workers_stack_set_cleanup_timestamps f s : idle_workers_stack_ (set_cleanup_timestamps f s) = idle_workers_stack_ s.
Proof. reflexivity. Qed.
Lemma worker_capacity_set_cleanup_timestamps f s : worker_capacity_ (set_cleanup_timestamps f s) = worker_capacity_ s.
Proof. reflexivity. Qed.
Lemma num_wake_ups_before_start_set_cleanup_timestamps f s : num_wake_ups_before_start_ (set_cleanup_timestamps f s) = num_wake_ups_before_start_ s.
Proof. reflexivity. Qed.
Lemma shared_priority_queue_set_cleanup_timestamps f s : shared_priority_queue_ (set_cleanup_timestamps f s) = shared_priority_queue_ s.
Proof. reflexivity. Qed.
Lemma worker_cleanup_disallowed_set_cleanup_timestamps f s : worker_cleanup_disallowed_ (set_cleanup_timestamps f s) = worker_cleanup_disallowed_ s.
Proof. reflexivity. Qed.
Lemma cleanup_timestamps_set_cleanup_timestamps f s : cleanup_timestamps_ (set_cleanup_timestamps f s) = f (cleanup_timestamps_ s).
Proof. reflexivity. Qed.
Lemma delegates_set_cleanup_timestamps f s : delegates (set_cleanup_timestamps f s) = delegates s.
Proof. reflexivity. Qed.
Lemma next_worker_set_cleanup_timestamps f s : next_worker (set_cleanup_timestamps f s) = next_worker s.
Proof. reflexivity. Qed.
Lemma now_set_cleanup_timestamps f s : now (set_cleanup_timestamps f s) = now s.
Proof. reflexivity. Qed.
Lemma trace_set_cleanup_timestamps f s : trace (set_cleanup_timestamps f s) = trace s.
Proof. reflexivity. Qed.
Lemma workers_set_delegates f s : workers_ (set_delegates f s) = workers_ s.
Proof. reflexivity. Qed.
Lemma idle_workers_stack_set_delegates f s : idle_workers_stack_ (set_delegates f s) = idle_workers_stack_ s.
Proof. reflexivity. Qed.
Lemma worker_capacity_set_delegates f s : worker_capacity_ (set_delegates f s) = worker_capacity_ s.
Proof. reflexivity. Qed.
Lemma num_wake_ups_before_start_set_delegates f s : num_wake_ups_before_start_ (set_delegates f s) = num_wake_ups_before_start_ s.
Proof. reflexivity. Qed.
Lemma shared_priority_queue_set_delegates f s : shared_priority_queue_ (set_delegates f s) = shared_priority_queue_ s.
Proof. reflexivity. Qed.
Lemma worker_cleanup_disallowed_set_delegates f s : worker_cleanup_disallowed_ (set_delegates f s) = worker_cleanup_disallowed_ s.
Proof. reflexivity. Qed.
Lemma cleanup_timestamps_set_delegates f s : cleanup_timestamps_ (set_delegates f s) = cleanup_timestamps_ s.
Proof. reflexivity. Qed.
Lemma delegates_set_delegates f s : delegates (set_delegates f s) = f (delegates s).
Proof. reflexivity. Qed.
Lemma next_worker_set_delegates f s : next_worker (set_delegates f s) = next_worker s.
Proof. reflexivity. Qed.
Lemma now_set_delegates f s : now (set_delegates f s) = now s.
Proof. reflexivity. Qed.
Lemma trace_set_delegates f s : trace (set_delegates f s) = trace s.
Proof. reflexivity. Qed.
Lemma workers_set_next_worker n s : workers_ (set_next_worker n s) = workers_ s.
Proof. reflexivity. Qed.
Lemma idle_workers_stack_set_next_worker n s : idle_workers_stack_ (set_next_worker n s) = idle_workers_stack_ s.
Proof. reflexivity. Qed.
Lemma worker_capacity_set_next_worker n s : worker_capacity_ (set_next_worker n s) = worker_capacity_ s.
Proof. reflexivity. Qed.
Lemma num_wake_ups_before_start_set_next_worker n s : num_wake_ups_before_start_ (set_next_worker n s) = num_wake_ups_before_start_ s.
Proof. reflexivity. Qed.
Lemma shared_priority_queue_set_next_worker n s : shared_priority_queue_ (set_next_worker n s) = shared_priority_queue_ s.
Proof. reflexivity. Qed.
Lemma worker_cleanup_disallowed_set_next_worker n s : worker_cleanup_disallowed_ (set_next_worker n s) = worker_cleanup_disallowed_ s.
Proof. reflexivity. Qed.
Lemma cleanup_timestamps_set_next_worker n s : cleanup_timestamps_ (set_next_worker n s) = cleanup_timestamps_ s.
Proof. reflexivity. Qed.
Lemma delegates_set_next_worker n s : delegates (set_next_worker n s) = delegates s.
Proof. reflexivity. Qed.
Lemma next_worker_set_next_worker n s : next_worker (set_next_worker n s) = n.
Proof. reflexivity. Qed.
Lemma now_set_next_worker n s : now (set_next_worker n s) = now s.
Proof. reflexivity. Qed.
Lemma trace_set_next_worker n s : trace (set_next_worker n s) = trace s.
Proof. reflexivity. Qed.
Lemma workers_set_now t s : workers_ (set_now t s) = workers_ s.
Proof. reflexivity. Qed.
Lemma idle_workers_stack_set_now t s : idle_workers_stack_ (set_now t s) = idle_workers_stack_ s.
Proof. reflexivity. Qed.
Lemma worker_capacity_set_now t s : worker_capacity_ (set_now t s) = worker_capacity_ s.
Proof. reflexivity. Qed.
Lemma num_wake_ups_before_start_set_now t s : num_wake_ups_before_start_ (set_now t s) = num_wake_ups_before_start_ s.
Proof. reflexivity. Qed.
Lemma shared_priority_queue_set_now t s : shared_priority_queue_ (set_now t s) = shared_priority_queue_ s.
Proof. reflexivity. Qed.
Lemma worker_cleanup_disallowed_set_now t s : worker_cleanup_disallowed_ (set_now t s) = worker_cleanup_disallowed_ s.
Proof. reflexivity. Qed.
Lemma cleanup_timestamps_set_now t s : cleanup_timestamps_ (set_now t s) = cleanup_timestamps_ s.
Proof. reflexivity. Qed.
Lemma delegates_set_now t s : delegates (set_now t s) = delegates s.
Proof. reflexivity. Qed.
Lemma next_worker_set_now t s : next_worker (set_now t s) = next_worker s.
Proof. reflexivity. Qed.
Lemma now_set_now t s : now (set_now t s) = t.
Proof. reflexivity. Qed.
Lemma trace_set_now t s : trace (set_now t s) = trace s.
Proof. reflexivity. Qed.
Lemma workers_emit e s : workers_ (emit e s) = workers_ s.
Proof. reflexivity. Qed.
Lemma idle_workers_stack_emit e s : idle_workers_stack_ (emit e s) = idle_workers_stack_ s.
Proof. reflexivity. Qed.
Lemma worker_capacity_emit e s : worker_capacity_ (emit e s) = worker_capacity_ s.
Proof. reflexivity. Qed.
Lemma num_wake_ups_before_start_emit e s : num_wake_ups_before_start_ (emit e s) = num_wake_ups_before_start_ s.
Proof. reflexivity. Qed.
Lemma shared_priority_queue_emit e s : shared_priority_queue_ (emit e s) = shared_priority_queue_ s.
Proof. reflexivity. Qed.
Lemma worker_cleanup_disallowed_emit e s : worker_cleanup_disallowed_ (emit e s) = worker_cleanup_disallowed_ s.
Proof. reflexivity. Qed.
Lemma cleanup_timestamps_emit e s : cleanup_timestamps_ (emit e s) = cleanup_timestamps_ s.
Proof. reflexivity. Qed.
Lemma delegates_emit e s : delegates (emit e s) = delegates s.
Proof. reflexivity. Qed.
Lemma next_worker_emit e s : next_worker (emit e s) = next_worker s.
Proof. reflexivity. Qed.
Lemma now_emit e s : now (emit e s) = now s.
Proof. reflexivity. Qed.
Lemma trace_emit e s : trace (emit e s) = trace s ++ [e].
Proof. reflexivity. Qed.
Lemma workers_set_params p s : workers_ (set_params p s) = workers_ s.
Proof. reflexivity. Qed.
Lemma idle_workers_stack_set_params p s : idle_workers_stack_ (set_params p s) = idle_workers_stack_ s.
Proof. reflexivity. Qed.
Lemma worker_capacity_set_params p s : worker_capacity_ (set_params p s) = to_size_t (max_threads p).
Proof. reflexivity. Qed.
Lemma num_wake_ups_before_start_set_params p s : num_wake_ups_before_start_ (set_params p s) = num_wake_ups_before_start_ s.
Proof. reflexivity. Qed.
Lemma shared_priority_queue_set_params p s : shared_priority_queue_ (set_params p s) = shared_priority_queue_ s.
Proof. reflexivity. Qed.
Lemma worker_cleanup_disallowed_set_params p s : worker_cleanup_disallowed_ (set_params p s) = worker_cleanup_disallowed_ s.
Proof. reflexivity. Qed.
Lemma cleanup_timestamps_set_params p s : cleanup_timestamps_ (set_params p s) = cleanup_timestamps_ s.
Proof. reflexivity. Qed.
Lemma delegates_set_params p s : delegates (set_params p s) = delegates s.
Proof. reflexivity. Qed.
Lemma next_worker_set_params p s : next_worker (set_params p s) = next_worker s.
Proof. reflexivity. Qed.
Lemma now_set_params p s : now (set_params p s) = now s.
Proof. reflexivity. Qed.
Lemma trace_set_params p s : trace (set_params p s) = trace s.
Proof. reflexivity. Qed.


Create Rewrite HintDb pool_fields.
#[local] Hint Rewrite
  workers_set_workers idle_workers_stack_set_workers worker_capacity_set_workers
  num_wake_ups_before_start_set_workers shared_priority_queue_set_workers worker_cleanup_disallowed_set_workers
  cleanup_timestamps_set_workers delegates_set_workers next_worker_set_workers
  now_set_workers trace_set_workers workers_set_idle
  idle_workers_stack_set_idle worker_capacity_set_idle num_wake_ups_before_start_set_idle
  shared_priority_queue_set_idle worker_cleanup_disallowed_set_idle cleanup_timestamps_set_idle
  delegates_set_idle next_worker_set_idle now_set_idle
  trace_set_idle workers_set_num_wake_ups idle_workers_stack_set_num_wake_ups
  worker_capacity_set_num_wake_ups num_wake_ups_before_start_set_num_wake_ups shared_priority_queue_set_num_wake_ups
  worker_cleanup_disallowed_set_num_wake_ups cleanup_timestamps_set_num_wake_ups delegates_set_num_wake_ups
  next_worker_set_num_wake_ups now_set_num_wake_ups trace_set_num_wake_ups
  workers_set_queue idle_workers_stack_set_queue worker_capacity_set_queue
  num_wake_ups_before_start_set_queue shared_priority_queue_set_queue worker_cleanup_disallowed_set_queue
  cleanup_timestamps_set_queue delegates_set_queue next_worker_set_queue
  now_set_queue trace_set_queue workers_set_cleanup_disallowed
  idle_workers_stack_set_cleanup_disallowed worker_capacity_set_cleanup_disallowed num_wake_ups_before_start_set_cleanup_disallowed
  shared_priority_queue_set_cleanup_disallowed worker_cleanup_disallowed_set_cleanup_disallowed cleanup_timestamps_set_cleanup_disallowed
  delegates_set_cleanup_disallowed next_worker_set_cleanup_disallowed now_set_cleanup_disallowed
  trace_set_cleanup_disallowed workers_set_cleanup_timestamps idle_workers_stack_set_cleanup_timestamps
  worker_capacity_set_cleanup_timestamps num_wake_ups_before_start_set_cleanup_timestamps shared_priority_queue_set_cleanup_timestamps
  worker_cleanup_disallowed_set_cleanup_timestamps cleanup_timestamps_set_cleanup_timestamps delegates_set_cleanup_timestamps
  next_worker_set_cleanup_timestamps now_set_cleanup_timestamps trace_set_cleanup_timestamps
  workers_set_delegates idle_workers_stack_set_delegates worker_capacity_set_delegates
  num_wake_ups_before_start_set_delegates shared_priority_queue_set_delegates worker_cleanup_disallowed_set_delegates
  cleanup_timestamps_set_delegates delegates_set_delegates next_worker_set_delegates
  now_set_delegates trace_set_delegates workers_set_next_worker
  idle_workers_stack_set_next_worker worker_capacity_set_next_worker num_wake_ups_before_start_set_next_worker
  shared_priority_queue_set_next_worker worker_cleanup_disallowed_set_next_worker cleanup_timestamps_set_next_worker
  delegates_set_next_worker next_worker_set_next_worker now_set_next_worker
  trace_set_next_worker workers_set_now idle_workers_stack_set_now
  worker_capacity_set_now num_wake_ups_before_start_set_now shared_priority_queue_set_now
  worker_cleanup_disallowed_set_now cleanup_timestamps_set_now delegates_set_now
  next_worker_set_now now_set_now trace_set_now
  workers_emit idle_workers_stack_emit worker_capacity_emit
  num_wake_ups_before_start_emit shared_priority_queue_emit worker_cleanup_disallowed_emit
  cleanup_timestamps_emit delegates_emit next_worker_emit
  now_emit trace_emit workers_set_params
  idle_workers_stack_set_params worker_capacity_set_params num_wake_ups_before_start_set_params
  shared_priority_queue_set_params worker_cleanup_disallowed_set_params cleanup_timestamps_set_params
  delegates_set_params next_worker_set_params now_set_params
  trace_set_params
  : pool_fields.

(** *** The delegate calls *)

Lemma delegate_inv w s d s' :
  delegate w s = Ok (d, s') -> s' = s /\ delegates s !! w = Some d.
Proof.
  unfold delegate. destruct (delegates s !! w); [|discriminate].
  by intros [= <- <-].
Qed.

Lemma delegate_Ok w s d :
  delegates s !! w = Some d -> delegate w s = Ok (d, s).
Proof. unfold delegate. by intros ->. Qed.

Lemma UnsetIsOnIdleWorkersStack_inv w s u s' :
  UnsetIsOnIdleWorkersStack w s = Ok (u, s') ->
  exists d, delegates s !! w = Some d
    /\ is_on_idle_workers_stack_ d = true
    /\ (w ∉ idle_workers_stack_ s)
    /\ s' = set_delegates (insert w (with_is_on_idle_workers_stack false d)) s.
Proof.
  unfold UnsetIsOnIdleWorkersStack, idle_Contains, store_delegate, delegate,
    bind, gets, modify, DCHECK, ret, abort.
  destruct (delegates s !! w) as [d|]; [|discriminate].
  destruct (is_on_idle_workers_stack_ d) eqn:Hflag; [|discriminate].
  cbn. destruct (SchedulerWorkerStack.Contains w _) eqn:Hc; [discriminate|].
  intros [= <-]. exists d. by apply Contains_not_elem in Hc.
Qed.

Lemma UnsetIsOnIdleWorkersStack_Ok w s d :
  delegates s !! w = Some d ->
  is_on_idle_workers_stack_ d = true ->
  w ∉ idle_workers_stack_ s ->
  UnsetIsOnIdleWorkersStack w s
  = Ok (tt, set_delegates (insert w (with_is_on_idle_workers_stack false d)) s).
Proof.
  intros Hd Hflag Hidle. apply Contains_not_elem in Hidle.
  unfold UnsetIsOnIdleWorkersStack, idle_Contains, store_delegate.
  rewrite (bind_Ok _ _ _ _ _ (delegate_Ok _ _ _ Hd)). rewrite Hflag.
  unfold bind, gets, DCHECK, ret, modify. cbn. rewrite Hidle. reflexivity.
Qed.

Lemma SetIsOnIdleWorkersStack_inv w s u s' :
  SetIsOnIdleWorkersStack w s = Ok (u, s') ->
  exists d, delegates s !! w = Some d
    /\ is_on_idle_workers_stack_ d = false
    /\ w ∈ idle_workers_stack_ s
    /\ s' = set_delegates (insert w (with_is_on_idle_workers_stack true d)) s.
Proof.
  unfold SetIsOnIdleWorkersStack, idle_Contains, store_delegate, delegate,
    bind, gets, modify, DCHECK, ret, abort.
  destruct (delegates s !! w) as [d|]; [|discriminate].
  destruct (is_on_idle_workers_stack_ d) eqn:Hflag; [discriminate|].
  cbn. destruct (SchedulerWorkerStack.Contains w _) eqn:Hc; [|discriminate].
  intros [= <-]. exists d. by apply Contains_elem in Hc.
Qed.

Lemma SetIsOnIdleWorkersStack_Ok w s d :
  delegates s !! w = Some d ->
  is_on_idle_workers_stack_ d = false ->
  w ∈ idle_workers_stack_ s ->
  SetIsOnIdleWorkersStack w s
  = Ok (tt, set_delegates (insert w (with_is_on_idle_workers_stack true d)) s).
Proof.
  intros Hd Hflag Hidle. apply Contains_elem in Hidle.
  unfold SetIsOnIdleWorkersStack, idle_Contains, store_delegate.
  rewrite (bind_Ok _ _ _ _ _ (delegate_Ok _ _ _ Hd)). rewrite Hflag.
  unfold bind, gets, DCHECK, ret, modify. cbn. rewrite Hidle. reflexivity.
Qed.

Lemma AssertIsOnIdleWorkersStack_inv w s u s' :
  AssertIsOnIdleWorkersStack w s = Ok (u, s') ->
  s' = s /\ exists d, delegates s !! w = Some d
    /\ is_on_idle_workers_stack_ d = true
    /\ w ∈ idle_workers_stack_ s.
Proof.
  unfold AssertIsOnIdleWorkersStack, idle_Contains, delegate,
    bind, gets, modify, DCHECK, ret, abort.
  destruct (delegates s !! w) as [d|]; [|discriminate].
  destruct (is_on_idle_workers_stack_ d) eqn:Hflag; [|discriminate].
  cbn. destruct (SchedulerWorkerStack.Contains w _) eqn:Hc; [|discriminate].
  intros [= <-]. split; [done|]. exists d. by apply Contains_elem in Hc.
Qed.

Lemma AssertIsOnIdleWorkersStack_Ok w s d :
  delegates s !! w = Some d ->
  is_on_idle_workers_stack_ d = true ->
  w ∈ idle_workers_stack_ s ->
  AssertIsOnIdleWorkersStack w s = Ok (tt, s).
Proof.
  intros Hd Hflag Hidle. apply Contains_elem in Hidle.
  unfold AssertIsOnIdleWorkersStack, idle_Contains.
  rewrite (bind_Ok _ _ _ _ _ (delegate_Ok _ _ _ Hd)). rewrite Hflag.
  unfold bind, gets, DCHECK, ret. cbn. rewrite Hidle. reflexivity.
Qed.

(** *** The idle stack *)

Lemma idle_Push_inv w s u s' :
  idle_Push w s = Ok (u, s') ->
  (w ∉ idle_workers_stack_ s)
  /\ s' = set_idle (fun _ => w :: idle_workers_stack_ s) s.
Proof.
  unfold idle_Push, SchedulerWorkerStack.Push.
  destruct (SchedulerWorkerStack.Contains w _) eqn:Hc; [discriminate|].
  intros [= <-]. split; [by apply Contains_not_elem | done].
Qed.

Lemma idle_Push_Ok w s :
  w ∉ idle_workers_stack_ s ->
  idle_Push w s = Ok (tt, set_idle (fun _ => w :: idle_workers_stack_ s) s).
Proof.
  intros Hc%Contains_not_elem.
  unfold idle_Push, SchedulerWorkerStack.Push. by rewrite Hc.
Qed.

Lemma idle_Pop_eq s :
  idle_Pop s
  = Ok (head (idle_workers_stack_ s),
        set_idle (fun _ => tail (idle_workers_stack_ s)) s).
Proof. unfold idle_Pop. by destruct (idle_workers_stack_ s). Qed.

(** *** Creation of a worker *)

Lemma Create_eq s :
  CreateRegisterAndStartSchedulerWorker thread_starts s
  = if Z.of_nat (length (workers_ s)) <? worker_capacity_ s
    then Ok (spec_create_worker thread_starts s)
    else Abort DCheckFailure.
Proof.
  unfold CreateRegisterAndStartSchedulerWorker, below_capacity,
    spec_create_worker, created, settle_detach_duration, store_delegate.
  unfold bind at 1. unfold gets at 1.
  destruct (Z.of_nat (length (workers_ s)) <? worker_capacity_ s); [|done].
  cbn. destruct (thread_starts (next_worker s)); cbn; [|done].
  by destruct (cleanup_timestamps_ s).
Qed.

(** Projections of a state after the detach-duration sample. *)
Lemma settle_workers s : workers_ (settle_detach_duration s) = workers_ s.
Proof. unfold settle_detach_duration. by destruct (cleanup_timestamps_ s). Qed.
Lemma settle_idle s :
  idle_workers_stack_ (settle_detach_duration s) = idle_workers_stack_ s.
Proof. unfold settle_detach_duration. by destruct (cleanup_timestamps_ s). Qed.
Lemma settle_capacity s :
  worker_capacity_ (settle_detach_duration s) = worker_capacity_ s.
Proof. unfold settle_detach_duration. by destruct (cleanup_timestamps_ s). Qed.
Lemma settle_delegates s :
  delegates (settle_detach_duration s) = delegates s.
Proof. unfold settle_detach_duration. by destruct (cleanup_timestamps_ s). Qed.
Lemma settle_next_worker s :
  next_worker (settle_detach_duration s) = next_worker s.
Proof. unfold settle_detach_duration. by destruct (cleanup_timestamps_ s). Qed.
Lemma settle_num_wake_ups s :
  num_wake_ups_before_start_ (settle_detach_duration s)
  = num_wake_ups_before_start_ s.
Proof. unfold settle_detach_duration. by destruct (cleanup_timestamps_ s). Qed.
Lemma settle_queue s :
  shared_priority_queue_ (settle_detach_duration s)
  = shared_priority_queue_ s.
Proof. unfold settle_detach_duration. by destruct (cleanup_timestamps_ s). Qed.
Lemma settle_cleanup_disallowed s :
  worker_cleanup_disallowed_ (settle_detach_duration s)
  = worker_cleanup_disallowed_ s.
Proof. unfold settle_detach_duration. by destruct (cleanup_timestamps_ s). Qed.
Lemma settle_woken s :
  woken (trace (settle_detach_duration s)) = woken (trace s).
Proof.
  unfold settle_detach_duration. destruct (cleanup_timestamps_ s); [done|].
  cbn. unfold woken. rewrite omap_app. cbn. by rewrite app_nil_r.
Qed.


Lemma Create_inv s r s' :
  CreateRegisterAndStartSchedulerWorker thread_starts s = Ok (r, s') ->
  Z.of_nat (length (workers_ s)) < worker_capacity_ s
  /\ ((thread_starts (next_worker s) = true
       /\ r = Some (next_worker s)
       /\ s' = settle_detach_duration
                 (set_workers (fun ws => ws ++ [next_worker s])
                    (set_delegates (insert (next_worker s) new_delegate)
                       (set_next_worker (S (next_worker s)) s))))
      \/ (thread_starts (next_worker s) = false
          /\ r = None
          /\ s' = set_next_worker (S (next_worker s)) s)).
Proof.
  rewrite Create_eq.
  destruct (Z.of_nat _ <? _) eqn:Hb; [|discriminate].
  apply Z.ltb_lt in Hb. unfold spec_create_worker.
  destruct (thread_starts (next_worker s)) eqn:Ht; intros [= <- <-]; auto.
Qed.

(** *** The invariant of the idle stack is kept by every operation *)

Lemma stack_inv_pool_inv s : stack_inv s -> pool_inv s.
Proof.
  intros (Hnd & Hsub & Hcap). repeat split; [done| |done].
  by apply NoDup_subset_length.
Qed.

Ltac pool_step :=
  match goal with
  | H : UnsetIsOnIdleWorkersStack _ _ = Ok _ |- _ =>
      apply UnsetIsOnIdleWorkersStack_inv in H as (? & ? & ? & ? & ?)
  | H : SetIsOnIdleWorkersStack _ _ = Ok _ |- _ =>
      apply SetIsOnIdleWorkersStack_inv in H as (? & ? & ? & ? & ?)
  | H : AssertIsOnIdleWorkersStack _ _ = Ok _ |- _ =>
      apply AssertIsOnIdleWorkersStack_inv in H as (? & ? & ? & ? & ?)
  | H : idle_Push _ _ = Ok _ |- _ =>
      apply idle_Push_inv in H as (? & ?)
  | H : idle_Pop _ = Ok _ |- _ =>
      rewrite idle_Pop_eq in H
  | H : delegate _ _ = Ok _ |- _ =>
      apply delegate_inv in H as (? & ?)
  | H : WakeUp _ _ = Ok _ |- _ => unfold WakeUp in H; minv H
  | H : idle_IsEmpty _ = Ok _ |- _ => unfold idle_IsEmpty in H; minv H
  | H : idle_Contains _ _ = Ok _ |- _ => unfold idle_Contains in H; minv H
  | H : below_capacity _ = Ok _ |- _ => unfold below_capacity in H; minv H
  | H : store_delegate _ _ _ = Ok _ |- _ => unfold store_delegate in H; minv H
  | H : queue_Push _ _ _ = Ok _ |- _ => unfold queue_Push in H; minv H
  | H : CreateRegisterAndStartSchedulerWorker _ _ = Ok _ |- _ =>
      apply Create_inv in H as (? & [(? & ? & ?) | (? & ? & ?)])
  | H : (match ?x with _ => _ end) _ = Ok _ |- _ =>
      let E := fresh "E" in destruct x eqn:E; minv H
  | H : Cleanup _ _ = Ok _ |- _ =>
      unfold Cleanup, RemoveFromIdleWorkersStack in H; minv H
  | H : AddToIdleWorkersStack _ _ = Ok _ |- _ =>
      unfold AddToIdleWorkersStack in H; minv H
  | H : ContainsWorker _ _ = true |- _ => apply ContainsWorker_elem in H
  | H : bind _ _ _ = Ok _ |- _ => minv H
  | H : ret _ _ = Ok _ |- _ => minv H
  | H : modify _ _ = Ok _ |- _ => minv H
  | H : gets _ _ = Ok _ |- _ => minv H
  | H : DCHECK _ _ = Ok _ |- _ => minv H
  | H : CHECK _ _ = Ok _ |- _ => minv H
  end; simplify_eq.

Ltac pool_steps := repeat pool_step.

Lemma NoDup_tail (l : list Worker) : NoDup l -> NoDup (tail l).
Proof. destruct 1; [constructor | done]. Qed.

Lemma elem_of_tail (x : Worker) l : x ∈ tail l -> x ∈ l.
Proof. destruct l; cbn; [done | rewrite elem_of_cons; auto]. Qed.

#[local] Hint Rewrite settle_workers settle_idle settle_capacity
  settle_delegates settle_next_worker settle_num_wake_ups settle_woken
  settle_queue settle_cleanup_disallowed : pool_fields.

(** Members of updated states are rewritten, never computed: a state is a
    tower of updates, and comparing two towers by computation is slow. *)
Ltac settle := autorewrite with pool_fields in *.
Ltac psimpl := autorewrite with pool_fields in *.

Ltac stack_inv_solve :=
  unfold stack_inv in *; settle;
  destruct_and?;
  repeat match goal with |- _ /\ _ => split end;
  [ repeat (apply NoDup_cons; split); eauto using NoDup_tail, erase_first_NoDup
  | intros ?; rewrite ?elem_of_cons, ?elem_of_app, ?list_elem_of_singleton;
    intros; destruct_or?; subst; eauto using elem_of_tail
  | rewrite ?length_app in *; cbn [length] in *; try lia ].

Lemma erase_first_elem_NoDup w x (ws : list Worker) :
  NoDup ws -> x ∈ erase_first w ws -> x ≠ w /\ x ∈ ws.
Proof.
  intros Hnd Hx. split; [|by eapply erase_first_elem].
  intros ->. by eapply erase_first_not_elem.
Qed.

Lemma WakeUpOneWorker_stack_inv s u s' :
  stack_inv s ->
  WakeUpOneWorker thread_starts s = Ok (u, s') ->
  stack_inv s'.
Proof.
  intros Hinv H. unfold WakeUpOneWorker in H. minv H. pool_steps.
  all: stack_inv_solve.
Qed.

Lemma Start_loop_stack_inv n : forall index s u s',
  stack_inv s ->
  Start_loop thread_starts n index s = Ok (u, s') ->
  stack_inv s'.
Proof.
  induction n as [|n IH]; intros index s u s' Hinv H.
  - cbn in H. minv H. done.
  - cbn [Start_loop] in H. minv H. pool_steps.
    all: match goal with
         | H : Start_loop _ _ _ _ = Ok _ |- _ => eapply IH; [|exact H]
         end.
    all: stack_inv_solve.
Qed.

Lemma to_size_t_nonneg z : 0 <= to_size_t z.
Proof. unfold to_size_t. apply Z.mod_pos_bound. lia. Qed.

Lemma Start_stack_inv params s u s' :
  stack_inv s ->
  Start thread_starts params s = Ok (u, s') ->
  stack_inv s'.
Proof.
  intros Hinv H. unfold Start in H. minv H. pool_steps.
  match goal with
  | H : Start_loop _ _ _ _ = Ok _ |- _ =>
      eapply Start_loop_stack_inv; [|exact H]
  end.
  match goal with
  | H : bool_decide _ = true |- _ => apply bool_decide_eq_true in H as Hws
  end.
  destruct Hinv as (Hnd & Hsub & Hcap).
  unfold stack_inv. psimpl. repeat split; [done|done|].
  rewrite Hws. cbn [length]. apply to_size_t_nonneg.
Qed.

Lemma GetWork_stack_inv w s r s' :
  stack_inv s ->
  GetWork w s = Ok (r, s') ->
  stack_inv s'.
Proof.
  intros Hinv H. unfold GetWork in H. minv H. pool_steps.
  all: try solve [stack_inv_solve].
  (* the worker cleans itself up *)
  destruct Hinv as (Hnd & Hsub & Hcap). unfold stack_inv. psimpl.
  rewrite Remove_erase_first. repeat split.
  - by apply erase_first_NoDup.
  - intros x [Hne Hx]%erase_first_elem_NoDup; [|done].
    apply erase_first_other; auto.
  - pose proof (erase_first_length w (workers_ s)). lia.
Qed.

Lemma run_op_stack_inv o s u s' :
  stack_inv s ->
  run_op thread_starts o s = Ok (u, s') ->
  stack_inv s'.
Proof.
  intros Hinv H. destruct o; cbn [run_op] in H.
  - by eapply Start_stack_inv.
  - unfold ScheduleSequence in H. minv H. pool_steps.
    eapply WakeUpOneWorker_stack_inv; [|eassumption]. done.
  - by eapply WakeUpOneWorker_stack_inv.
  - minv H. by eapply GetWork_stack_inv.
  - unfold ReEnqueueSequence in H. pool_steps. done.
  - unfold DidRunTask in H. minv H. pool_steps. done.
  - unfold DisallowWorkerCleanupForTesting in H. minv H. done.
  - minv H. done.
Qed.

Lemma run_ops_stack_inv ops : forall s u s',
  stack_inv s ->
  run_ops thread_starts ops s = Ok (u, s') ->
  stack_inv s'.
Proof.
  induction ops as [|o ops IH]; intros s u s' Hinv H; cbn [run_ops] in H.
  - minv H. done.
  - minv H. eapply IH; [|eassumption]. by eapply run_op_stack_inv.
Qed.

Lemma initial_pool_stack_inv : stack_inv initial_pool.
Proof.
  unfold stack_inv. cbn. repeat split; [constructor| |lia].
  by intros ? ?%elem_of_nil.
Qed.


(** *** Well-formed pools *)

Lemma pool_wf_stack_inv s : pool_wf s -> stack_inv s.
Proof. by intros (? & _). Qed.

Lemma initial_pool_wf : pool_wf initial_pool.
Proof.
  split; [apply initial_pool_stack_inv|]. cbn.
  repeat split; [constructor| |]; by intros ? ?%elem_of_nil.
Qed.

(** Only these members matter to well-formedness. *)
Lemma pool_wf_frame s s' :
  workers_ s' = workers_ s ->
  idle_workers_stack_ s' = idle_workers_stack_ s ->
  worker_capacity_ s' = worker_capacity_ s ->
  next_worker s' = next_worker s ->
  delegates s' = delegates s ->
  pool_wf s -> pool_wf s'.
Proof.
  unfold pool_wf, stack_inv, delegate_ok.
  intros -> -> -> -> ->. done.
Qed.

Lemma pool_wf_settle s : pool_wf s -> pool_wf (settle_detach_duration s).
Proof.
  apply pool_wf_frame;
    auto using settle_workers, settle_idle, settle_capacity,
      settle_next_worker, settle_delegates.
Qed.

Lemma pool_wf_fresh_workers s :
  pool_wf s -> next_worker s ∉ workers_ s.
Proof. intros (_ & _ & Hfresh & _) Hin. apply Hfresh in Hin. lia. Qed.

Lemma pool_wf_fresh_idle s :
  pool_wf s -> next_worker s ∉ idle_workers_stack_ s.
Proof.
  intros Hwf Hin. apply (pool_wf_fresh_workers s Hwf).
  destruct Hwf as ((_ & Hsub & _) & _). auto.
Qed.

Lemma alter_as_insert (m : gmap Worker Delegate) w d f :
  m !! w = Some d -> alter f w m = <[w := f d]> m.
Proof.
  intros Hd. apply map_eq. intros i. destruct (decide (w = i)) as [->|Hne].
  - by rewrite lookup_alter_eq, lookup_insert_eq, Hd.
  - by rewrite lookup_alter_ne, lookup_insert_ne.
Qed.

Lemma set_delegates_alter s w d f :
  delegates s !! w = Some d ->
  set_delegates (alter f w) s = set_delegates (insert w (f d)) s.
Proof.
  intros Hd. unfold set_delegates. by rewrite (alter_as_insert _ _ _ _ Hd).
Qed.


Lemma created_workers s : workers_ (created s) = workers_ s ++ [next_worker s].
Proof. unfold created. by autorewrite with pool_fields. Qed.
Lemma created_idle s : idle_workers_stack_ (created s) = idle_workers_stack_ s.
Proof. unfold created. by autorewrite with pool_fields. Qed.
Lemma created_capacity s : worker_capacity_ (created s) = worker_capacity_ s.
Proof. unfold created. by autorewrite with pool_fields. Qed.
Lemma created_next_worker s : next_worker (created s) = S (next_worker s).
Proof. unfold created. by autorewrite with pool_fields. Qed.
Lemma created_delegates s :
  delegates (created s) = <[next_worker s := new_delegate]> (delegates s).
Proof. unfold created. by autorewrite with pool_fields. Qed.
Lemma created_num_wake_ups s :
  num_wake_ups_before_start_ (created s) = num_wake_ups_before_start_ s.
Proof. unfold created. by autorewrite with pool_fields. Qed.
Lemma created_queue s :
  shared_priority_queue_ (created s) = shared_priority_queue_ s.
Proof. unfold created. by autorewrite with pool_fields. Qed.
Lemma created_cleanup_disallowed s :
  worker_cleanup_disallowed_ (created s) = worker_cleanup_disallowed_ s.
Proof. unfold created. by autorewrite with pool_fields. Qed.
Lemma created_woken s : woken (trace (created s)) = woken (trace s).
Proof. unfold created. by autorewrite with pool_fields. Qed.

#[local] Hint Rewrite created_workers created_idle created_capacity
  created_next_worker created_delegates created_num_wake_ups created_woken
  created_queue created_cleanup_disallowed : pool_fields.

Lemma spec_create_worker_eq s :
  spec_create_worker thread_starts s
  = if thread_starts (next_worker s)
    then (Some (next_worker s), created s)
    else (None, set_next_worker (S (next_worker s)) s).
Proof. reflexivity. Qed.

Lemma Create_Ok_started s :
  Z.of_nat (length (workers_ s)) < worker_capacity_ s ->
  thread_starts (next_worker s) = true ->
  CreateRegisterAndStartSchedulerWorker thread_starts s
  = Ok (Some (next_worker s), created s).
Proof.
  intros Hb%Z.ltb_lt Ht. by rewrite Create_eq, Hb, spec_create_worker_eq, Ht.
Qed.

Lemma Create_Ok_failed s :
  Z.of_nat (length (workers_ s)) < worker_capacity_ s ->
  thread_starts (next_worker s) = false ->
  CreateRegisterAndStartSchedulerWorker thread_starts s
  = Ok (None, set_next_worker (S (next_worker s)) s).
Proof.
  intros Hb%Z.ltb_lt Ht. by rewrite Create_eq, Hb, spec_create_worker_eq, Ht.
Qed.

(** A worker was created and woken. *)
Lemma pool_wf_created_woken s :
  pool_wf s ->
  Z.of_nat (length (workers_ s)) < worker_capacity_ s ->
  pool_wf (spec_wake (next_worker s) (created s)).
Proof.
  intros Hwf Hroom.
  pose proof (pool_wf_fresh_workers s Hwf) as Hfw.
  pose proof (pool_wf_fresh_idle s Hwf) as Hfi.
  destruct Hwf as ((Hnd & Hsub & Hcap) & Hndw & Hfresh & Hdel).
  unfold pool_wf, stack_inv, delegate_ok, spec_wake. psimpl.
  repeat split.
  - done.
  - intros w Hw. apply elem_of_app. auto.
  - rewrite length_app. cbn [length]. lia.
  - apply NoDup_app. repeat split; [done| |apply NoDup_singleton].
    intros x Hx ->%list_elem_of_singleton. done.
  - intros w [Hw| ->%list_elem_of_singleton]%elem_of_app; [|lia].
    apply Hfresh in Hw. lia.
  - intros w [Hw| ->%list_elem_of_singleton]%elem_of_app.
    + assert (w ≠ next_worker s) by (intros ->; done).
      destruct (Hdel w Hw) as (d & Hd & Hflag & Hcount).
      exists d. by rewrite lookup_alter_ne, lookup_insert_ne.
    + exists (with_is_on_idle_workers_stack false new_delegate).
      rewrite lookup_alter_eq, lookup_insert_eq. cbn.
      split_and!; [done| |done]. split; [done|]. intros ?. done.
Qed.

(** A worker was created and left idle. *)
Lemma pool_wf_created_idle s :
  pool_wf s ->
  Z.of_nat (length (workers_ s)) < worker_capacity_ s ->
  pool_wf (set_idle (cons (next_worker s)) (created s)).
Proof.
  intros Hwf Hroom.
  pose proof (pool_wf_fresh_workers s Hwf) as Hfw.
  pose proof (pool_wf_fresh_idle s Hwf) as Hfi.
  destruct Hwf as ((Hnd & Hsub & Hcap) & Hndw & Hfresh & Hdel).
  unfold pool_wf, stack_inv, delegate_ok. psimpl.
  repeat split.
  - apply NoDup_cons. done.
  - intros w [->|Hw]%elem_of_cons; apply elem_of_app;
      [right; by apply list_elem_of_singleton | auto].
  - rewrite length_app. cbn [length]. lia.
  - apply NoDup_app. repeat split; [done| |apply NoDup_singleton].
    intros x Hx ->%list_elem_of_singleton. done.
  - intros w [Hw| ->%list_elem_of_singleton]%elem_of_app; [|lia].
    apply Hfresh in Hw. lia.
  - intros w [Hw| ->%list_elem_of_singleton]%elem_of_app.
    + assert (w ≠ next_worker s) by (intros ->; done).
      destruct (Hdel w Hw) as (d & Hd & Hflag & Hcount).
      exists d. rewrite lookup_insert_ne by done. split_and!; [done| |done].
      rewrite elem_of_cons, Hflag. split; [auto|]. intros [->|?]; done.
    + exists new_delegate. rewrite lookup_insert_eq. cbn.
      split_and!; [done| |done].
      split; [intros _; apply elem_of_cons; by left | done].
Qed.

(** The thread of a new worker could not be started. *)
Lemma pool_wf_not_created s :
  pool_wf s -> pool_wf (set_next_worker (S (next_worker s)) s).
Proof.
  intros (Hinv & Hndw & Hfresh & Hdel).
  unfold pool_wf, stack_inv, delegate_ok in *. psimpl.
  split_and!; try done; try tauto.
  intros w Hw. apply Hfresh in Hw. lia.
Qed.

(** The top of the idle stack was popped and woken. *)
Lemma pool_wf_popped_woken s w rest :
  pool_wf s ->
  idle_workers_stack_ s = w :: rest ->
  pool_wf (spec_wake w (set_idle (fun _ => rest) s)).
Proof.
  intros ((Hnd & Hsub & Hcap) & Hndw & Hfresh & Hdel) Hidle.
  rewrite Hidle in Hnd, Hsub. apply NoDup_cons in Hnd as [Hw Hnd].
  unfold pool_wf, stack_inv, delegate_ok, spec_wake. psimpl. repeat split; try done.
  - intros x Hx. apply Hsub, elem_of_cons. auto.
  - intros x Hx. destruct (Hdel x Hx) as (d & Hd & Hflag & Hcount).
    rewrite Hidle in Hflag. unfold delegate_ok. psimpl.
    destruct (decide (x = w)) as [->|Hne].
    + exists (with_is_on_idle_workers_stack false d).
      rewrite lookup_alter_eq, Hd. cbn. split_and!; [done| |done].
      split; [done|]. intros ?. done.
    + exists d. rewrite lookup_alter_ne by done.
      split_and!; [done| |done].
      rewrite Hflag, elem_of_cons. split; [intros [?|?]; done | auto].
Qed.


(** *** The operations return on well-formed pools *)

Lemma wake_Ok w s d :
  delegates s !! w = Some d ->
  is_on_idle_workers_stack_ d = true ->
  w ∉ idle_workers_stack_ s ->
  bind (UnsetIsOnIdleWorkersStack w) (fun _ => WakeUp w) s
  = Ok (tt, spec_wake w s).
Proof.
  intros Hd Hflag Hidle.
  rewrite (bind_Ok _ _ _ _ _ (UnsetIsOnIdleWorkersStack_Ok _ _ _ Hd Hflag Hidle)).
  unfold WakeUp, modify, spec_wake.
  by rewrite (set_delegates_alter _ _ _ _ Hd).
Qed.

Lemma set_idle_same s st :
  idle_workers_stack_ s = st -> set_idle (fun _ => st) s = s.
Proof. destruct s. cbn. by intros ->. Qed.

Lemma spec_has_room_true s :
  spec_has_room s = true ->
  idle_workers_stack_ s = []
  /\ Z.of_nat (length (workers_ s)) < worker_capacity_ s.
Proof.
  unfold spec_has_room. intros [Hi Hb]%andb_true_iff.
  apply Z.ltb_lt in Hb. by destruct (idle_workers_stack_ s).
Qed.



Lemma WakeUpOneWorker_spec_eq s :
  WakeUpOneWorker_spec thread_starts s
  = match workers_ s with
    | [] => set_num_wake_ups Z.succ s
    | _ :: _ => keep_one_idle thread_starts (wake_one thread_starts s)
    end.
Proof. reflexivity. Qed.

Lemma pool_wf_wake_one s : pool_wf s -> pool_wf (wake_one thread_starts s).
Proof.
  intros Hwf. unfold wake_one.
  destruct (spec_has_room s) eqn:Hroom.
  - apply spec_has_room_true in Hroom as [_ Hroom].
    rewrite spec_create_worker_eq.
    destruct (thread_starts (next_worker s)).
    + by apply pool_wf_created_woken.
    + by apply pool_wf_not_created.
  - destruct (idle_workers_stack_ s) eqn:Hidle; [done|].
    by apply pool_wf_popped_woken.
Qed.

Lemma pool_wf_keep_one_idle s : pool_wf s -> pool_wf (keep_one_idle thread_starts s).
Proof.
  intros Hwf. unfold keep_one_idle.
  destruct (spec_has_room s) eqn:Hroom; [|done].
  apply spec_has_room_true in Hroom as [_ Hroom].
  rewrite spec_create_worker_eq.
  destruct (thread_starts (next_worker s)).
  - by apply pool_wf_created_idle.
  - by apply pool_wf_not_created.
Qed.

Lemma wake_one_Ok {B} (k : unit -> M Pool B) s :
  pool_wf s ->
  bind (if spec_has_room s
        then CreateRegisterAndStartSchedulerWorker thread_starts
        else idle_Pop)
       (fun worker =>
          bind match worker with
               | Some w =>
                   bind (UnsetIsOnIdleWorkersStack w) (fun _ => WakeUp w)
               | None => ret tt
               end k) s
  = k tt (wake_one thread_starts s).
Proof.
  intros Hwf. unfold wake_one.
  destruct (spec_has_room s) eqn:Hroom.
  - apply spec_has_room_true in Hroom as [Hidle Hroom].
    rewrite spec_create_worker_eq.
    destruct (thread_starts (next_worker s)) eqn:Ht.
    2: { by rewrite (bind_Ok _ _ _ _ _ (Create_Ok_failed _ Hroom Ht)). }
    rewrite (bind_Ok _ _ _ _ _ (Create_Ok_started _ Hroom Ht)).
    assert (bind (UnsetIsOnIdleWorkersStack (next_worker s))
              (fun _ => WakeUp (next_worker s)) (created s)
            = Ok (tt, spec_wake (next_worker s) (created s))) as Hwake.
    { apply (wake_Ok _ _ new_delegate).
      - by rewrite created_delegates, lookup_insert_eq.
      - done.
      - rewrite created_idle, Hidle. apply not_elem_of_nil. }
    by rewrite (bind_Ok _ _ _ _ _ Hwake).
  - rewrite (bind_Ok _ _ _ _ _ (idle_Pop_eq s)).
    destruct (idle_workers_stack_ s) as [|w rest] eqn:Hidle; cbn [head tail].
    + rewrite bind_ret. by rewrite set_idle_same.
    + destruct Hwf as ((Hnd & Hsub & Hcap) & Hndw & Hfresh & Hdel).
      rewrite Hidle in Hnd, Hsub. apply NoDup_cons in Hnd as [Hw Hnd].
      destruct (Hdel w) as (d & Hd & Hflag & _).
      { apply Hsub, elem_of_cons. by left. }
      assert (bind (UnsetIsOnIdleWorkersStack w) (fun _ => WakeUp w)
                (set_idle (fun _ => rest) s)
              = Ok (tt, spec_wake w (set_idle (fun _ => rest) s))) as Hwake.
      { apply (wake_Ok _ _ d); [done| |done].
        apply Hflag. rewrite Hidle. apply elem_of_cons. by left. }
      by rewrite (bind_Ok _ _ _ _ _ Hwake).
Qed.

Lemma keep_one_idle_Ok s :
  pool_wf s ->
  (if spec_has_room s
   then bind (CreateRegisterAndStartSchedulerWorker thread_starts)
          (fun new_worker =>
             match new_worker with
             | Some w => idle_Push w
             | None => ret tt
             end)
   else ret tt) s
  = Ok (tt, keep_one_idle thread_starts s).
Proof.
  intros Hwf. unfold keep_one_idle.
  destruct (spec_has_room s) eqn:Hroom; [|done].
  apply spec_has_room_true in Hroom as [Hidle Hroom].
  rewrite spec_create_worker_eq.
  destruct (thread_starts (next_worker s)) eqn:Ht.
  2: { by rewrite (bind_Ok _ _ _ _ _ (Create_Ok_failed _ Hroom Ht)). }
  rewrite (bind_Ok _ _ _ _ _ (Create_Ok_started _ Hroom Ht)).
  rewrite idle_Push_Ok.
  - reflexivity.
  - rewrite created_idle, Hidle. apply not_elem_of_nil.
Qed.

Lemma WakeUpOneWorker_Ok s :
  pool_wf s ->
  WakeUpOneWorker thread_starts s
  = Ok (tt, WakeUpOneWorker_spec thread_starts s).
Proof.
  intros Hwf. rewrite WakeUpOneWorker_spec_eq. unfold WakeUpOneWorker.
  rewrite bind_gets.
  destruct (workers_ s) as [|w0 ws]; [done|].
  unfold idle_IsEmpty at 1, below_capacity at 1. rewrite !bind_gets.
  change (SchedulerWorkerStack.IsEmpty (idle_workers_stack_ s)
          && (Z.of_nat (length (workers_ s)) <? worker_capacity_ s))
    with (spec_has_room s).
  rewrite (wake_one_Ok _ _ Hwf).
  unfold idle_IsEmpty, below_capacity. rewrite !bind_gets.
  apply keep_one_idle_Ok. by apply pool_wf_wake_one.
Qed.

Lemma pool_wf_WakeUpOneWorker_spec s :
  pool_wf s -> pool_wf (WakeUpOneWorker_spec thread_starts s).
Proof.
  intros Hwf. rewrite WakeUpOneWorker_spec_eq.
  destruct (workers_ s) eqn:Hws.
  - revert Hwf. by apply pool_wf_frame.
  - by apply pool_wf_keep_one_idle, pool_wf_wake_one.
Qed.


(** *** Start *)


Lemma idle_created_Ok {B} (k : unit -> M Pool B) s :
  pool_wf s ->
  bind (idle_Push (next_worker s))
    (fun _ => bind (AssertIsOnIdleWorkersStack (next_worker s)) k) (created s)
  = k tt (set_idle (cons (next_worker s)) (created s)).
Proof.
  intros Hwf.
  assert (idle_Push (next_worker s) (created s)
          = Ok (tt, set_idle (cons (next_worker s)) (created s))) as Hpush.
  { rewrite idle_Push_Ok; [done|].
    rewrite created_idle. by apply pool_wf_fresh_idle. }
  rewrite (bind_Ok _ _ _ _ _ Hpush).
  assert (AssertIsOnIdleWorkersStack (next_worker s)
            (set_idle (cons (next_worker s)) (created s))
          = Ok (tt, set_idle (cons (next_worker s)) (created s))) as Hassert.
  { apply (AssertIsOnIdleWorkersStack_Ok _ _ new_delegate).
    - autorewrite with pool_fields. apply lookup_insert_eq.
    - done.
    - autorewrite with pool_fields. apply elem_of_cons. by left. }
  by rewrite (bind_Ok _ _ _ _ _ Hassert).
Qed.

Lemma woken_created_Ok {B} (k : unit -> M Pool B) s :
  pool_wf s ->
  bind (UnsetIsOnIdleWorkersStack (next_worker s))
    (fun _ => bind (WakeUp (next_worker s)) k) (created s)
  = k tt (spec_wake (next_worker s) (created s)).
Proof.
  intros Hwf.
  assert (UnsetIsOnIdleWorkersStack (next_worker s) (created s)
          = Ok (tt, set_delegates
                      (insert (next_worker s)
                         (with_is_on_idle_workers_stack false new_delegate))
                      (created s))) as Hunset.
  { apply UnsetIsOnIdleWorkersStack_Ok.
    - rewrite created_delegates. apply lookup_insert_eq.
    - done.
    - rewrite created_idle. by apply pool_wf_fresh_idle. }
  rewrite (bind_Ok _ _ _ _ _ Hunset).
  unfold WakeUp. rewrite bind_modify. unfold spec_wake.
  rewrite (set_delegates_alter _ _ new_delegate); [done|].
  rewrite created_delegates. apply lookup_insert_eq.
Qed.

Lemma pool_wf_round (index : Z) s :
  pool_wf s ->
  Z.of_nat (length (workers_ s)) < worker_capacity_ s ->
  pool_wf (Start_round thread_starts index s).
Proof.
  intros Hwf Hroom. unfold Start_round. destruct (thread_starts (next_worker s)).
  - destruct (index <? _).
    + by apply pool_wf_created_woken.
    + by apply pool_wf_created_idle.
  - by apply pool_wf_not_created.
Qed.

Lemma round_workers_length (index : Z) s :
  (length (workers_ (Start_round thread_starts index s)) <= S (length (workers_ s)))%nat.
Proof.
  unfold Start_round. destruct (thread_starts (next_worker s)); [destruct (index <? _)|];
    unfold spec_wake; autorewrite with pool_fields;
    rewrite ?length_app; cbn [length]; lia.
Qed.

Lemma round_capacity (index : Z) s :
  worker_capacity_ (Start_round thread_starts index s) = worker_capacity_ s.
Proof.
  unfold Start_round. destruct (thread_starts (next_worker s)); [destruct (index <? _)|];
    unfold spec_wake; by autorewrite with pool_fields.
Qed.

Lemma Start_loop_Ok n : forall (index : Z) s,
  pool_wf s ->
  Z.of_nat (length (workers_ s)) + Z.of_nat n <= worker_capacity_ s ->
  (0 < index \/ n = O \/ thread_starts (next_worker s) = true) ->
  0 <= index ->
  Start_loop thread_starts n index s = Ok (tt, Start_loop_spec thread_starts n index s)
  /\ pool_wf (Start_loop_spec thread_starts n index s).
Proof.
  induction n as [|n IH]; intros index s Hwf Hroom Hfirst Hindex.
  { by split. }
  assert (Z.of_nat (length (workers_ s)) < worker_capacity_ s) as Hlt by lia.
  pose proof (pool_wf_round index s Hwf Hlt) as Hwf1.
  pose proof (round_workers_length index s) as Hlen.
  pose proof (round_capacity index s) as Hcap.
  cbn [Start_loop Start_loop_spec]. unfold Start_round in *.
  destruct (thread_starts (next_worker s)) eqn:Ht.
  - rewrite (bind_Ok _ _ _ _ _ (Create_Ok_started _ Hlt Ht)).
    rewrite bool_decide_true by eauto. cbn [orb]. rewrite bind_CHECK.
    cbv beta iota. rewrite bind_assoc, bind_gets, created_num_wake_ups.
    destruct (index <? num_wake_ups_before_start_ s) eqn:Hidx.
    + rewrite bind_assoc. cbv beta. rewrite woken_created_Ok by done.
      apply IH; [done|lia|lia|lia].
    + rewrite bind_assoc. cbv beta. rewrite idle_created_Ok by done.
      apply IH; [done|lia|lia|lia].
  - rewrite (bind_Ok _ _ _ _ _ (Create_Ok_failed _ Hlt Ht)).
    assert (0 < index) as Hpos by (destruct Hfirst as [?|[?|?]]; congruence).
    pose proof (proj2 (Z.ltb_lt _ _) Hpos) as Hpos'. rewrite Hpos'.
    rewrite orb_true_r, bind_CHECK, bind_ret.
    apply IH; [done|lia|lia|lia].
Qed.


(** Members after one round. *)
Lemma Start_round_next_worker (index : Z) s :
  next_worker (Start_round thread_starts index s) = S (next_worker s).
Proof.
  unfold Start_round, spec_wake.
  destruct (thread_starts (next_worker s));
    [destruct (index <? num_wake_ups_before_start_ s)|];
    by autorewrite with pool_fields.
Qed.

Lemma Start_round_num_wake_ups (index : Z) s :
  num_wake_ups_before_start_ (Start_round thread_starts index s)
  = num_wake_ups_before_start_ s.
Proof.
  unfold Start_round, spec_wake.
  destruct (thread_starts (next_worker s));
    [destruct (index <? num_wake_ups_before_start_ s)|];
    by autorewrite with pool_fields.
Qed.

Lemma Start_round_queue (index : Z) s :
  shared_priority_queue_ (Start_round thread_starts index s) = shared_priority_queue_ s.
Proof.
  unfold Start_round, spec_wake.
  destruct (thread_starts (next_worker s));
    [destruct (index <? num_wake_ups_before_start_ s)|];
    by autorewrite with pool_fields.
Qed.

Lemma Start_round_workers (index : Z) s :
  workers_ (Start_round thread_starts index s)
  = workers_ s ++ List.filter thread_starts [next_worker s].
Proof.
  unfold Start_round, spec_wake. cbn [List.filter].
  destruct (thread_starts (next_worker s));
    [destruct (index <? num_wake_ups_before_start_ s)|];
    autorewrite with pool_fields; by rewrite ?app_nil_r.
Qed.

Lemma Start_round_idle (index : Z) s :
  idle_workers_stack_ (Start_round thread_starts index s)
  = if thread_starts (next_worker s)
       && negb (index <? num_wake_ups_before_start_ s)
    then next_worker s :: idle_workers_stack_ s
    else idle_workers_stack_ s.
Proof.
  unfold Start_round, spec_wake.
  destruct (thread_starts (next_worker s));
    [destruct (index <? num_wake_ups_before_start_ s)|];
    by autorewrite with pool_fields.
Qed.

Lemma woken_app tr1 tr2 : woken (tr1 ++ tr2) = woken tr1 ++ woken tr2.
Proof. unfold woken. apply omap_app. Qed.

Lemma Start_round_woken (index : Z) s :
  woken (trace (Start_round thread_starts index s))
  = woken (trace s)
    ++ (if thread_starts (next_worker s)
           && (index <? num_wake_ups_before_start_ s)
        then [next_worker s] else []).
Proof.
  unfold Start_round, spec_wake.
  destruct (thread_starts (next_worker s));
    [destruct (index <? num_wake_ups_before_start_ s)|];
    autorewrite with pool_fields; rewrite ?woken_app;
    autorewrite with pool_fields; by rewrite ?app_nil_r.
Qed.

(** Members after the loop. *)
Lemma Start_loop_spec_next_worker n : forall (index : Z) s,
  next_worker (Start_loop_spec thread_starts n index s) = (next_worker s + n)%nat.
Proof.
  induction n as [|n IH]; intros index s; cbn [Start_loop_spec]; [lia|].
  rewrite IH, Start_round_next_worker. lia.
Qed.

Lemma Start_loop_spec_num_wake_ups n : forall (index : Z) s,
  num_wake_ups_before_start_ (Start_loop_spec thread_starts n index s)
  = num_wake_ups_before_start_ s.
Proof.
  induction n as [|n IH]; intros index s; cbn [Start_loop_spec]; [done|].
  by rewrite IH, Start_round_num_wake_ups.
Qed.

Lemma Start_loop_spec_capacity n : forall (index : Z) s,
  worker_capacity_ (Start_loop_spec thread_starts n index s) = worker_capacity_ s.
Proof.
  induction n as [|n IH]; intros index s; cbn [Start_loop_spec]; [done|].
  by rewrite IH, round_capacity.
Qed.

Lemma Start_loop_spec_queue n : forall (index : Z) s,
  shared_priority_queue_ (Start_loop_spec thread_starts n index s)
  = shared_priority_queue_ s.
Proof.
  induction n as [|n IH]; intros index s; cbn [Start_loop_spec]; [done|].
  by rewrite IH, Start_round_queue.
Qed.

(** The workers registered by the loop are those whose thread started. *)
Lemma Start_loop_spec_workers n : forall (index : Z) s,
  workers_ (Start_loop_spec thread_starts n index s)
  = workers_ s ++ List.filter thread_starts (seq (next_worker s) n).
Proof.
  induction n as [|n IH]; intros index s; cbn [Start_loop_spec seq].
  { by rewrite app_nil_r. }
  rewrite IH, Start_round_workers, Start_round_next_worker, <- app_assoc.
  f_equal. cbn [List.filter]. by destruct (thread_starts (next_worker s)).
Qed.

(** When every thread starts, the first rounds wake their worker and the
    later ones leave it idle. *)

Lemma Start_loop_spec_woken n : forall (index : Z) s,
  (forall w, thread_starts w = true) ->
  woken (trace (Start_loop_spec thread_starts n index s))
  = woken (trace s)
    ++ seq (next_worker s)
         (woken_rounds n index (num_wake_ups_before_start_ s)).
Proof.
  unfold woken_rounds.
  induction n as [|n IH]; intros index s Hall; cbn [Start_loop_spec].
  { replace (Z.to_nat _) with O by lia. cbn [seq]. by rewrite app_nil_r. }
  rewrite IH, Start_round_woken, Start_round_next_worker,
    Start_round_num_wake_ups, Hall, <- app_assoc by done.
  f_equal. cbn [andb].
  destruct (index <? num_wake_ups_before_start_ s) eqn:Hidx.
  - apply Z.ltb_lt in Hidx.
    replace (Z.to_nat (Z.min (Z.of_nat (S n))
               (Z.max 0 (num_wake_ups_before_start_ s - index))))
      with (S (Z.to_nat (Z.min (Z.of_nat n)
               (Z.max 0 (num_wake_ups_before_start_ s - (index + 1))))))
      by lia.
    reflexivity.
  - apply Z.ltb_ge in Hidx.
    replace (Z.to_nat (Z.min (Z.of_nat (S n))
               (Z.max 0 (num_wake_ups_before_start_ s - index))))
      with O by lia.
    replace (Z.to_nat (Z.min (Z.of_nat n)
               (Z.max 0 (num_wake_ups_before_start_ s - (index + 1)))))
      with O by lia.
    reflexivity.
Qed.

Lemma Start_loop_spec_idle n : forall (index : Z) s,
  (forall w, thread_starts w = true) ->
  idle_workers_stack_ (Start_loop_spec thread_starts n index s)
  = rev (seq (next_worker s
              + woken_rounds n index (num_wake_ups_before_start_ s))
             (n - woken_rounds n index (num_wake_ups_before_start_ s)))
    ++ idle_workers_stack_ s.
Proof.
  unfold woken_rounds.
  induction n as [|n IH]; intros index s Hall; cbn [Start_loop_spec].
  { reflexivity. }
  rewrite IH, Start_round_idle, Start_round_next_worker,
    Start_round_num_wake_ups, Hall by done.
  cbn [andb].
  destruct (index <? num_wake_ups_before_start_ s) eqn:Hidx; cbn [negb].
  - apply Z.ltb_lt in Hidx. f_equal. f_equal. f_equal; lia.
  - apply Z.ltb_ge in Hidx.
    replace (Z.to_nat (Z.min (Z.of_nat (S n))
               (Z.max 0 (num_wake_ups_before_start_ s - index))))
      with O by lia.
    replace (Z.to_nat (Z.min (Z.of_nat n)
               (Z.max 0 (num_wake_ups_before_start_ s - (index + 1)))))
      with O by lia.
    rewrite !Nat.add_0_r, !Nat.sub_0_r. cbn [seq rev].
    by rewrite <- app_assoc.
Qed.


(** *** The whole of Start *)

Lemma static_cast_int_small z : 0 <= z <= INT_MAX -> static_cast_int z = z.
Proof.
  unfold static_cast_int, INT_MAX. intros Hz.
  rewrite Z.mod_small; lia.
Qed.

Lemma static_cast_int_le z : 0 <= z -> static_cast_int z <= z.
Proof.
  intros Hz. destruct (Z_lt_le_dec z (2 ^ 31)) as [Hlt|Hge].
  - rewrite static_cast_int_small; unfold INT_MAX; lia.
  - unfold static_cast_int.
    pose proof (Z.mod_pos_bound (z + 2 ^ 31) (2 ^ 32)). lia.
Qed.

Lemma to_size_t_small z : 0 <= z < 2 ^ 64 -> to_size_t z = z.
Proof. unfold to_size_t. intros Hz. by apply Z.mod_small. Qed.


Lemma pool_wf_set_params params s :
  pool_wf s -> workers_ s = [] -> pool_wf (set_params params s).
Proof.
  intros ((Hnd & Hsub & Hcap) & Hndw & Hfresh & Hdel) Hws.
  unfold pool_wf, stack_inv, delegate_ok in *.
  autorewrite with pool_fields. split_and!; try done.
  rewrite Hws. cbn [length]. apply to_size_t_nonneg.
Qed.

Lemma num_initial_workers_le_capacity params s :
  num_initial_workers (set_params params s)
  <= worker_capacity_ (set_params params s).
Proof.
  unfold num_initial_workers. autorewrite with pool_fields.
  pose proof (to_size_t_nonneg (max_threads params)).
  pose proof (static_cast_int_le (to_size_t (max_threads params))). lia.
Qed.

Lemma Start_Ok params s :
  pool_wf s ->
  workers_ s = [] ->
  (0 < num_initial_workers (set_params params s) ->
   thread_starts (next_worker s) = true) ->
  Start thread_starts params s = Ok (tt, Start_spec thread_starts params s)
  /\ pool_wf (Start_spec thread_starts params s).
Proof.
  intros Hwf Hws Hfirst. unfold Start, Start_spec.
  rewrite bind_gets, Hws, bool_decide_true by done.
  rewrite bind_DCHECK, bind_modify, bind_gets.
  pose proof (num_initial_workers_le_capacity params s) as Hle.
  apply Start_loop_Ok.
  - by apply pool_wf_set_params.
  - autorewrite with pool_fields in *. rewrite Hws. cbn [length].
    pose proof (to_size_t_nonneg (max_threads params)). lia.
  - destruct (Z_lt_le_dec 0 (num_initial_workers (set_params params s)))
      as [Hpos|Hneg].
    + right. right. autorewrite with pool_fields. auto.
    + right. left. lia.
  - lia.
Qed.

Lemma Start_CheckFailure params s :
  workers_ s = [] ->
  0 < num_initial_workers (set_params params s) ->
  thread_starts (next_worker s) = false ->
  Start thread_starts params s = Abort CheckFailure.
Proof.
  intros Hws Hpos Ht. unfold Start.
  rewrite bind_gets, Hws, bool_decide_true by done.
  rewrite bind_DCHECK, bind_modify, bind_gets.
  pose proof (num_initial_workers_le_capacity params s) as Hle.
  destruct (Z.to_nat (num_initial_workers (set_params params s)))
    as [|n] eqn:Hn; [lia|].
  cbn [Start_loop].
  assert (Z.of_nat (length (workers_ (set_params params s)))
          < worker_capacity_ (set_params params s)) as Hroom.
  { autorewrite with pool_fields in *. rewrite Hws. cbn [length]. lia. }
  assert (thread_starts (next_worker (set_params params s)) = false) as Ht'.
  { by autorewrite with pool_fields. }
  by rewrite (bind_Ok _ _ _ _ _ (Create_Ok_failed _ Hroom Ht')).
Qed.

(** *** GetWork *)


Lemma Cleanup_Ok {B} (k : unit -> M Pool B) w d s :
  delegates s !! w = Some d ->
  w ∈ workers_ s ->
  bind (Cleanup w) k s = k tt (cleaned w d s).
Proof.
  intros Hd Hw. unfold Cleanup.
  rewrite bind_assoc, (bind_Ok _ _ _ _ _ (delegate_Ok _ _ _ Hd)).
  rewrite bind_assoc, bind_modify, bind_assoc, bind_gets.
  rewrite bind_assoc, bind_modify, bind_assoc, bind_modify.
  unfold RemoveFromIdleWorkersStack.
  rewrite bind_assoc, bind_modify, bind_assoc, bind_gets.
  autorewrite with pool_fields.
  pose proof (proj2 (ContainsWorker_elem _ _) Hw) as Hc. rewrite Hc.
  by rewrite bind_assoc, bind_DCHECK, bind_modify.
Qed.

Lemma CanCleanup_true w s :
  CanCleanup w s = true <->
  (head (idle_workers_stack_ s) ≠ Some w)
  /\ worker_cleanup_disallowed_ s = false.
Proof.
  unfold CanCleanup, PeekAtIdleWorkersStack, SchedulerWorkerStack.Peek,
    CanWorkerCleanupForTesting.
  rewrite andb_true_iff, !negb_true_iff, bool_decide_eq_false.
  split; intros [H1 H2]; split; auto; congruence.
Qed.

Lemma pool_wf_cleaned w d s :
  pool_wf s ->
  w ∈ idle_workers_stack_ s ->
  pool_wf (cleaned w d s).
Proof.
  intros ((Hnd & Hsub & Hcap) & Hndw & Hfresh & Hdel) Hw.
  unfold pool_wf, stack_inv, delegate_ok, cleaned.
  autorewrite with pool_fields. rewrite Remove_erase_first.
  split_and!.
  - by apply erase_first_NoDup.
  - intros x [Hne Hx]%erase_first_elem_NoDup; [|done].
    apply erase_first_other; auto.
  - pose proof (erase_first_length w (workers_ s)). lia.
  - by apply erase_first_NoDup.
  - intros x Hx%erase_first_elem. auto.
  - intros x [Hne Hx]%erase_first_elem_NoDup; [|done].
    destruct (Hdel x Hx) as (dx & Hdx & Hflag & Hcount).
    exists dx. split_and!; [done| |done].
    rewrite Hflag. split.
    + intros Hin. by apply erase_first_other.
    + by intros ?%erase_first_elem.
Qed.

Lemma pool_wf_gone_idle w d s :
  pool_wf s ->
  w ∈ workers_ s ->
  w ∉ idle_workers_stack_ s ->
  pool_wf (gone_idle w d s).
Proof.
  intros ((Hnd & Hsub & Hcap) & Hndw & Hfresh & Hdel) Hw Hidle.
  unfold pool_wf, stack_inv, delegate_ok, gone_idle.
  destruct (_ =? _)%nat; autorewrite with pool_fields.
  all: split_and!; try done.
  all: try (apply NoDup_cons; by split).
  all: try (intros x [->|Hx]%elem_of_cons; auto).
  all: intros x Hx; destruct (decide (x = w)) as [->|Hne].
  all: try (eexists; rewrite lookup_insert_eq; split_and!; [done| |done];
            cbn; split; [intros _; apply elem_of_cons; by left | done]).
  all: destruct (Hdel x Hx) as (dx & Hdx & Hflag & Hcount);
    exists dx; rewrite !lookup_insert_ne by done;
    split_and!; [done| |done];
    rewrite Hflag, elem_of_cons; split; [auto | intros [?|?]; done].
Qed.


Lemma idle_room s w :
  pool_wf s -> w ∈ workers_ s -> w ∉ idle_workers_stack_ s ->
  (S (length (idle_workers_stack_ s)) <= length (workers_ s))%nat.
Proof.
  intros ((Hnd & Hsub & _) & _) Hw Hidle.
  change (S (length (idle_workers_stack_ s)))
    with (length (w :: idle_workers_stack_ s)).
  apply NoDup_subset_length.
  - by apply NoDup_cons.
  - intros x [->|Hx]%elem_of_cons; auto.
Qed.

Lemma GetWork_timed_out_Ok w d s :
  pool_wf s ->
  w ∈ workers_ s ->
  delegates s !! w = Some d ->
  is_on_idle_workers_stack_ d = true ->
  GetWork w s
  = Ok (None,
        emit (EvHistogram num_tasks_between_waits_histogram_
                (num_tasks_since_last_wait_ d))
          (if CanCleanup w s then cleaned w d s else s)).
Proof.
  intros Hwf Hw Hd Hflag.
  destruct Hwf as (Hinv & Hndw & Hfresh & Hdel).
  destruct (Hdel w Hw) as (d' & Hd' & Hidle & Hcount).
  assert (d' = d) as -> by congruence.
  unfold GetWork. rewrite bind_gets.
  pose proof (proj2 (ContainsWorker_elem _ _) Hw) as Hc.
  rewrite Hc, bind_DCHECK.
  rewrite (bind_Ok _ _ _ _ _ (delegate_Ok _ _ _ Hd)).
  unfold idle_Contains at 1. rewrite bind_gets.
  pose proof (proj2 (Contains_elem _ _) (proj1 Hidle Hflag)) as Hcont.
  rewrite Hflag, Hcont, bool_decide_true, bind_DCHECK by done.
  rewrite bind_gets, (Hcount Hflag).
  destruct (CanCleanup w s).
  - rewrite (Cleanup_Ok _ w d) by done.
    assert (delegates (cleaned w d s) !! w = Some d) as Hd2.
    { unfold cleaned. by autorewrite with pool_fields. }
    rewrite (bind_Ok _ _ _ _ _ (delegate_Ok _ _ _ Hd2)).
    by rewrite (Hcount Hflag).
  - rewrite bind_ret, (bind_Ok _ _ _ _ _ (delegate_Ok _ _ _ Hd)).
    by rewrite (Hcount Hflag).
Qed.

Lemma GetWork_running_Ok w d s :
  pool_wf s ->
  w ∈ workers_ s ->
  delegates s !! w = Some d ->
  is_on_idle_workers_stack_ d = false ->
  GetWork w s
  = Ok match shared_priority_queue_ s with
       | [] => (None, gone_idle w d s)
       | (_, sequence) :: rest =>
           (Some sequence, set_queue (fun _ => rest) s)
       end.
Proof.
  intros Hwf Hw Hd Hflag.
  pose proof Hwf as (Hinv & Hndw & Hfresh & Hdel).
  destruct (Hdel w Hw) as (d' & Hd' & Hidle & Hcount).
  assert (d' = d) as -> by congruence.
  assert (w ∉ idle_workers_stack_ s) as Hnot.
  { intros Hin. apply Hidle in Hin. congruence. }
  pose proof (proj2 (Contains_not_elem _ _) Hnot) as Hcont.
  unfold GetWork. rewrite bind_gets.
  pose proof (proj2 (ContainsWorker_elem _ _) Hw) as Hc.
  rewrite Hc, bind_DCHECK.
  rewrite (bind_Ok _ _ _ _ _ (delegate_Ok _ _ _ Hd)).
  unfold idle_Contains at 1. rewrite bind_gets.
  rewrite Hflag, Hcont, bool_decide_true, bind_DCHECK by done.
  rewrite bind_gets.
  destruct (shared_priority_queue_ s) as [|[key sequence] rest] eqn:Hq.
  - cbn [PriorityQueue.IsEmpty].
    rewrite (bind_Ok _ _ _ _ _ (delegate_Ok _ _ _ Hd)).
    rewrite bind_modify. unfold store_delegate. rewrite bind_modify.
    unfold AddToIdleWorkersStack, idle_Contains.
    rewrite bind_assoc, bind_gets. autorewrite with pool_fields.
    rewrite Hcont. cbn [negb]. rewrite bind_assoc, bind_DCHECK.
    rewrite bind_assoc.
    erewrite bind_Ok;
      [|apply idle_Push_Ok; autorewrite with pool_fields; exact Hnot].
    rewrite bind_assoc, bind_gets, bind_assoc, bind_gets.
    autorewrite with pool_fields. cbn [SchedulerWorkerStack.Size length].
    pose proof (idle_room s w Hwf Hw Hnot) as Hroom.
    pose proof (proj2 (Nat.leb_le _ _) Hroom) as Hroom'. rewrite Hroom'.
    rewrite bind_assoc, bind_DCHECK.
    unfold gone_idle.
    destruct (S (length (idle_workers_stack_ s)) =? length (workers_ s))%nat.
    + rewrite bind_modify.
      erewrite bind_Ok; [reflexivity|].
      apply SetIsOnIdleWorkersStack_Ok; autorewrite with pool_fields.
      * apply lookup_insert_eq.
      * done.
      * apply elem_of_cons. by left.
    + rewrite bind_ret.
      erewrite bind_Ok; [reflexivity|].
      apply SetIsOnIdleWorkersStack_Ok; autorewrite with pool_fields.
      * apply lookup_insert_eq.
      * done.
      * apply elem_of_cons. by left.
  - cbn [PriorityQueue.IsEmpty PriorityQueue.PopSequence].
    rewrite bind_modify, bool_decide_true, bind_DCHECK by eauto.
    unfold idle_Contains. rewrite bind_gets. autorewrite with pool_fields.
    by rewrite Hcont.
Qed.

Lemma GetWork_Ok w s :
  pool_wf s ->
  w ∈ workers_ s ->
  GetWork w s = Ok (GetWork_spec w s)
  /\ pool_wf (snd (GetWork_spec w s)).
Proof.
  intros Hwf Hw. unfold GetWork_spec.
  pose proof Hwf as (Hinv & Hndw & Hfresh & Hdel).
  destruct (Hdel w Hw) as (d & Hd & Hidle & Hcount).
  rewrite Hd. destruct (is_on_idle_workers_stack_ d) eqn:Hflag.
  - split; [by apply GetWork_timed_out_Ok|]. cbn [snd].
    destruct (CanCleanup w s).
    + assert (pool_wf (cleaned w d s)) as Hwf'.
      { apply pool_wf_cleaned; [done|]. by apply Hidle. }
      revert Hwf'. by apply pool_wf_frame.
    + revert Hwf. by apply pool_wf_frame.
  - split; [by apply GetWork_running_Ok|].
    destruct (shared_priority_queue_ s) as [|[key sequence] rest]; cbn [snd].
    + apply pool_wf_gone_idle; [done|done|].
      intros Hin. apply Hidle in Hin. congruence.
    + revert Hwf. by apply pool_wf_frame.
Qed.

Lemma DidRunTask_Ok w s :
  pool_wf s ->
  w ∈ workers_ s ->
  w ∉ idle_workers_stack_ s ->
  exists s', DidRunTask w s = Ok (tt, s') /\ pool_wf s'.
Proof.
  intros Hwf Hw Hnot.
  pose proof Hwf as ((Hnd & Hsub & Hcap) & Hndw & Hfresh & Hdel).
  destruct (Hdel w Hw) as (d & Hd & Hidle & Hcount).
  unfold DidRunTask, store_delegate.
  rewrite (bind_Ok _ _ _ _ _ (delegate_Ok _ _ _ Hd)).
  eexists. split; [reflexivity|].
  unfold pool_wf, stack_inv, delegate_ok. autorewrite with pool_fields.
  split_and!; try done.
  intros x Hx. destruct (decide (x = w)) as [->|Hne].
  - eexists. rewrite lookup_insert_eq. split_and!; [done|..]; cbn.
    + done.
    + intros Hflag. apply Hidle in Hflag. done.
  - destruct (Hdel x Hx) as (dx & Hdx & ?). exists dx.
    by rewrite lookup_insert_ne.
Qed.

(** Every call that the process makes returns, and leaves a well-formed
    pool. *)
Lemma run_op_Ok o s :
  pool_wf s ->
  enabled thread_starts s o ->
  exists s', run_op thread_starts o s = Ok (tt, s') /\ pool_wf s'.
Proof.
  intros Hwf Hen. destruct o; cbn [run_op enabled] in *.
  - destruct Hen as [Hws Hfirst].
    destruct (Start_Ok params s Hwf Hws Hfirst) as [-> ?]. eauto.
  - unfold ScheduleSequence, queue_Push. rewrite bind_modify.
    rewrite WakeUpOneWorker_Ok.
    + eexists. split; [done|]. apply pool_wf_WakeUpOneWorker_spec.
      revert Hwf. by apply pool_wf_frame.
    + revert Hwf. by apply pool_wf_frame.
  - rewrite WakeUpOneWorker_Ok by done.
    eexists. split; [done|]. by apply pool_wf_WakeUpOneWorker_spec.
  - destruct (GetWork_Ok worker s Hwf Hen) as [Heq Hwf'].
    rewrite (bind_Ok _ _ _ _ _
               (eq_trans Heq (f_equal Ok (surjective_pairing _)))).
    eauto.
  - eexists. split; [done|]. revert Hwf. by apply pool_wf_frame.
  - destruct Hen. by apply DidRunTask_Ok.
  - eexists. split; [done|]. revert Hwf. by apply pool_wf_frame.
  - eexists. split; [done|]. revert Hwf. by apply pool_wf_frame.
Qed.


(** *** Runs of the pool *)

Lemma enabledb_enabled s o :
  enabledb thread_starts s o = true <-> enabled thread_starts s o.
Proof.
  destruct o; cbn [enabledb enabled]; try tauto.
  - rewrite andb_true_iff, bool_decide_eq_true, orb_true_iff, negb_true_iff,
      Z.ltb_ge.
    split; intros [Hws Hfirst]; (split; [done|]).
    + intros Hpos. destruct Hfirst; [lia|done].
    + destruct (Z_lt_le_dec 0 (num_initial_workers (set_params params s)));
        auto.
  - apply bool_decide_eq_true.
  - by rewrite andb_true_iff, negb_true_iff, bool_decide_eq_true,
      bool_decide_eq_false.
Qed.

Lemma run_checked_wf ops : forall s s',
  pool_wf s ->
  run_checked thread_starts ops s = Some s' ->
  pool_wf s'.
Proof.
  induction ops as [|o ops IH]; intros s s' Hwf H; cbn [run_checked] in H.
  { by injection H as <-. }
  destruct (enabledb thread_starts s o) eqn:Hen; [|discriminate].
  apply enabledb_enabled in Hen.
  destruct (run_op_Ok o s Hwf Hen) as (s1 & Hrun & Hwf1).
  rewrite Hrun in H. by apply (IH s1).
Qed.

Lemma run_checked_run_ops ops : forall s s',
  run_checked thread_starts ops s = Some s' ->
  exec (run_ops thread_starts ops) s = Ok s'.
Proof.
  induction ops as [|o ops IH]; intros s s' H; cbn [run_checked] in H.
  { by injection H as <-. }
  destruct (enabledb thread_starts s o); [|discriminate].
  destruct (run_op thread_starts o s) as [[[] s1]|f] eqn:Hrun; [|discriminate].
  apply IH in H. unfold exec in *. cbn [run_ops].
  by rewrite (bind_Ok _ _ _ _ _ Hrun).
Qed.

Lemma reachable_wf s : reachable thread_starts s -> pool_wf s.
Proof.
  intros (ops & H). eapply run_checked_wf; [|exact H]. apply initial_pool_wf.
Qed.

Lemma Push_elem sequence key q :
  (key, sequence) ∈ PriorityQueue.Push sequence key q.
Proof.
  induction q as [|[k x] q IH]; cbn [PriorityQueue.Push].
  - apply elem_of_cons. by left.
  - destruct (PriorityQueue.key_le k key); apply elem_of_cons; auto.
Qed.

(** ** The claims about the worker pool *)

(** C1: for every sequence of operations on a new pool, the state after the
    sequence (so after each of its operations, every prefix being a sequence)
    has its idle stack included in the workers list, no more idle workers
    than workers, and no more workers than [worker_capacity_]. *)
Theorem pool_invariant_after_every_operation (ops : list Op) (s' : Pool) :
  exec (run_ops thread_starts ops) initial_pool = Ok s' ->
  pool_inv s'.
Proof.
  unfold exec. intros H.
  destruct (run_ops thread_starts ops initial_pool) as [[u s1]|f] eqn:Hrun;
    [|discriminate].
  injection H as <-. apply stack_inv_pool_inv.
  eapply run_ops_stack_inv; [|exact Hrun]. apply initial_pool_stack_inv.
Qed.

(** C2: a worker that enters [GetWork] idle-marked gets no work; it is
    removed from the pool exactly when it is not the top of the idle stack
    and cleanup is permitted, and then it was not the only idle worker and
    the idle stack is not left empty; when cleanup is refused no member of
    the pool changes (one histogram sample is recorded). *)
Theorem GetWork_after_timeout (s : Pool) (w : Worker) (d : Delegate) :
  pool_wf s ->
  w ∈ workers_ s ->
  delegates s !! w = Some d ->
  is_on_idle_workers_stack_ d = true ->
  exists s',
    GetWork w s = Ok (None, s')
    /\ (w ∉ workers_ s' <->
        (head (idle_workers_stack_ s) ≠ Some w)
        /\ worker_cleanup_disallowed_ s = false)
    /\ (w ∉ workers_ s' ->
        (idle_workers_stack_ s ≠ [w])
        /\ (2 <= length (idle_workers_stack_ s))%nat
        /\ (idle_workers_stack_ s' ≠ [])
        /\ head (idle_workers_stack_ s') = head (idle_workers_stack_ s)
        /\ (w ∉ idle_workers_stack_ s')
        /\ workers_ s' = erase_first w (workers_ s))
    /\ (w ∈ workers_ s' ->
        s' = emit (EvHistogram num_tasks_between_waits_histogram_ 0) s).
Proof.
  intros Hwf Hw Hd Hflag.
  pose proof Hwf as ((Hnd & Hsub & Hcap) & Hndw & Hfresh & Hdel).
  destruct (Hdel w Hw) as (d' & Hd' & Hidle & Hcount).
  assert (d' = d) as -> by congruence.
  pose proof (proj1 Hidle Hflag) as Hin.
  eexists. split; [by apply (GetWork_timed_out_Ok w d)|].
  rewrite (Hcount Hflag).
  destruct (CanCleanup w s) eqn:Hcan.
  - apply CanCleanup_true in Hcan as Hcan'. destruct Hcan' as [Htop Hallowed].
    unfold cleaned. autorewrite with pool_fields.
    change (SchedulerWorkerStack.Remove w (idle_workers_stack_ s))
      with (erase_first w (idle_workers_stack_ s)).
    pose proof (erase_first_not_elem w (workers_ s) Hndw) as Hgone.
    split_and!; [tauto| |done].
    intros _.
    destruct (idle_workers_stack_ s) as [|top rest] eqn:Hstack.
    { by apply elem_of_nil in Hin. }
    assert (top ≠ w) as Hne by (intros ->; by apply Htop).
    apply elem_of_cons in Hin as [->|Hin]; [done|].
    cbn [erase_first]. destruct (Nat.eqb_spec top w) as [?|_]; [done|].
    split_and!.
    + intros [= -> ->]. done.
    + destruct rest; [by apply elem_of_nil in Hin | cbn [length]; lia].
    + done.
    + done.
    + apply (erase_first_not_elem w (top :: rest)) in Hnd.
      cbn [erase_first] in Hnd.
      by destruct (Nat.eqb_spec top w) as [?|_].
    + done.
  - autorewrite with pool_fields.
    split_and!; [|done|done].
    split; [done|].
    intros Hcan'%CanCleanup_true. congruence.
Qed.

(** C3: on every well-formed pool [WakeUpOneWorker] returns, and leaves the
    pool that the wording of the specification describes: with no worker,
    only the count of deferred wake-ups grows, which is taken below
    [INT_MAX] so that the [int] does not overflow; otherwise a worker is
    created and woken when the idle stack is empty and capacity remains,
    else the top of the idle stack is popped and woken; then one more worker
    is created and pushed idle when the idle stack is empty and capacity
    remains. *)
Theorem WakeUpOneWorker_refines_spec (s : Pool) :
  pool_wf s ->
  (workers_ s = [] -> num_wake_ups_before_start_ s < INT_MAX) ->
  WakeUpOneWorker thread_starts s
  = Ok (tt, WakeUpOneWorker_spec thread_starts s).
Proof. intros Hwf _. by apply WakeUpOneWorker_Ok. Qed.


Lemma filter_all_true (l : list Worker) :
  (forall w, thread_starts w = true) -> List.filter thread_starts l = l.
Proof.
  intros Hall. induction l as [|x l IH]; cbn [List.filter]; [done|].
  by rewrite Hall, IH.
Qed.

Lemma filter_length_le (l : list Worker) :
  (length (List.filter thread_starts l) <= length l)%nat.
Proof.
  induction l as [|x l IH]; cbn [List.filter length]; [lia|].
  destruct (thread_starts x); cbn [length]; lia.
Qed.

Lemma pool_wf_no_workers_no_idle s :
  pool_wf s -> workers_ s = [] -> idle_workers_stack_ s = [].
Proof.
  intros ((_ & Hsub & _) & _) Hws.
  destruct (idle_workers_stack_ s) as [|w rest]; [done|].
  exfalso. eapply elem_of_nil. rewrite <- Hws. apply Hsub, elem_of_cons. auto.
Qed.

(** C4: with capacity [c >= 1], [p] deferred wake-ups, below [INT_MAX] so
    that [p + 1] is an [int], and every thread starting, [Start] registers
    exactly [min (p + 1) c] workers; those of index below [p] are woken and
    not idle-marked, the one left (if any) is on the idle stack and
    idle-marked. *)
Theorem Start_creates_initial_workers
    (s : Pool) (c reclaim_time : Z) (compat : bool) :
  pool_wf s ->
  workers_ s = [] ->
  1 <= c <= INT_MAX ->
  0 <= num_wake_ups_before_start_ s < INT_MAX ->
  (forall w, thread_starts w = true) ->
  let p := num_wake_ups_before_start_ s in
  let k := next_worker s in
  let n := Z.to_nat (Z.min (p + 1) c) in
  exists s',
    exec (Start thread_starts
            {| max_threads := c;
               suggested_reclaim_time := reclaim_time;
               backward_compatibility := compat |}) s = Ok s'
    /\ workers_ s' = seq k n
    /\ woken (trace s') = woken (trace s) ++ seq k (Z.to_nat (Z.min p c))
    /\ idle_workers_stack_ s'
       = (if p + 1 <=? c then [(k + Z.to_nat p)%nat] else [])
    /\ (forall i, (i < n)%nat ->
        exists d, delegates s' !! (k + i)%nat = Some d
          /\ is_on_idle_workers_stack_ d = negb (Z.of_nat i <? p))
    /\ worker_capacity_ s' = c.
Proof.
  intros Hwf Hws Hc Hp Hall p k n. fold p in Hp.
  set (params := {| max_threads := c;
                    suggested_reclaim_time := reclaim_time;
                    backward_compatibility := compat |}).
  destruct (Start_Ok params s Hwf Hws) as [Hrun Hwf']; [by intros|].
  assert (num_initial_workers (set_params params s) = Z.min (p + 1) c) as Hn.
  { unfold num_initial_workers. autorewrite with pool_fields.
    unfold params. cbn [max_threads]. unfold INT_MAX in Hc.
    rewrite to_size_t_small, static_cast_int_small by (unfold INT_MAX; lia).
    done. }
  exists (Start_spec thread_starts params s).
  unfold exec. rewrite Hrun. split; [done|].
  assert (woken_rounds n 0 p = Z.to_nat (Z.min p c)) as Hrounds.
  { unfold woken_rounds, n. lia. }
  assert (workers_ (Start_spec thread_starts params s) = seq k n) as Hworkers.
  { unfold Start_spec. rewrite Start_loop_spec_workers, Hn.
    autorewrite with pool_fields. rewrite Hws, filter_all_true by done.
    done. }
  assert (idle_workers_stack_ (Start_spec thread_starts params s)
          = if p + 1 <=? c then [(k + Z.to_nat p)%nat] else []) as Hidle.
  { unfold Start_spec. rewrite Start_loop_spec_idle, Hn by done.
    autorewrite with pool_fields.
    rewrite (pool_wf_no_workers_no_idle s Hwf Hws), app_nil_r.
    fold p n k. rewrite Hrounds.
    destruct (p + 1 <=? c) eqn:Hle.
    - apply Z.leb_le in Hle.
      replace (n - Z.to_nat (Z.min p c))%nat with 1%nat by (unfold n; lia).
      replace (Z.to_nat (Z.min p c)) with (Z.to_nat p) by lia.
      reflexivity.
    - apply Z.leb_gt in Hle.
      replace (n - Z.to_nat (Z.min p c))%nat with O by (unfold n; lia).
      reflexivity. }
  split_and!.
  - done.
  - unfold Start_spec. rewrite Start_loop_spec_woken, Hn by done.
    autorewrite with pool_fields. fold p n k. by rewrite Hrounds.
  - done.
  - intros i Hi.
    destruct Hwf' as (_ & _ & _ & Hdel).
    destruct (Hdel (k + i)%nat) as (d & Hd & Hflag & _).
    { rewrite Hworkers. apply elem_of_seq. lia. }
    exists d. split; [done|].
    rewrite Hidle in Hflag.
    destruct (Z.of_nat i <? p) eqn:Hip; cbn [negb].
    + apply Z.ltb_lt in Hip.
      destruct (is_on_idle_workers_stack_ d); [|done].
      exfalso. destruct (p + 1 <=? c).
      * assert ((k + i)%nat ∈ [(k + Z.to_nat p)%nat]) as Hin by by apply Hflag.
        apply list_elem_of_singleton in Hin. lia.
      * eapply elem_of_nil. by apply Hflag.
    + apply Z.ltb_ge in Hip.
      assert (p + 1 <= c /\ Z.of_nat i = p) as [Hle Heq]
        by (unfold n in Hi; lia).
      apply Z.leb_le in Hle. rewrite Hle in Hflag.
      apply Hflag, list_elem_of_singleton. lia.
  - unfold Start_spec. rewrite Start_loop_spec_capacity.
    autorewrite with pool_fields. unfold params. cbn [max_threads].
    apply to_size_t_small. unfold INT_MAX in Hc. lia.
Qed.

(** C5: with a [max_threads] that is not negative and a count of deferred
    wake-ups that is not negative and below [INT_MAX], [Start] ends in a
    fatal [CHECK] exactly when its first round is run and the thread of the
    first worker cannot be started; otherwise it returns, whatever threads
    fail to start later, and the pool holds the workers whose thread
    started. *)
Theorem Start_fatal_iff_first_worker_fails
    (s : Pool) (params : SchedulerWorkerPoolParams) :
  pool_wf s ->
  workers_ s = [] ->
  0 <= max_threads params <= INT_MAX ->
  0 <= num_wake_ups_before_start_ s < INT_MAX ->
  let n := num_initial_workers (set_params params s) in
  (exec (Start thread_starts params) s = Abort CheckFailure <->
   0 < n /\ thread_starts (next_worker s) = false)
  /\ ((0 < n -> thread_starts (next_worker s) = true) ->
      exists s',
        exec (Start thread_starts params) s = Ok s'
        /\ workers_ s'
           = List.filter thread_starts (seq (next_worker s) (Z.to_nat n))
        /\ (length (workers_ s') <= Z.to_nat n)%nat
        /\ pool_wf s').
Proof.
  intros Hwf Hws _ _ n.
  assert ((0 < n -> thread_starts (next_worker s) = true) ->
          exists s',
            exec (Start thread_starts params) s = Ok s'
            /\ workers_ s'
               = List.filter thread_starts (seq (next_worker s) (Z.to_nat n))
            /\ (length (workers_ s') <= Z.to_nat n)%nat
            /\ pool_wf s') as Hok.
  { intros Hfirst.
    destruct (Start_Ok params s Hwf Hws Hfirst) as [Hrun Hwf'].
    exists (Start_spec thread_starts params s).
    unfold exec. rewrite Hrun. split; [done|].
    assert (workers_ (Start_spec thread_starts params s)
            = List.filter thread_starts (seq (next_worker s) (Z.to_nat n)))
      as Hworkers.
    { unfold Start_spec. rewrite Start_loop_spec_workers.
      autorewrite with pool_fields. by rewrite Hws. }
    split_and!; [done| |done].
    rewrite Hworkers.
    etrans; [apply filter_length_le|]. by rewrite length_seq. }
  split; [|exact Hok].
  split.
  - intros Habort.
    destruct (Z_lt_le_dec 0 n) as [Hpos|Hneg].
    + split; [done|].
      destruct (thread_starts (next_worker s)) eqn:Ht; [|done].
      destruct Hok as (s' & Hrun & _); [done|]. congruence.
    + destruct Hok as (s' & Hrun & _); [lia|]. congruence.
  - intros [Hpos Ht]. unfold exec.
    by rewrite (Start_CheckFailure params s Hws Hpos Ht).
Qed.

(** C6: [ReEnqueueSequence] returns and only pushes the sequence into the
    shared queue under its sort key: the idle stack, the workers, the count
    of deferred wake-ups, the delegates and the trace (so no wake-up) are as
    before; [ScheduleSequence] is the same push followed by
    [WakeUpOneWorker]. *)
Theorem ReEnqueueSequence_wakes_no_worker (s : Pool) (sequence : Sequence) :
  let s' :=
    set_queue (PriorityQueue.Push sequence (GetSortKey sequence)) s in
  ReEnqueueSequence sequence s = Ok (tt, s')
  /\ (GetSortKey sequence, sequence) ∈ shared_priority_queue_ s'
  /\ idle_workers_stack_ s' = idle_workers_stack_ s
  /\ workers_ s' = workers_ s
  /\ num_wake_ups_before_start_ s' = num_wake_ups_before_start_ s
  /\ delegates s' = delegates s
  /\ trace s' = trace s
  /\ ScheduleSequence thread_starts sequence s
     = WakeUpOneWorker thread_starts s'.
Proof.
  intros s'. split_and!; try reflexivity.
  unfold s'. autorewrite with pool_fields. apply Push_elem.
Qed.

(** C10: with workers, an empty idle stack and the pool at capacity,
    [WakeUpOneWorker] changes nothing; a sequence scheduled then only enters
    the queue, and the next [GetWork] of any worker of the pool returns the
    sequence at the head of the queue. *)
Theorem WakeUpOneWorker_at_capacity (s : Pool) :
  workers_ s ≠ [] ->
  idle_workers_stack_ s = [] ->
  Z.of_nat (length (workers_ s)) = worker_capacity_ s ->
  WakeUpOneWorker thread_starts s = Ok (tt, s)
  /\ forall sequence,
       let s1 :=
         set_queue (PriorityQueue.Push sequence (GetSortKey sequence)) s in
       ScheduleSequence thread_starts sequence s = Ok (tt, s1)
       /\ (GetSortKey sequence, sequence) ∈ shared_priority_queue_ s1
       /\ (pool_wf s ->
           forall w, w ∈ workers_ s ->
           exists next s2,
             GetWork w s1 = Ok (Some next, s2)
             /\ PriorityQueue.PopSequence (shared_priority_queue_ s1)
                = (Some next, shared_priority_queue_ s2)).
Proof.
  intros Hws Hidle Hfull.
  assert (forall s0 : Pool,
            workers_ s0 = workers_ s ->
            idle_workers_stack_ s0 = [] ->
            worker_capacity_ s0 = worker_capacity_ s ->
            WakeUpOneWorker thread_starts s0 = Ok (tt, s0)) as Hdrop.
  { intros s0 Hw0 Hi0 Hc0. unfold WakeUpOneWorker.
    rewrite bind_gets, Hw0.
    destruct (workers_ s) as [|w0 ws] eqn:Hwork; [done|].
    unfold idle_IsEmpty at 1, below_capacity at 1. rewrite !bind_gets.
    rewrite Hw0, Hc0, <- Hfull, Z.ltb_irrefl, andb_false_r.
    rewrite (bind_Ok _ _ _ _ _ (idle_Pop_eq s0)), Hi0. cbn [head tail].
    rewrite (set_idle_same s0 []) by done.
    rewrite bind_ret. unfold idle_IsEmpty, below_capacity.
    rewrite !bind_gets, Hw0, Hc0, <- Hfull, Z.ltb_irrefl, andb_false_r.
    done. }
  split; [by apply Hdrop|].
  intros sequence s1. split_and!.
  - unfold ScheduleSequence, queue_Push. rewrite bind_modify.
    by apply Hdrop.
  - unfold s1. autorewrite with pool_fields. apply Push_elem.
  - intros Hwf w Hw.
    assert (pool_wf s1) as Hwf1 by (revert Hwf; by apply pool_wf_frame).
    pose proof Hwf as (_ & _ & _ & Hdel).
    destruct (Hdel w Hw) as (d & Hd & Hflag & _).
    assert (is_on_idle_workers_stack_ d = false) as Hrunning.
    { destruct (is_on_idle_workers_stack_ d); [|done].
      exfalso. eapply elem_of_nil. rewrite <- Hidle. by apply Hflag. }
    pose proof (GetWork_running_Ok w d s1 Hwf1 Hw Hd Hrunning) as Hget.
    pose proof (Push_elem sequence (GetSortKey sequence)
                  (shared_priority_queue_ s)) as Hin.
    change (shared_priority_queue_ s1)
      with (PriorityQueue.Push sequence (GetSortKey sequence)
              (shared_priority_queue_ s)) in *.
    destruct (PriorityQueue.Push sequence (GetSortKey sequence)
                (shared_priority_queue_ s)) as [|[key next] rest].
    { by apply elem_of_nil in Hin. }
    exists next, (set_queue (fun _ => rest) s1). split; [done|].
    by autorewrite with pool_fields.
Qed.

End Facts.

(** *** The sample pools *)

Lemma pool_before_start_wf : pool_wf pool_before_start.
Proof.
  apply (run_checked_wf every_thread_starts ops_before_start initial_pool);
    [apply initial_pool_wf | vm_compute; reflexivity].
Qed.

Lemma pool_started_wf : pool_wf pool_started.
Proof.
  apply (run_checked_wf every_thread_starts ops_started initial_pool);
    [apply initial_pool_wf | vm_compute; reflexivity].
Qed.

Lemma pool_two_idle_wf : pool_wf pool_two_idle.
Proof.
  apply (run_checked_wf every_thread_starts ops_two_idle initial_pool);
    [apply initial_pool_wf | vm_compute; reflexivity].
Qed.

Lemma pool_at_capacity_wf : pool_wf pool_at_capacity.
Proof.
  apply (run_checked_wf every_thread_starts ops_at_capacity initial_pool);
    [apply initial_pool_wf | vm_compute; reflexivity].
Qed.

Lemma pool_invariant_after_every_operation_witness :
  pool_inv pool_two_idle.
Proof.
  apply (pool_invariant_after_every_operation every_thread_starts
           ops_two_idle).
  vm_compute. reflexivity.
Defined.

Lemma GetWork_after_timeout_witness :
  exists s',
    GetWork 2%nat pool_two_idle = Ok (None, s')
    /\ workers_ s' = [0%nat; 1%nat]
    /\ idle_workers_stack_ s' ≠ [].
Proof.
  destruct (GetWork_after_timeout every_thread_starts pool_two_idle 2%nat
              new_delegate)
    as (s' & Hget & Hiff & Hcleaned & _).
  - apply pool_two_idle_wf.
  - vm_compute. repeat constructor.
  - vm_compute. reflexivity.
  - reflexivity.
  - exists s'. split; [exact Hget|].
    destruct Hcleaned as (_ & _ & Hidle & _ & _ & Hws).
    + apply Hiff. split; [vm_compute; discriminate | reflexivity].
    + split; [exact Hws | exact Hidle].
Defined.

Lemma WakeUpOneWorker_refines_spec_witness :
  WakeUpOneWorker every_thread_starts pool_started
  = Ok (tt, WakeUpOneWorker_spec every_thread_starts pool_started)
  /\ WakeUpOneWorker every_thread_starts pool_before_start
     = Ok (tt, WakeUpOneWorker_spec every_thread_starts pool_before_start).
Proof.
  split.
  - apply (WakeUpOneWorker_refines_spec every_thread_starts pool_started).
    + apply pool_started_wf.
    + intros Hws. vm_compute in Hws. discriminate Hws.
  - apply (WakeUpOneWorker_refines_spec every_thread_starts
             pool_before_start).
    + apply pool_before_start_wf.
    + intros _. vm_compute. reflexivity.
Defined.

Lemma Start_creates_initial_workers_witness :
  exists s',
    exec (Start every_thread_starts (params_of 4)) pool_before_start = Ok s'
    /\ workers_ s' = [0%nat; 1%nat; 2%nat]
    /\ woken (trace s') = [0%nat; 1%nat]
    /\ idle_workers_stack_ s' = [2%nat].
Proof.
  destruct (Start_creates_initial_workers every_thread_starts
              pool_before_start 4 30 false)
    as (s' & Hrun & Hws & Hwoken & Hidle & _).
  - apply pool_before_start_wf.
  - reflexivity.
  - vm_compute. split; discriminate.
  - vm_compute. split; [discriminate | reflexivity].
  - reflexivity.
  - exists s'. split_and!; [exact Hrun | exact Hws | exact Hwoken | exact Hidle].
Defined.

Lemma Start_fatal_iff_first_worker_fails_witness :
  exists s',
    exec (Start only_first_thread_starts (params_of 4)) pool_before_start
    = Ok s'
    /\ workers_ s' = [0%nat].
Proof.
  destruct (Start_fatal_iff_first_worker_fails only_first_thread_starts
              pool_before_start (params_of 4))
    as (_ & Hok).
  - apply pool_before_start_wf.
  - reflexivity.
  - vm_compute. split; discriminate.
  - vm_compute. split; [discriminate | reflexivity].
  - destruct Hok as (s' & Hrun & Hws & _).
    + reflexivity.
    + exists s'. split; [exact Hrun | exact Hws].
Defined.

Lemma WakeUpOneWorker_at_capacity_witness :
  WakeUpOneWorker every_thread_starts pool_at_capacity
  = Ok (tt, pool_at_capacity).
Proof.
  apply (WakeUpOneWorker_at_capacity every_thread_starts pool_at_capacity).
  - vm_compute. discriminate.
  - reflexivity.
  - reflexivity.
Defined.

End WorkerPoolFacts.

(** ** The thread controller *)

Module ThreadControllerFacts.
Import WorkDeduplicator ThreadController MonadFacts.

Section Facts.
Context {Src : Type} `{SequencedTaskSource Src}.

Implicit Types c : Controller Src.

Lemma ScheduleWork_Ok c : ScheduleWork c = Ok (tt, ScheduleWork_spec c).
Proof.
  unfold ScheduleWork, ScheduleWork_spec, deduplicator_OnWorkRequested, bind,
    PostTask_immediate, modify, ret.
  by destruct (OnWorkRequested (work_deduplicator_ c)) as [[] st].
Qed.

Lemma RunTask_Ok task c : RunTask task c = Ok (tt, RunTask_spec task c).
Proof.
  unfold RunTask, RunTask_spec. rewrite bind_modify.
  destruct (task_requests_work task).
  - rewrite (bind_Ok _ _ _ _ _ (ScheduleWork_Ok _)).
    by destruct (task_deletes_controller task).
  - rewrite bind_ret. by destruct (task_deletes_controller task).
Qed.

(** Members after [ScheduleWork]. *)
Lemma ScheduleWork_spec_tasks_run c :
  tasks_run (ScheduleWork_spec c) = tasks_run c.
Proof.
  unfold ScheduleWork_spec.
  by destruct (OnWorkRequested (work_deduplicator_ c)) as [[] st].
Qed.
Lemma ScheduleWork_spec_sequence c :
  sequence_ (ScheduleWork_spec c) = sequence_ c.
Proof.
  unfold ScheduleWork_spec.
  by destruct (OnWorkRequested (work_deduplicator_ c)) as [[] st].
Qed.
Lemma ScheduleWork_spec_run_levels c :
  run_level_tracker (ScheduleWork_spec c) = run_level_tracker c.
Proof.
  unfold ScheduleWork_spec.
  by destruct (OnWorkRequested (work_deduplicator_ c)) as [[] st].
Qed.
Lemma ScheduleWork_spec_work_batch_size c :
  work_batch_size_ (ScheduleWork_spec c) = work_batch_size_ c.
Proof.
  unfold ScheduleWork_spec.
  by destruct (OnWorkRequested (work_deduplicator_ c)) as [[] st].
Qed.
Lemma ScheduleWork_spec_weak_ptr_valid c :
  weak_ptr_valid (ScheduleWork_spec c) = weak_ptr_valid c.
Proof.
  unfold ScheduleWork_spec.
  by destruct (OnWorkRequested (work_deduplicator_ c)) as [[] st].
Qed.

(** Members after a task has run. *)
Lemma RunTask_spec_tasks_run task c :
  tasks_run (RunTask_spec task c) = tasks_run c ++ [task].
Proof.
  unfold RunTask_spec.
  destruct (task_deletes_controller task), (task_requests_work task);
    cbn [tasks_run set_weak_ptr_valid];
    rewrite ?ScheduleWork_spec_tasks_run; done.
Qed.
Lemma RunTask_spec_sequence task c :
  sequence_ (RunTask_spec task c) = sequence_ c.
Proof.
  unfold RunTask_spec.
  destruct (task_deletes_controller task), (task_requests_work task);
    cbn [sequence_ set_weak_ptr_valid];
    rewrite ?ScheduleWork_spec_sequence; done.
Qed.
Lemma RunTask_spec_run_levels task c :
  run_level_tracker (RunTask_spec task c) = run_level_tracker c.
Proof.
  unfold RunTask_spec.
  destruct (task_deletes_controller task), (task_requests_work task);
    cbn [run_level_tracker set_weak_ptr_valid];
    rewrite ?ScheduleWork_spec_run_levels; done.
Qed.
Lemma RunTask_spec_work_batch_size task c :
  work_batch_size_ (RunTask_spec task c) = work_batch_size_ c.
Proof.
  unfold RunTask_spec.
  destruct (task_deletes_controller task), (task_requests_work task);
    cbn [work_batch_size_ set_weak_ptr_valid];
    rewrite ?ScheduleWork_spec_work_batch_size; done.
Qed.
Lemma RunTask_spec_weak_ptr_valid task c :
  weak_ptr_valid (RunTask_spec task c)
  = weak_ptr_valid c && negb (task_deletes_controller task).
Proof.
  unfold RunTask_spec.
  destruct (task_deletes_controller task), (task_requests_work task);
    cbn [weak_ptr_valid set_weak_ptr_valid negb];
    rewrite ?ScheduleWork_spec_weak_ptr_valid;
    cbn [weak_ptr_valid record_task];
    by rewrite ?andb_true_r, ?andb_false_r.
Qed.

Lemma on_sequence_Ok {A} (f : Src -> A * Src) c src :
  sequence_ c = Some src ->
  on_sequence f c = Ok (fst (f src), set_sequence (Some (snd (f src))) c).
Proof. unfold on_sequence. intros ->. by destruct (f src). Qed.

Lemma set_top_length x (levels : list RunLevelState) :
  length (set_top x levels) = length levels.
Proof. by destruct levels. Qed.


Lemma handed_out_length n src : (length (handed_out n src) <= n)%nat.
Proof.
  revert src. induction n as [|n IH]; intros src; cbn [handed_out]; [done|].
  destruct (SelectNextTask src) as [[task|] src']; cbn [length]; [|lia].
  specialize (IH (DidRunTask src')). lia.
Qed.

(** The loop of [DoWork] returns; it runs a prefix of what the source hands
    out in [n] calls: all of it unless the run loop is nested or a task
    destroys the controller. *)
Lemma DoWork_batch_Ok n : forall c src,
  sequence_ c = Some src ->
  run_level_tracker c ≠ [] ->
  weak_ptr_valid c = true ->
  exists valid c' ran,
    DoWork_batch n c = Ok (valid, c')
    /\ tasks_run c' = tasks_run c ++ ran
    /\ ran `prefix_of` handed_out n src
    /\ ((1 < num_run_levels c)%nat -> (length ran <= 1)%nat)
    /\ ((num_run_levels c <= 1)%nat ->
        Forall (fun t => task_deletes_controller t = false)
          (handed_out n src) ->
        ran = handed_out n src /\ valid = true)
    /\ (valid = true -> is_Some (sequence_ c'))
    /\ work_batch_size_ c' = work_batch_size_ c.
Proof.
  induction n as [|n IH]; intros c src Hseq Hlev Hvalid.
  { exists true, c, []. cbn [DoWork_batch handed_out].
    rewrite app_nil_r. split_and!; eauto; cbn [length]; lia. }
  cbn [DoWork_batch handed_out].
  rewrite (bind_Ok _ _ _ _ _ (on_sequence_Ok SelectNextTask c src Hseq)).
  destruct (SelectNextTask src) as [[task|] src'] eqn:Hsel; cbn [fst snd].
  2: { exists true, (set_sequence (Some src') c), [].
       rewrite app_nil_r. split_and!; eauto; cbn [length]; lia. }
  rewrite bind_gets.
  assert (num_run_levels (set_sequence (Some src') c) = num_run_levels c)
    as -> by reflexivity.
  assert ((0 <? num_run_levels c)%nat = true) as ->.
  { apply Nat.ltb_lt. unfold num_run_levels.
    destruct (run_level_tracker c); [done | cbn [length]; lia]. }
  rewrite bind_DCHECK. unfold OnTaskStarted. rewrite bind_modify.
  set (c2 := set_run_levels (set_top kRunningTask)
               (set_sequence (Some src') c)).
  rewrite (bind_Ok _ _ _ _ _ (RunTask_Ok task c2)).
  rewrite bind_gets, RunTask_spec_weak_ptr_valid.
  assert (weak_ptr_valid c2 = true) as -> by exact Hvalid.
  cbn [andb].
  destruct (task_deletes_controller task) eqn:Hdel; cbn [negb].
  { (* the task destroyed the controller *)
    exists false, (RunTask_spec task c2), [task].
    split_and!.
    - done.
    - by rewrite RunTask_spec_tasks_run.
    - by apply prefix_cons, prefix_nil.
    - cbn [length]. lia.
    - intros _ Hall. apply Forall_cons in Hall as [Hno _]. congruence.
    - done.
    - by rewrite RunTask_spec_work_batch_size. }
  assert (sequence_ (RunTask_spec task c2) = Some src') as Hseq3.
  { by rewrite RunTask_spec_sequence. }
  rewrite (bind_Ok _ _ _ _ _
             (on_sequence_Ok (fun src => (tt, DidRunTask src)) _ _ Hseq3)).
  cbn [fst snd]. unfold OnTaskEnded. rewrite bind_modify, bind_gets.
  set (c5 := set_run_levels (set_top kSelectingNextTask)
               (set_sequence (Some (DidRunTask src'))
                  (RunTask_spec task c2))).
  assert (run_level_tracker c5
          = set_top kSelectingNextTask
              (set_top kRunningTask (run_level_tracker c))) as Hlev5.
  { unfold c5. cbn [run_level_tracker set_run_levels set_sequence].
    by rewrite RunTask_spec_run_levels. }
  assert (num_run_levels c5 = num_run_levels c) as Hnum5.
  { unfold num_run_levels. by rewrite Hlev5, !set_top_length. }
  assert (tasks_run c5 = tasks_run c ++ [task]) as Hran5.
  { unfold c5. cbn [tasks_run set_run_levels set_sequence].
    by rewrite RunTask_spec_tasks_run. }
  assert (work_batch_size_ c5 = work_batch_size_ c) as Hbatch5.
  { unfold c5. cbn [work_batch_size_ set_run_levels set_sequence].
    by rewrite RunTask_spec_work_batch_size. }
  rewrite Hnum5.
  destruct (1 <? num_run_levels c)%nat eqn:Hnested.
  { (* nested: no batching *)
    apply Nat.ltb_lt in Hnested.
    exists true, c5, [task]. split_and!.
    - done.
    - done.
    - by apply prefix_cons, prefix_nil.
    - cbn [length]. lia.
    - intros Hle. lia.
    - intros _. by eexists.
    - done. }
  apply Nat.ltb_ge in Hnested.
  destruct (IH c5 (DidRunTask src')) as
    (valid & c' & ran & Hrun & Htasks & Hprefix & _ & Hexact & Hseq' & Hbatch).
  { reflexivity. }
  { rewrite Hlev5. destruct (run_level_tracker c); [done | discriminate]. }
  { unfold c5. cbn [weak_ptr_valid set_run_levels set_sequence].
    rewrite RunTask_spec_weak_ptr_valid, Hdel, andb_true_r. exact Hvalid. }
  exists valid, c', (task :: ran). split_and!.
  - done.
  - by rewrite Htasks, Hran5, <- app_assoc.
  - by apply prefix_cons.
  - intros Hlt. lia.
  - intros Hle Hall. apply Forall_cons in Hall as [_ Hall].
    destruct Hexact as [-> ->]; [lia|done|]. done.
  - done.
  - by rewrite Hbatch, Hbatch5.
Qed.


(** The part of [DoWork] after the loop returns; it runs no task, and posts
    nothing, or one immediate [DoWork], or one delayed [DoWork] at the time
    of the next task. *)
Lemma DoWork_continuation_Ok time_now c src :
  sequence_ c = Some src ->
  exists c',
    DoWork_continuation time_now c = Ok (tt, c')
    /\ tasks_run c' = tasks_run c
    /\ work_batch_size_ c' = work_batch_size_ c
    /\ weak_ptr_valid c' = weak_ptr_valid c
    /\ (posted c' = posted c
        \/ posted c' = posted c ++ [PostTask_immediate_do_work]
        \/ exists t,
             posted c'
             = posted c
               ++ [PostDelayedTask_delayed_do_work
                     (S (generation (cancelable_delayed_do_work_closure_ c)))
                     (t - time_now)]
             /\ next_delayed_do_work c' = t
             /\ t ≠ next_delayed_do_work c
             /\ t ≠ TimeTicks_Max
             /\ t ≠ TimeTicks_null
             /\ is_cancelled (cancelable_delayed_do_work_closure_ c')
                = false).
Proof.
  intros Hseq.
  unfold DoWork_continuation, deduplicator_WillCheckForMoreWork.
  rewrite bind_modify.
  set (c1 := set_deduplicator _ _ c).
  assert (sequence_ c1 = Some src) as Hseq1 by exact Hseq.
  rewrite (bind_Ok _ _ _ _ _ (on_sequence_Ok _ c1 src Hseq1)). cbn [fst snd].
  set (src2 := RemoveAllCanceledDelayedTasksFromFront time_now src).
  set (c2 := set_sequence (Some src2) c1).
  assert (sequence_ c2 = Some src2) as Hseq2 by reflexivity.
  rewrite (bind_Ok _ _ _ _ _ (on_sequence_Ok _ c2 src2 Hseq2)). cbn [fst snd].
  set (t := GetNextTaskTime time_now src2).
  set (c3 := set_sequence (Some src2) c2).
  assert (sequence_ c3 = Some src2) as Hseq3 by reflexivity.
  assert (forall c4 : Controller Src,
            tasks_run c4 = tasks_run c ->
            work_batch_size_ c4 = work_batch_size_ c ->
            weak_ptr_valid c4 = weak_ptr_valid c ->
            posted c4 = posted c ->
            next_delayed_do_work c4 = next_delayed_do_work c ->
            cancelable_delayed_do_work_closure_ c4
            = cancelable_delayed_do_work_closure_ c ->
            forall immediate : bool,
            (immediate = false -> t ≠ TimeTicks_null) ->
            exists c',
              (if immediate
               then
                 bind (deduplicator_DidCheckForMoreWork kIsImmediate)
                   (fun answer =>
                      match answer with
                      | kScheduleImmediate => PostTask_immediate
                      | kNotNeeded => ret tt
                      end)
               else
                 bind (deduplicator_DidCheckForMoreWork kIsDelayed)
                   (fun answer =>
                      match answer with
                      | kScheduleImmediate => PostTask_immediate
                      | kNotNeeded =>
                          bind OnIdle (fun _ =>
                            if t =? TimeTicks_Max
                            then
                              bind (modify
                                      (set_next_delayed_do_work TimeTicks_Max))
                                (fun _ => modify (set_cancelable Cancel))
                            else
                              bind (gets next_delayed_do_work) (fun next =>
                                if t =? next then ret tt
                                else
                                  bind (modify (set_next_delayed_do_work t))
                                    (fun _ =>
                                       bind (modify (set_cancelable Reset))
                                         (fun _ =>
                                            PostDelayedTask_cancelable
                                              (t - time_now)))))
                      end)) c4 = Ok (tt, c')
              /\ tasks_run c' = tasks_run c
              /\ work_batch_size_ c' = work_batch_size_ c
              /\ weak_ptr_valid c' = weak_ptr_valid c
              /\ (posted c' = posted c
                  \/ posted c' = posted c ++ [PostTask_immediate_do_work]
                  \/ exists t,
                       posted c'
                       = posted c
                         ++ [PostDelayedTask_delayed_do_work
                               (S (generation
                                     (cancelable_delayed_do_work_closure_ c)))
                               (t - time_now)]
                       /\ next_delayed_do_work c' = t
                       /\ t ≠ next_delayed_do_work c
                       /\ t ≠ TimeTicks_Max
                       /\ t ≠ TimeTicks_null
                       /\ is_cancelled
                            (cancelable_delayed_do_work_closure_ c')
                          = false)) as Htail.
  { intros c4 Htasks Hbatch Hweak Hposted Hnext Hcancel immediate Himm.
    destruct immediate.
    - unfold deduplicator_DidCheckForMoreWork, bind, PostTask_immediate,
        modify.
      cbn [DidCheckForMoreWork]. eexists. split; [reflexivity|].
      cbn [tasks_run work_batch_size_ weak_ptr_valid posted post
           set_deduplicator].
      rewrite Hposted. split_and!; auto.
    - unfold deduplicator_DidCheckForMoreWork, bind at 1.
      destruct (DidCheckForMoreWork kIsDelayed (work_deduplicator_ c4))
        as [[] st].
      + unfold PostTask_immediate, modify. eexists. split; [reflexivity|].
        cbn [tasks_run work_batch_size_ weak_ptr_valid posted post
             set_deduplicator].
        rewrite Hposted. split_and!; auto.
      + unfold OnIdle. rewrite bind_modify.
        destruct (t =? TimeTicks_Max) eqn:Hmax.
        * rewrite bind_modify. unfold modify. eexists. split; [reflexivity|].
          cbn [tasks_run work_batch_size_ weak_ptr_valid posted
               set_deduplicator set_run_levels set_cancelable
               set_next_delayed_do_work].
          split_and!; auto.
        * rewrite bind_gets.
          cbn [next_delayed_do_work set_run_levels set_deduplicator].
          destruct (t =? next_delayed_do_work c4) eqn:Hsame.
          -- unfold ret. eexists. split; [reflexivity|].
             cbn [tasks_run work_batch_size_ weak_ptr_valid posted
                  set_deduplicator set_run_levels].
             split_and!; auto.
          -- rewrite !bind_modify. unfold PostDelayedTask_cancelable, modify.
             eexists. split; [reflexivity|].
             cbn [tasks_run work_batch_size_ weak_ptr_valid posted post
                  set_deduplicator set_run_levels set_cancelable
                  set_next_delayed_do_work next_delayed_do_work
                  cancelable_delayed_do_work_closure_ generation Reset
                  is_cancelled].
             rewrite Hposted, Hcancel. split_and!; auto.
             right. right. exists t. rewrite <- Hnext.
             apply Z.eqb_neq in Hmax, Hsame. split_and!; auto. }
  destruct (t =? TimeTicks_null) eqn:Hnull.
  - rewrite bind_ret.
    apply (Htail c3 eq_refl eq_refl eq_refl eq_refl eq_refl eq_refl true).
    discriminate.
  - rewrite (bind_Ok _ _ _ _ _ (on_sequence_Ok OnSystemIdle c3 src2 Hseq3)).
    apply (Htail (set_sequence (Some (snd (OnSystemIdle src2))) c3)
             eq_refl eq_refl eq_refl eq_refl eq_refl eq_refl
             (fst (OnSystemIdle src2))).
    intros _. by apply Z.eqb_neq.
Qed.


Lemma has_sequence_Some c src : sequence_ c = Some src -> has_sequence c = true.
Proof. unfold has_sequence. by intros ->. Qed.

(** [DoWork] returns; the tasks it ran are those of its loop. *)
Lemma DoWork_Ok work_type time_now c src :
  sequence_ c = Some src ->
  run_level_tracker c ≠ [] ->
  weak_ptr_valid c = true ->
  exists c' ran,
    DoWork work_type time_now c = Ok (tt, c')
    /\ tasks_run c' = tasks_run c ++ ran
    /\ ran `prefix_of` handed_out (Z.to_nat (work_batch_size_ c)) src
    /\ ((1 < num_run_levels c)%nat -> (length ran <= 1)%nat)
    /\ ((num_run_levels c <= 1)%nat ->
        Forall (fun t => task_deletes_controller t = false)
          (handed_out (Z.to_nat (work_batch_size_ c)) src) ->
        ran = handed_out (Z.to_nat (work_batch_size_ c)) src)
    /\ work_batch_size_ c' = work_batch_size_ c.
Proof.
  intros Hseq Hlev Hvalid. unfold DoWork.
  rewrite bind_gets, (has_sequence_Some c src Hseq), bind_DCHECK.
  unfold deduplicator_OnWorkStarted. rewrite bind_modify, bind_gets.
  set (c0 := set_deduplicator CallOnWorkStarted _ c).
  assert (work_batch_size_ c0 = work_batch_size_ c) as -> by reflexivity.
  destruct (DoWork_batch_Ok (Z.to_nat (work_batch_size_ c)) c0 src)
    as (valid & c1 & ran & Hrun & Htasks & Hprefix & Hnested & Hexact
        & Hseq1 & Hbatch); [done..|].
  rewrite (bind_Ok _ _ _ _ _ Hrun).
  destruct valid; cbn [negb].
  - destruct Hseq1 as [src1 Hseq1]; [done|].
    destruct (DoWork_continuation_Ok time_now c1 src1 Hseq1)
      as (c' & Hcont & Htasks' & Hbatch' & _).
    exists c', ran. split_and!; try done.
    + by rewrite Htasks', Htasks.
    + intros Hle Hall. by destruct (Hexact Hle Hall).
    + by rewrite Hbatch', Hbatch.
  - exists c1, ran. split_and!; try done.
    intros Hle Hall. by destruct (Hexact Hle Hall).
Qed.

Lemma OnBeginNestedRunLoop_Ok c :
  exists c',
    OnBeginNestedRunLoop c = Ok (tt, c')
    /\ posted c' = posted c ++ [PostTask_immediate_do_work]
    /\ run_level_tracker c' = kSelectingNextTask :: run_level_tracker c
    /\ deduplicator_calls c' = deduplicator_calls c ++ [CallOnWorkRequested]
    /\ work_deduplicator_ c' = snd (OnWorkRequested (work_deduplicator_ c)).
Proof.
  unfold OnBeginNestedRunLoop, OnRunLoopStarted, PostTask_immediate.
  rewrite bind_modify. unfold deduplicator_OnWorkRequested, bind at 1.
  cbn [work_deduplicator_ set_run_levels].
  destruct (OnWorkRequested (work_deduplicator_ c)) as [answer st].
  rewrite bind_modify, bind_gets.
  cbn [nesting_observer_ post set_deduplicator set_run_levels].
  destruct (nesting_observer_ c); eexists; (split; [reflexivity|]);
    split_and!; reflexivity.
Qed.

(** ** The claims about the thread controller *)

(** C7: [ScheduleWork] consults the deduplicator once and posts an immediate
    [DoWork] exactly when the answer is [kScheduleImmediate]; from an idle
    deduplicator the first of two requests posts and the second does
    not. *)
Theorem ScheduleWork_posts_iff_requested c :
  exists c',
    ScheduleWork c = Ok (tt, c')
    /\ deduplicator_calls c' = deduplicator_calls c ++ [CallOnWorkRequested]
    /\ posted c'
       = (if should_schedule (fst (OnWorkRequested (work_deduplicator_ c)))
          then posted c ++ [PostTask_immediate_do_work]
          else posted c)
    /\ (work_deduplicator_ c = Idle ->
        posted c' = posted c ++ [PostTask_immediate_do_work]
        /\ exists c'',
             ScheduleWork c' = Ok (tt, c'')
             /\ posted c'' = posted c').
Proof.
  exists (ScheduleWork_spec c). split; [apply ScheduleWork_Ok|].
  unfold ScheduleWork_spec.
  destruct (work_deduplicator_ c) eqn:Hst; cbn [OnWorkRequested fst snd].
  all: split_and!; try reflexivity; try discriminate.
  intros _. split; [reflexivity|].
  eexists. split; [apply ScheduleWork_Ok|]. reflexivity.
Qed.

(** C8: [DoWork] runs a prefix of the tasks that its source hands out in
    [work_batch_size_] calls, so at most that many and none after a call
    that returned no task; at most one while the run loop is nested; all of
    them otherwise, unless a task destroys the controller.  Entering a nested
    run loop posts an immediate [DoWork] whatever the deduplicator
    answers. *)
Theorem DoWork_runs_a_bounded_batch
    (work_type : WorkType) (time_now : TimeTicks) c (src : Src) :
  sequence_ c = Some src ->
  run_level_tracker c ≠ [] ->
  weak_ptr_valid c = true ->
  (exists c' ran,
     DoWork work_type time_now c = Ok (tt, c')
     /\ tasks_run c' = tasks_run c ++ ran
     /\ ran `prefix_of` handed_out (Z.to_nat (work_batch_size_ c)) src
     /\ Z.of_nat (length ran) <= Z.max 0 (work_batch_size_ c)
     /\ ((1 < num_run_levels c)%nat -> (length ran <= 1)%nat)
     /\ ((num_run_levels c <= 1)%nat ->
         Forall (fun t => task_deletes_controller t = false)
           (handed_out (Z.to_nat (work_batch_size_ c)) src) ->
         ran = handed_out (Z.to_nat (work_batch_size_ c)) src))
  /\ (forall c0 : Controller Src,
        exists c1,
          OnBeginNestedRunLoop c0 = Ok (tt, c1)
          /\ posted c1 = posted c0 ++ [PostTask_immediate_do_work]
          /\ num_run_levels c1 = S (num_run_levels c0)).
Proof.
  intros Hseq Hlev Hvalid. split.
  - destruct (DoWork_Ok work_type time_now c src Hseq Hlev Hvalid)
      as (c' & ran & Hrun & Htasks & Hprefix & Hnested & Hexact & _).
    exists c', ran. split_and!; try done.
    apply prefix_length in Hprefix.
    pose proof (handed_out_length (Z.to_nat (work_batch_size_ c)) src). lia.
  - intros c0.
    destruct (OnBeginNestedRunLoop_Ok c0) as (c1 & Hrun & Hposted & Hlev1 & _).
    exists c1. split_and!; [done|done|].
    unfold num_run_levels. by rewrite Hlev1.
Qed.

(** C9: when [run_time] is the recorded [next_delayed_do_work],
    [SetNextDelayedDoWork] returns and changes nothing: no task is posted,
    no call is made on the deduplicator, the time and the cancelable closure
    are as before. *)
Theorem SetNextDelayedDoWork_same_time_is_noop
    (lazy_now run_time : TimeTicks) c :
  has_sequence c = true ->
  next_delayed_do_work c = run_time ->
  SetNextDelayedDoWork lazy_now run_time c = Ok (tt, c).
Proof.
  intros Hbound Hsame. unfold SetNextDelayedDoWork.
  rewrite bind_gets, Hbound, bind_DCHECK, bind_gets, Hsame, Z.eqb_refl.
  reflexivity.
Qed.

End Facts.

Lemma ScheduleWork_posts_iff_requested_witness :
  exists c',
    ScheduleWork (sample_controller 1) = Ok (tt, c')
    /\ posted c' = [PostTask_immediate_do_work].
Proof.
  destruct (ScheduleWork_posts_iff_requested (sample_controller 1))
    as (c' & Hrun & _ & _ & Hidle).
  exists c'. split; [exact Hrun|].
  destruct Hidle as [Hposted _]; [reflexivity|]. exact Hposted.
Defined.

Lemma DoWork_runs_a_bounded_batch_witness :
  exists c' ran,
    DoWork kImmediate 5 (sample_controller 3) = Ok (tt, c')
    /\ tasks_run c' = ran
    /\ (length ran <= 1)%nat.
Proof.
  destruct (DoWork_runs_a_bounded_batch kImmediate 5 (sample_controller 3)
              (fake_source 3))
    as [(c' & ran & Hrun & Htasks & _ & Hle & _) _].
  - reflexivity.
  - discriminate.
  - reflexivity.
  - exists c', ran. split_and!; [exact Hrun | exact Htasks|].
    change (work_batch_size_ (sample_controller 3)) with 1 in Hle. lia.
Defined.

Lemma SetNextDelayedDoWork_same_time_is_noop_witness :
  SetNextDelayedDoWork 5 TimeTicks_Max (sample_controller 1)
  = Ok (tt, sample_controller 1).
Proof.
  apply (SetNextDelayedDoWork_same_time_is_noop 5 TimeTicks_Max
           (sample_controller 1)); reflexivity.
Defined.

End ThreadControllerFacts.

(** ** The life of a pool: more of scheduler_worker_pool_impl.cc *)

Module WorkerPoolLife.

Import WorkerPool MonadFacts WorkerPoolFacts.

Section Facts.

Variable thread_starts : Worker -> bool.

Local Open Scope monad_scope.

Create Rewrite HintDb pool_members.
#[local] Hint Rewrite
  workers_set_workers idle_workers_stack_set_workers worker_capacity_set_workers
  num_wake_ups_before_start_set_workers shared_priority_queue_set_workers worker_cleanup_disallowed_set_workers
  cleanup_timestamps_set_workers delegates_set_workers next_worker_set_workers
  now_set_workers trace_set_workers workers_set_idle
  idle_workers_stack_set_idle worker_capacity_set_idle num_wake_ups_before_start_set_idle
  shared_priority_queue_set_idle worker_cleanup_disallowed_set_idle cleanup_timestamps_set_idle
  delegates_set_idle next_worker_set_idle now_set_idle
  trace_set_idle workers_set_num_wake_ups idle_workers_stack_set_num_wake_ups
  worker_capacity_set_num_wake_ups num_wake_ups_before_start_set_num_wake_ups shared_priority_queue_set_num_wake_ups
  worker_cleanup_disallowed_set_num_wake_ups cleanup_timestamps_set_num_wake_ups delegates_set_num_wake_ups
  next_worker_set_num_wake_ups now_set_num_wake_ups trace_set_num_wake_ups
  workers_set_queue idle_workers_stack_set_queue worker_capacity_set_queue
  num_wake_ups_before_start_set_queue shared_priority_queue_set_queue worker_cleanup_disallowed_set_queue
  cleanup_timestamps_set_queue delegates_set_queue next_worker_set_queue
  now_set_queue trace_set_queue workers_set_cleanup_disallowed
  idle_workers_stack_set_cleanup_disallowed worker_capacity_set_cleanup_disallowed num_wake_ups_before_start_set_cleanup_disallowed
  shared_priority_queue_set_cleanup_disallowed worker_cleanup_disallowed_set_cleanup_disallowed cleanup_timestamps_set_cleanup_disallowed
  delegates_set_cleanup_disallowed next_worker_set_cleanup_disallowed now_set_cleanup_disallowed
  trace_set_cleanup_disallowed workers_set_cleanup_timestamps idle_workers_stack_set_cleanup_timestamps
  worker_capacity_set_cleanup_timestamps num_wake_ups_before_start_set_cleanup_timestamps shared_priority_queue_set_cleanup_timestamps
  worker_cleanup_disallowed_set_cleanup_timestamps cleanup_timestamps_set_cleanup_timestamps delegates_set_cleanup_timestamps
  next_worker_set_cleanup_timestamps now_set_cleanup_timestamps trace_set_cleanup_timestamps
  workers_set_delegates idle_workers_stack_set_delegates worker_capacity_set_delegates
  num_wake_ups_before_start_set_delegates shared_priority_queue_set_delegates worker_cleanup_disallowed_set_delegates
  cleanup_timestamps_set_delegates delegates_set_delegates next_worker_set_delegates
  now_set_delegates trace_set_delegates workers_set_next_worker
  idle_workers_stack_set_next_worker worker_capacity_set_next_worker num_wake_ups_before_start_set_next_worker
  shared_priority_queue_set_next_worker worker_cleanup_disallowed_set_next_worker cleanup_timestamps_set_next_worker
  delegates_set_next_worker next_worker_set_next_worker now_set_next_worker
  trace_set_next_worker workers_set_now idle_workers_stack_set_now
  worker_capacity_set_now num_wake_ups_before_start_set_now shared_priority_queue_set_now
  worker_cleanup_disallowed_set_now cleanup_timestamps_set_now delegates_set_now
  next_worker_set_now now_set_now trace_set_now
  workers_emit idle_workers_stack_emit worker_capacity_emit
  num_wake_ups_before_start_emit shared_priority_queue_emit worker_cleanup_disallowed_emit
  cleanup_timestamps_emit delegates_emit next_worker_emit
  now_emit trace_emit workers_set_params
  idle_workers_stack_set_params worker_capacity_set_params num_wake_ups_before_start_set_params
  shared_priority_queue_set_params worker_cleanup_disallowed_set_params cleanup_timestamps_set_params
  delegates_set_params next_worker_set_params now_set_params
  trace_set_params
  : pool_members.

#[local] Hint Rewrite settle_workers settle_idle settle_capacity
  settle_delegates settle_next_worker settle_num_wake_ups settle_woken
  settle_queue settle_cleanup_disallowed
  created_workers created_idle created_capacity
  created_next_worker created_delegates created_num_wake_ups created_woken
  created_queue created_cleanup_disallowed : pool_members.

Ltac fields := autorewrite with pool_members in *.

(** *** The reclaim time in an updated pool *)

Lemma suggested_reclaim_time_set_workers f s :
  suggested_reclaim_time_ (set_workers f s) = suggested_reclaim_time_ s.
Proof. reflexivity. Qed.
Lemma suggested_reclaim_time_set_idle f s :
  suggested_reclaim_time_ (set_idle f s) = suggested_reclaim_time_ s.
Proof. reflexivity. Qed.
Lemma suggested_reclaim_time_set_num_wake_ups f s :
  suggested_reclaim_time_ (set_num_wake_ups f s) = suggested_reclaim_time_ s.
Proof. reflexivity. Qed.
Lemma suggested_reclaim_time_set_queue f s :
  suggested_reclaim_time_ (set_queue f s) = suggested_reclaim_time_ s.
Proof. reflexivity. Qed.
Lemma suggested_reclaim_time_set_cleanup_disallowed b s :
  suggested_reclaim_time_ (set_cleanup_disallowed b s) = suggested_reclaim_time_ s.
Proof. reflexivity. Qed.
Lemma suggested_reclaim_time_set_cleanup_timestamps f s :
  suggested_reclaim_time_ (set_cleanup_timestamps f s) = suggested_reclaim_time_ s.
Proof. reflexivity. Qed.
Lemma suggested_reclaim_time_set_delegates f s :
  suggested_reclaim_time_ (set_delegates f s) = suggested_reclaim_time_ s.
Proof. reflexivity. Qed.
Lemma suggested_reclaim_time_set_next_worker n s :
  suggested_reclaim_time_ (set_next_worker n s) = suggested_reclaim_time_ s.
Proof. reflexivity. Qed.
Lemma suggested_reclaim_time_set_now t s :
  suggested_reclaim_time_ (set_now t s) = suggested_reclaim_time_ s.
Proof. reflexivity. Qed.
Lemma suggested_reclaim_time_emit e s :
  suggested_reclaim_time_ (emit e s) = suggested_reclaim_time_ s.
Proof. reflexivity. Qed.
Lemma suggested_reclaim_time_set_params p s :
  suggested_reclaim_time_ (set_params p s) = suggested_reclaim_time p.
Proof. reflexivity. Qed.

#[local] Hint Rewrite
  suggested_reclaim_time_set_workers
  suggested_reclaim_time_set_idle
  suggested_reclaim_time_set_num_wake_ups
  suggested_reclaim_time_set_queue
  suggested_reclaim_time_set_cleanup_disallowed
  suggested_reclaim_time_set_cleanup_timestamps
  suggested_reclaim_time_set_delegates
  suggested_reclaim_time_set_next_worker
  suggested_reclaim_time_set_now
  suggested_reclaim_time_emit
  suggested_reclaim_time_set_params
  : pool_members.

Lemma settle_reclaim s :
  suggested_reclaim_time_ (settle_detach_duration s)
  = suggested_reclaim_time_ s.
Proof. unfold settle_detach_duration. by destruct (cleanup_timestamps_ s). Qed.

Lemma created_reclaim s :
  suggested_reclaim_time_ (created s) = suggested_reclaim_time_ s.
Proof. unfold created. rewrite settle_reclaim. by autorewrite with pool_members. Qed.

#[local] Hint Rewrite settle_reclaim created_reclaim : pool_members.

(** *** What each call leaves *)

Lemma DidRunTask_eq w d s :
  delegates s !! w = Some d ->
  DidRunTask w s
  = Ok (tt,
        set_delegates
          (insert w
             (with_num_tasks_since_last_detach
                (to_size_t (num_tasks_since_last_detach_ d + 1))
                (with_num_tasks_since_last_wait
                   (to_size_t (num_tasks_since_last_wait_ d + 1)) d))) s).
Proof.
  intros Hd. unfold DidRunTask, store_delegate.
  by rewrite (bind_Ok _ _ _ _ _ (delegate_Ok _ _ _ Hd)).
Qed.

(** The members that only [Start] writes, and the set of workers, through
    [WakeUpOneWorker]. *)
Lemma WakeUpOneWorker_spec_kept s :
  workers_ s `prefix_of` workers_ (WakeUpOneWorker_spec thread_starts s)
  /\ worker_capacity_ (WakeUpOneWorker_spec thread_starts s)
     = worker_capacity_ s
  /\ suggested_reclaim_time_ (WakeUpOneWorker_spec thread_starts s)
     = suggested_reclaim_time_ s
  /\ worker_cleanup_disallowed_ (WakeUpOneWorker_spec thread_starts s)
     = worker_cleanup_disallowed_ s.
Proof.
  assert (forall s0,
            workers_ s0 `prefix_of` workers_ (wake_one thread_starts s0)
            /\ worker_capacity_ (wake_one thread_starts s0)
               = worker_capacity_ s0
            /\ suggested_reclaim_time_ (wake_one thread_starts s0)
               = suggested_reclaim_time_ s0
            /\ worker_cleanup_disallowed_ (wake_one thread_starts s0)
               = worker_cleanup_disallowed_ s0) as Hwake.
  { intros s0. unfold wake_one. rewrite spec_create_worker_eq.
    destruct (spec_has_room s0).
    - destruct (thread_starts (next_worker s0)); unfold spec_wake; fields.
      + split_and!; try done. by apply prefix_app_r.
      + done.
    - destruct (idle_workers_stack_ s0); [done|].
      unfold spec_wake. by fields. }
  assert (forall s0,
            workers_ s0 `prefix_of` workers_ (keep_one_idle thread_starts s0)
            /\ worker_capacity_ (keep_one_idle thread_starts s0)
               = worker_capacity_ s0
            /\ suggested_reclaim_time_ (keep_one_idle thread_starts s0)
               = suggested_reclaim_time_ s0
            /\ worker_cleanup_disallowed_ (keep_one_idle thread_starts s0)
               = worker_cleanup_disallowed_ s0) as Hkeep.
  { intros s0. unfold keep_one_idle. rewrite spec_create_worker_eq.
    destruct (spec_has_room s0); [|done].
    destruct (thread_starts (next_worker s0)); fields.
    - split_and!; try done. by apply prefix_app_r.
    - done. }
  rewrite WakeUpOneWorker_spec_eq.
  destruct (workers_ s) eqn:Hws.
  - fields. rewrite Hws. done.
  - destruct (Hwake s) as (Hw1 & Hw2 & Hw3 & Hw4).
    destruct (Hkeep (wake_one thread_starts s)) as (Hk1 & Hk2 & Hk3 & Hk4).
    rewrite Hk2, Hk3, Hk4, Hw2, Hw3, Hw4. rewrite <- Hws.
    split_and!; try done. by etrans.
Qed.

Lemma Start_round_cleanup_disallowed (index : Z) s :
  worker_cleanup_disallowed_ (Start_round thread_starts index s)
  = worker_cleanup_disallowed_ s.
Proof.
  unfold Start_round, spec_wake.
  destruct (thread_starts (next_worker s));
    [destruct (index <? num_wake_ups_before_start_ s)|];
    by autorewrite with pool_members.
Qed.

Lemma Start_loop_spec_cleanup_disallowed n : forall (index : Z) s,
  worker_cleanup_disallowed_ (Start_loop_spec thread_starts n index s)
  = worker_cleanup_disallowed_ s.
Proof.
  induction n as [|n IH]; intros index s; cbn [Start_loop_spec]; [done|].
  by rewrite IH, Start_round_cleanup_disallowed.
Qed.

Lemma Start_round_reclaim (index : Z) s :
  suggested_reclaim_time_ (Start_round thread_starts index s)
  = suggested_reclaim_time_ s.
Proof.
  unfold Start_round, spec_wake.
  destruct (thread_starts (next_worker s));
    [destruct (index <? num_wake_ups_before_start_ s)|];
    by autorewrite with pool_members.
Qed.

Lemma Start_loop_spec_reclaim n : forall (index : Z) s,
  suggested_reclaim_time_ (Start_loop_spec thread_starts n index s)
  = suggested_reclaim_time_ s.
Proof.
  induction n as [|n IH]; intros index s; cbn [Start_loop_spec]; [done|].
  by rewrite IH, Start_round_reclaim.
Qed.

(** What [GetWork] does to the set of workers: nothing, unless the worker
    timed out while another one was on top of the idle stack. *)
Lemma GetWork_spec_kept w s :
  pool_wf s ->
  w ∈ workers_ s ->
  worker_capacity_ (snd (GetWork_spec w s)) = worker_capacity_ s
  /\ suggested_reclaim_time_ (snd (GetWork_spec w s))
     = suggested_reclaim_time_ s
  /\ worker_cleanup_disallowed_ (snd (GetWork_spec w s))
     = worker_cleanup_disallowed_ s
  /\ (workers_ (snd (GetWork_spec w s)) = workers_ s
      \/ (workers_ (snd (GetWork_spec w s)) = erase_first w (workers_ s)
          /\ CanCleanup w s = true
          /\ w ∈ idle_workers_stack_ s)).
Proof.
  intros Hwf Hw.
  pose proof Hwf as (_ & _ & _ & Hdel).
  destruct (Hdel w Hw) as (d & Hd & Hidle & _).
  unfold GetWork_spec. rewrite Hd.
  destruct (is_on_idle_workers_stack_ d) eqn:Hflag; cbn [snd].
  - destruct (CanCleanup w s) eqn:Hcan; unfold cleaned; fields.
    + split_and!; try done. right. split_and!; try done. by apply Hidle.
    + split_and!; try done. by left.
  - destruct (shared_priority_queue_ s) as [|[key sequence] rest]; cbn [snd].
    + unfold gone_idle.
      destruct (S (length (idle_workers_stack_ s)) =? length (workers_ s))%nat;
        fields; split_and!; try done; by left.
    + fields. split_and!; try done. by left.
Qed.

(** A worker that cleans itself up leaves the top of the idle stack
    behind. *)
Lemma cleanup_leaves_a_worker w s :
  pool_wf s ->
  CanCleanup w s = true ->
  w ∈ idle_workers_stack_ s ->
  exists top, top ∈ erase_first w (workers_ s)
              /\ head (idle_workers_stack_ s) = Some top
              /\ top <> w.
Proof.
  intros ((_ & Hsub & _) & _) Hcan Hw.
  apply CanCleanup_true in Hcan as [Htop _].
  destruct (idle_workers_stack_ s) as [|top rest] eqn:Hst.
  { by apply elem_of_nil in Hw. }
  cbn [head] in Htop. exists top.
  assert (top <> w) as Hne by congruence.
  split_and!; [|done|done].
  apply erase_first_other; [done|]. apply Hsub.
  rewrite elem_of_cons. by left.
Qed.

(** The effect of an enabled call on what the later theorems follow: the
    capacity, the reclaim time, the flag that forbids cleanups and the set
    of workers. *)
Lemma run_op_kept o s s' :
  pool_wf s ->
  enabled thread_starts s o ->
  run_op thread_starts o s = Ok (tt, s') ->
  (worker_cleanup_disallowed_ s = true ->
   worker_cleanup_disallowed_ s' = true
   /\ workers_ s `prefix_of` workers_ s')
  /\ (workers_ s <> [] ->
      workers_ s' <> []
      /\ worker_capacity_ s' = worker_capacity_ s
      /\ suggested_reclaim_time_ s' = suggested_reclaim_time_ s).
Proof.
  intros Hwf Hen Hrun. destruct o; cbn [run_op enabled] in *.
  - (* Start *)
    destruct Hen as [Hws Hfirst].
    destruct (Start_Ok thread_starts params s Hwf Hws Hfirst) as [Heq _].
    rewrite Heq in Hrun. simplify_eq. split; [|done].
    intros Hflag. rewrite Hws. split; [|apply prefix_nil].
    unfold Start_spec. rewrite Start_loop_spec_cleanup_disallowed.
    by fields.
  - (* ScheduleSequence *)
    unfold ScheduleSequence, queue_Push in Hrun. rewrite bind_modify in Hrun.
    rewrite WakeUpOneWorker_Ok in Hrun by (revert Hwf; by apply pool_wf_frame).
    simplify_eq.
    destruct (WakeUpOneWorker_spec_kept
                (set_queue (PriorityQueue.Push sequence (GetSortKey sequence))
                   s)) as (Hpre & Hcap & Hrec & Hdis).
    rewrite Hcap, Hrec, Hdis. revert Hpre. fields. intros Hpre.
    split; [done|]. intros Hne. split_and!; try done.
    intros Hnil. rewrite Hnil in Hpre. apply prefix_nil_inv in Hpre. done.
  - (* WakeUpOneWorker *)
    rewrite WakeUpOneWorker_Ok in Hrun by done. simplify_eq.
    destruct (WakeUpOneWorker_spec_kept s) as (Hpre & Hcap & Hrec & Hdis).
    rewrite Hcap, Hrec, Hdis. split; [done|].
    intros Hne. split_and!; try done.
    intros Hnil. rewrite Hnil in Hpre. apply prefix_nil_inv in Hpre. done.
  - (* GetWork *)
    destruct (GetWork_Ok worker s Hwf Hen) as [Heq _].
    rewrite (bind_Ok _ _ _ _ _
               (eq_trans Heq (f_equal Ok (surjective_pairing _)))) in Hrun.
    unfold ret in Hrun. simplify_eq.
    destruct (GetWork_spec_kept worker s Hwf Hen)
      as (Hcap & Hrec & Hdis & [Hsame | (Hgone & Hcan & Hidle)]).
    + rewrite Hcap, Hrec, Hdis, Hsame. done.
    + rewrite Hcap, Hrec, Hdis, Hgone. split.
      * intros Hflag. apply CanCleanup_true in Hcan as [_ Hcan]. congruence.
      * intros _. split_and!; try done.
        destruct (cleanup_leaves_a_worker worker s Hwf Hcan Hidle)
          as (top & Htop & _).
        intros Hnil. rewrite Hnil in Htop. by apply elem_of_nil in Htop.
  - (* ReEnqueueSequence *)
    unfold ReEnqueueSequence, queue_Push, modify in Hrun. simplify_eq.
    by fields.
  - (* DidRunTask *)
    destruct Hen as [Hw _].
    pose proof Hwf as (_ & _ & _ & Hdel).
    destruct (Hdel worker Hw) as (d & Hd & _).
    rewrite (DidRunTask_eq worker d s Hd) in Hrun. simplify_eq. by fields.
  - (* DisallowWorkerCleanupForTesting *)
    unfold DisallowWorkerCleanupForTesting, modify in Hrun. simplify_eq.
    by fields.
  - (* the clock *)
    unfold modify in Hrun. simplify_eq. by fields.
Qed.

Lemma run_checked_snoc ops : forall s s' o s'',
  run_checked thread_starts ops s = Some s' ->
  enabledb thread_starts s' o = true ->
  run_op thread_starts o s' = Ok (tt, s'') ->
  run_checked thread_starts (ops ++ [o]) s = Some s''.
Proof.
  induction ops as [|o0 ops IH]; intros s s' o s'' Hrun Hen Hop;
    cbn [run_checked app] in *.
  - simplify_eq. by rewrite Hen, Hop.
  - destruct (enabledb thread_starts s o0); [|done].
    destruct (run_op thread_starts o0 s) as [[u s1]|]; [|done]. eauto.
Qed.

(** One step of [run_checked]. *)
Lemma run_checked_cons o ops s s' :
  run_checked thread_starts (o :: ops) s = Some s' ->
  exists s1,
    enabled thread_starts s o
    /\ run_op thread_starts o s = Ok (tt, s1)
    /\ run_checked thread_starts ops s1 = Some s'.
Proof.
  cbn [run_checked]. intros Hrun.
  destruct (enabledb thread_starts s o) eqn:Hen; [|done].
  destruct (run_op thread_starts o s) as [[[] s1]|] eqn:Hop; [|done].
  exists s1. split_and!; try done. by apply enabledb_enabled.
Qed.

(** ** Properties of the runs of a pool *)

(** X1: in a pool that the process can reach, a call that the process can
    make, and on which no [int] overflows and [Start] gets a [max_threads]
    that is not negative, returns: no [DCHECK] and no [CHECK] of the pool
    fails, and the pool that is left can be reached too. *)
Theorem enabled_calls_return (s : Pool) (o : Op) :
  reachable thread_starts s ->
  enabled thread_starts s o ->
  in_int_range s o ->
  exists s',
    run_op thread_starts o s = Ok (tt, s')
    /\ reachable thread_starts s'.
Proof.
  intros [ops Hops] Hen _.
  destruct (run_op_Ok thread_starts o s) as (s' & Hrun & _);
    [by eapply reachable_wf; exists ops | done |].
  exists s'. split; [done|]. exists (ops ++ [o]).
  eapply run_checked_snoc; [done| |done]. by apply enabledb_enabled.
Qed.

(** X2: in every pool that the process can reach, [workers_] holds no
    worker twice and the idle stack holds no worker twice; for each worker
    of the pool the flag [is_on_idle_workers_stack_] of its delegate is
    what [idle_workers_stack_.Contains(worker)] answers, which is what
    [GetWork] asserts, and a worker that is on the idle stack has run no
    task since its last wait. *)
Theorem delegate_flag_tracks_idle_stack (s : Pool) :
  reachable thread_starts s ->
  NoDup (workers_ s)
  /\ NoDup (idle_workers_stack_ s)
  /\ forall w, w ∈ workers_ s ->
       exists d,
         delegates s !! w = Some d
         /\ is_on_idle_workers_stack_ d
            = SchedulerWorkerStack.Contains w (idle_workers_stack_ s)
         /\ (is_on_idle_workers_stack_ d = true ->
             num_tasks_since_last_wait_ d = 0).
Proof.
  intros Hreach. apply reachable_wf in Hreach.
  destruct Hreach as ((Hnd & _ & _) & Hndw & _ & Hdel).
  split_and!; [done|done|].
  intros w Hw. destruct (Hdel w Hw) as (d & Hd & Hidle & Hcount).
  exists d. split_and!; [done| |done].
  unfold SchedulerWorkerStack.Contains.
  destruct (is_on_idle_workers_stack_ d).
  - symmetry. apply bool_decide_eq_true. by apply Hidle.
  - symmetry. apply bool_decide_eq_false. intros Hin.
    apply Hidle in Hin. done.
Qed.

(** X3: a pool that has a worker keeps one.  The only call that removes a
    worker is the [GetWork] of a worker that timed out, and [CanCleanup]
    refuses the worker on top of the idle stack, which stays. *)
Theorem pool_keeps_a_worker (s s' : Pool) (o : Op) :
  pool_wf s ->
  enabled thread_starts s o ->
  workers_ s <> [] ->
  run_op thread_starts o s = Ok (tt, s') ->
  workers_ s' <> [].
Proof.
  intros Hwf Hen Hne Hrun.
  destruct (run_op_kept o s s' Hwf Hen Hrun) as [_ Hkept].
  by destruct (Hkept Hne).
Qed.

(** X4: once [DisallowWorkerCleanupForTesting] has been called no worker
    leaves the pool: whatever the calls that follow, the flag stays set and
    [workers_] only grows at its end. *)
Theorem no_cleanup_once_disallowed (ops : list Op) (s s' : Pool) :
  pool_wf s ->
  worker_cleanup_disallowed_ s = true ->
  run_checked thread_starts ops s = Some s' ->
  worker_cleanup_disallowed_ s' = true
  /\ workers_ s `prefix_of` workers_ s'.
Proof.
  revert s. induction ops as [|o ops IH]; intros s Hwf Hflag Hrun.
  { cbn [run_checked] in Hrun. by simplify_eq. }
  apply run_checked_cons in Hrun as (s1 & Hen & Hop & Hrun).
  destruct (run_op_kept o s s1 Hwf Hen Hop) as [Hkept _].
  destruct (Hkept Hflag) as [Hflag1 Hpre1].
  destruct (run_op_Ok thread_starts o s Hwf Hen) as (s1' & Hop' & Hwf1).
  rewrite Hop in Hop'. simplify_eq.
  destruct (IH s1' Hwf1 Hflag1 Hrun) as [Hflag' Hpre'].
  split; [done|]. by etrans.
Qed.


(** *** The pool once started *)

Lemma started_is_kept ops : forall s s',
  pool_wf s ->
  workers_ s <> [] ->
  run_checked thread_starts ops s = Some s' ->
  pool_wf s'
  /\ workers_ s' <> []
  /\ worker_capacity_ s' = worker_capacity_ s
  /\ suggested_reclaim_time_ s' = suggested_reclaim_time_ s.
Proof.
  induction ops as [|o ops IH]; intros s s' Hwf Hne Hrun.
  { cbn [run_checked] in Hrun. by simplify_eq. }
  apply run_checked_cons in Hrun as (s1 & Hen & Hop & Hrun).
  destruct (run_op_kept o s s1 Hwf Hen Hop) as [_ Hkept].
  destruct (Hkept Hne) as (Hne1 & Hcap1 & Hrec1).
  destruct (run_op_Ok thread_starts o s Hwf Hen) as (s1' & Hop' & Hwf1).
  rewrite Hop in Hop'. simplify_eq.
  destruct (IH s1' s' Hwf1 Hne1 Hrun) as (Hwf' & Hne' & Hcap' & Hrec').
  split_and!; [done|done| |]; congruence.
Qed.

Lemma num_initial_workers_positive params s :
  0 <= num_wake_ups_before_start_ s ->
  0 < max_threads params <= INT_MAX ->
  worker_capacity_ (set_params params s) = max_threads params
  /\ 0 < num_initial_workers (set_params params s).
Proof.
  intros Hwake Hmax. unfold INT_MAX in Hmax.
  assert (to_size_t (max_threads params) = max_threads params) as Hsize.
  { apply to_size_t_small. lia. }
  unfold num_initial_workers. fields. rewrite Hsize.
  rewrite static_cast_int_small by (unfold INT_MAX; lia).
  split; [done|lia].
Qed.

(** X5: the parameters given to [Start] are those of the pool for the rest
    of its life.  After a [Start] with a positive [max_threads], and
    whatever the calls that follow, the pool has a worker,
    [GetMaxConcurrentTasksDeprecated] passes its [DCHECK] and returns
    [max_threads], [GetSleepTimeout] returns the reclaim time, and a second
    [Start] fails its [DCHECK]. *)
Theorem Start_parameters_are_kept
    (params params' : SchedulerWorkerPoolParams) (ops : list Op)
    (s s' : Pool) :
  pool_wf s ->
  0 <= num_wake_ups_before_start_ s ->
  0 < max_threads params <= INT_MAX ->
  run_checked thread_starts (OpStart params :: ops) s = Some s' ->
  GetMaxConcurrentTasksDeprecated s' = Ok (max_threads params, s')
  /\ GetSleepTimeout s' = suggested_reclaim_time params
  /\ GetWorkerCapacityForTesting s' = max_threads params
  /\ (0 < NumberOfWorkersForTesting s')%nat
  /\ Start thread_starts params' s' = Abort DCheckFailure.
Proof.
  intros Hwf Hwake Hmax Hrun.
  apply run_checked_cons in Hrun as (s1 & [Hws Hfirst] & Hop & Hrun).
  cbn [run_op] in Hop.
  destruct (num_initial_workers_positive params s Hwake Hmax)
    as [Hcap Hpos].
  destruct (Start_Ok thread_starts params s Hwf Hws Hfirst) as [Heq Hwf1].
  rewrite Hop in Heq. simplify_eq.
  assert (workers_ (Start_spec thread_starts params s) <> []) as Hne.
  { unfold Start_spec. rewrite Start_loop_spec_workers.
    destruct (Z.to_nat (num_initial_workers (set_params params s)))
      as [|n] eqn:Hn; [lia|].
    cbn [seq List.filter]. fields. rewrite (Hfirst Hpos).
    intros Hnil. apply app_eq_nil in Hnil as [_ Hnil]. discriminate. }
  destruct (started_is_kept ops _ s' Hwf1 Hne Hrun)
    as (_ & Hne' & Hcap' & Hrec').
  assert (worker_capacity_ s' = max_threads params) as Hcapacity.
  { rewrite Hcap'. unfold Start_spec.
    by rewrite Start_loop_spec_capacity. }
  split_and!.
  - unfold GetMaxConcurrentTasksDeprecated.
    rewrite bind_gets, Hcapacity.
    assert ((max_threads params =? 0) = false) as -> by lia.
    cbn [negb]. rewrite bind_DCHECK.
    by rewrite static_cast_int_small by lia.
  - unfold GetSleepTimeout. rewrite Hrec'. unfold Start_spec.
    rewrite Start_loop_spec_reclaim. by fields.
  - done.
  - unfold NumberOfWorkersForTesting.
    destruct (workers_ s'); [done | cbn [length]; lia].
  - unfold Start. rewrite bind_gets.
    rewrite bool_decide_eq_false_2 by done. reflexivity.
Qed.

(** *** Waking a worker *)

Lemma spec_wake_woken w s :
  woken (trace (spec_wake w s)) = woken (trace s) ++ [w].
Proof. unfold spec_wake. fields. by rewrite woken_app. Qed.

Lemma spec_wake_delegate w d s :
  delegates s !! w = Some d ->
  delegates (spec_wake w s) !! w
  = Some (with_is_on_idle_workers_stack false d).
Proof.
  intros Hd. unfold spec_wake. fields. by rewrite lookup_alter_eq, Hd.
Qed.

(** What the second half of [WakeUpOneWorker] leaves: the pool as it was,
    or with one more worker, idle, when the idle stack was empty. *)
Lemma keep_one_idle_cases s :
  keep_one_idle thread_starts s = s
  \/ (idle_workers_stack_ s = []
      /\ keep_one_idle thread_starts s
         = set_next_worker (S (next_worker s)) s)
  \/ (idle_workers_stack_ s = []
      /\ keep_one_idle thread_starts s
         = set_idle (cons (next_worker s)) (created s)).
Proof.
  unfold keep_one_idle. rewrite spec_create_worker_eq.
  destruct (spec_has_room s) eqn:Hroom; [|by left].
  apply spec_has_room_true in Hroom as [Hidle _].
  destruct (thread_starts (next_worker s)); auto.
Qed.

Lemma WakeUpOneWorker_pops s w rest :
  pool_wf s ->
  idle_workers_stack_ s = w :: rest ->
  exists s',
    WakeUpOneWorker thread_starts s = Ok (tt, s')
    /\ pool_wf s'
    /\ woken (trace s') = woken (trace s) ++ [w]
    /\ (w ∉ idle_workers_stack_ s')
    /\ (exists d, delegates s' !! w = Some d
                  /\ is_on_idle_workers_stack_ d = false)
    /\ (rest <> [] ->
        idle_workers_stack_ s' = rest /\ workers_ s' = workers_ s).
Proof.
  intros Hwf Hidle.
  pose proof Hwf as ((Hnd & Hsub & _) & _ & Hfresh & Hdel).
  assert (w ∈ workers_ s) as Hw.
  { apply Hsub. rewrite Hidle, elem_of_cons. by left. }
  destruct (Hdel w Hw) as (d & Hd & _).
  exists (WakeUpOneWorker_spec thread_starts s).
  split; [by apply WakeUpOneWorker_Ok|].
  split; [by apply pool_wf_WakeUpOneWorker_spec|].
  rewrite WakeUpOneWorker_spec_eq.
  destruct (workers_ s) as [|w0 ws] eqn:Hws; [by apply elem_of_nil in Hw|].
  rewrite <- Hws in *. clear w0 ws Hws.
  assert (wake_one thread_starts s
          = spec_wake w (set_idle (fun _ => rest) s)) as Hwake.
  { unfold wake_one, spec_has_room. rewrite Hidle. reflexivity. }
  set (s1 := spec_wake w (set_idle (fun _ => rest) s)) in *.
  rewrite Hwake.
  assert (woken (trace s1) = woken (trace s) ++ [w]) as Hwoken1.
  { unfold s1. rewrite spec_wake_woken. by fields. }
  assert (delegates s1 !! w = Some (with_is_on_idle_workers_stack false d))
    as Hd1.
  { unfold s1. apply spec_wake_delegate. by fields. }
  assert (idle_workers_stack_ s1 = rest) as Hidle1.
  { unfold s1, spec_wake. by fields. }
  assert (workers_ s1 = workers_ s) as Hws1.
  { unfold s1, spec_wake. by fields. }
  assert (next_worker s1 = next_worker s) as Hnext1.
  { unfold s1, spec_wake. by fields. }
  assert (w ∉ rest) as Hnotin.
  { rewrite Hidle in Hnd. by apply NoDup_cons in Hnd as [? _]. }
  assert (w <> next_worker s) as Hne.
  { intros ->. apply Hfresh in Hw. lia. }
  destruct (keep_one_idle_cases s1) as [-> | [[Hnil ->] | [Hnil ->]]].
  - rewrite Hidle1, Hws1. split_and!; try done. by eexists.
  - fields. rewrite Hidle1, Hws1. rewrite Hidle1 in Hnil.
    split_and!; try done. by eexists.
  - fields. rewrite Hidle1, Hnext1. rewrite Hidle1 in Hnil.
    split_and!; try done.
    + rewrite Hnil, elem_of_cons, elem_of_nil. intros [?|[]]. done.
    + eexists. rewrite lookup_insert_ne by done. by split.
Qed.

(** X6: [WakeUpOneWorker] wakes the worker on top of the idle stack, the
    one that went idle last, and only that one; the worker leaves the stack
    and its delegate is told so.  When another worker stays on the stack
    nothing else changes: no worker is created. *)
Theorem WakeUpOneWorker_wakes_top_of_idle_stack
    (s : Pool) (w : Worker) (rest : list Worker) :
  pool_wf s ->
  idle_workers_stack_ s = w :: rest ->
  exists s',
    WakeUpOneWorker thread_starts s = Ok (tt, s')
    /\ woken (trace s') = woken (trace s) ++ [w]
    /\ (w ∉ idle_workers_stack_ s')
    /\ (exists d, delegates s' !! w = Some d
                  /\ is_on_idle_workers_stack_ d = false)
    /\ (rest <> [] ->
        idle_workers_stack_ s' = rest /\ workers_ s' = workers_ s).
Proof.
  intros Hwf Hidle.
  destruct (WakeUpOneWorker_pops s w rest Hwf Hidle)
    as (s' & Hrun & _ & Hrest).
  by exists s'.
Qed.

Lemma gone_idle_fields w d s :
  idle_workers_stack_ (gone_idle w d s) = w :: idle_workers_stack_ s
  /\ workers_ (gone_idle w d s) = workers_ s
  /\ woken (trace (gone_idle w d s)) = woken (trace s)
  /\ trace (gone_idle w d s)
     = trace s
       ++ EvHistogram num_tasks_between_waits_histogram_
            (num_tasks_since_last_wait_ d)
          :: (if (S (length (idle_workers_stack_ s))
                  =? length (workers_ s))%nat
              then [EvBroadcastIdle] else [])
  /\ delegates (gone_idle w d s) !! w
     = Some (with_is_on_idle_workers_stack true
               (with_num_tasks_since_last_wait 0 d))
  /\ shared_priority_queue_ (gone_idle w d s) = shared_priority_queue_ s
  /\ cleanup_timestamps_ (gone_idle w d s) = cleanup_timestamps_ s
  /\ now (gone_idle w d s) = now s.
Proof.
  unfold gone_idle.
  destruct (S (length (idle_workers_stack_ s)) =? length (workers_ s))%nat;
    fields; rewrite lookup_insert_eq; split_and!; try done.
  - rewrite !woken_app. cbn. by rewrite !app_nil_r.
  - by rewrite <- app_assoc.
  - rewrite !woken_app. cbn. by rewrite !app_nil_r.
Qed.

(** X7: a worker that finds no work goes on top of the idle stack, and the
    next [WakeUpOneWorker] wakes that very worker: the pool is then as
    before it went idle, when another worker was idle already. *)
Theorem GetWork_then_WakeUpOneWorker
    (s : Pool) (w : Worker) (d : Delegate) :
  pool_wf s ->
  w ∈ workers_ s ->
  delegates s !! w = Some d ->
  is_on_idle_workers_stack_ d = false ->
  shared_priority_queue_ s = [] ->
  exists s1 s2,
    GetWork w s = Ok (None, s1)
    /\ PeekAtIdleWorkersStack s1 = Some w
    /\ WakeUpOneWorker thread_starts s1 = Ok (tt, s2)
    /\ woken (trace s2) = woken (trace s) ++ [w]
    /\ (w ∉ idle_workers_stack_ s2)
    /\ (idle_workers_stack_ s <> [] ->
        idle_workers_stack_ s2 = idle_workers_stack_ s
        /\ workers_ s2 = workers_ s).
Proof.
  intros Hwf Hw Hd Hflag Hqueue.
  assert (w ∉ idle_workers_stack_ s) as Hnot.
  { pose proof Hwf as (_ & _ & _ & Hdel).
    destruct (Hdel w Hw) as (d' & Hd' & Hidle & _).
    intros Hin. apply Hidle in Hin. congruence. }
  pose proof (GetWork_running_Ok w d s Hwf Hw Hd Hflag) as Hget.
  rewrite Hqueue in Hget.
  pose proof (pool_wf_gone_idle w d s Hwf Hw Hnot) as Hwf1.
  destruct (gone_idle_fields w d s)
    as (Hidle1 & Hws1 & Hwoken1 & _).
  destruct (WakeUpOneWorker_pops (gone_idle w d s) w (idle_workers_stack_ s)
              Hwf1 Hidle1)
    as (s2 & Hrun & _ & Hwoken2 & Hnot2 & _ & Hrest).
  exists (gone_idle w d s), s2. split_and!; try done.
  - unfold PeekAtIdleWorkersStack. by rewrite Hidle1.
  - by rewrite Hwoken2, Hwoken1.
  - intros Hne. destruct (Hrest Hne) as [-> ->]. done.
Qed.

(** X8: [WakeUpOneWorker] keeps a standby.  In a pool that has workers and
    on a machine that can create threads, it leaves a worker on the idle
    stack unless the pool has reached [worker_capacity_]. *)
Theorem WakeUpOneWorker_keeps_a_standby (s : Pool) :
  pool_wf s ->
  workers_ s <> [] ->
  (forall w, thread_starts w = true) ->
  exists s',
    WakeUpOneWorker thread_starts s = Ok (tt, s')
    /\ (idle_workers_stack_ s' <> []
        \/ Z.of_nat (length (workers_ s')) = worker_capacity_ s').
Proof.
  intros Hwf Hne Hstarts.
  exists (WakeUpOneWorker_spec thread_starts s).
  split; [by apply WakeUpOneWorker_Ok|].
  rewrite WakeUpOneWorker_spec_eq.
  destruct (workers_ s) as [|w0 ws] eqn:Hws; [done|].
  pose proof (pool_wf_wake_one thread_starts s Hwf) as Hwf1.
  set (s1 := wake_one thread_starts s) in *.
  destruct Hwf1 as ((_ & _ & Hcap) & _).
  unfold keep_one_idle. rewrite spec_create_worker_eq, Hstarts.
  destruct (spec_has_room s1) eqn:Hroom.
  - left. by fields.
  - unfold spec_has_room in Hroom.
    destruct (idle_workers_stack_ s1) eqn:Hidle; [|by left].
    cbn [SchedulerWorkerStack.IsEmpty andb] in Hroom. right. lia.
Qed.


(** *** The times of the cleanups *)

Lemma detach_durations_app tr1 tr2 :
  detach_durations (tr1 ++ tr2)
  = detach_durations tr1 ++ detach_durations tr2.
Proof. apply omap_app. Qed.

Lemma cleanup_times_frame s s' :
  cleanup_timestamps_ s' = cleanup_timestamps_ s ->
  now s' = now s ->
  detach_durations (trace s') = detach_durations (trace s) ->
  cleanup_times_ok s -> cleanup_times_ok s'.
Proof. unfold cleanup_times_ok. by intros -> -> ->. Qed.

Lemma cleanup_times_settle s :
  cleanup_times_ok s -> cleanup_times_ok (settle_detach_duration s).
Proof.
  intros Hok. unfold settle_detach_duration.
  destruct (cleanup_timestamps_ s) as [|top rest] eqn:Hstamps; [exact Hok|].
  destruct Hok as [Hpast Hpos]. rewrite Hstamps in Hpast.
  apply Forall_cons in Hpast as [Htop Hrest].
  unfold cleanup_times_ok. fields. cbv beta. rewrite detach_durations_app. cbn.
  split; [done|]. apply Forall_app. split; [done|].
  apply Forall_cons. split; [lia|constructor].
Qed.

Lemma cleanup_times_created s :
  cleanup_times_ok s -> cleanup_times_ok (created s).
Proof.
  intros Hok. unfold created. apply cleanup_times_settle.
  revert Hok. apply cleanup_times_frame; by fields.
Qed.

Lemma cleanup_times_spec_wake w s :
  cleanup_times_ok s -> cleanup_times_ok (spec_wake w s).
Proof.
  apply cleanup_times_frame; unfold spec_wake; fields; try done.
  rewrite detach_durations_app. cbn. by rewrite app_nil_r.
Qed.

Lemma cleanup_times_wake_one s :
  cleanup_times_ok s -> cleanup_times_ok (wake_one thread_starts s).
Proof.
  intros Hok. unfold wake_one. rewrite spec_create_worker_eq.
  destruct (spec_has_room s).
  - destruct (thread_starts (next_worker s)).
    + by apply cleanup_times_spec_wake, cleanup_times_created.
    + revert Hok. apply cleanup_times_frame; by fields.
  - destruct (idle_workers_stack_ s); [done|].
    apply cleanup_times_spec_wake.
    revert Hok. apply cleanup_times_frame; by fields.
Qed.

Lemma cleanup_times_keep_one_idle s :
  cleanup_times_ok s -> cleanup_times_ok (keep_one_idle thread_starts s).
Proof.
  intros Hok.
  destruct (keep_one_idle_cases s) as [-> | [[_ ->] | [_ ->]]]; [done|..].
  - revert Hok. apply cleanup_times_frame; by fields.
  - apply cleanup_times_created in Hok.
    revert Hok. apply cleanup_times_frame; by fields.
Qed.

Lemma cleanup_times_WakeUpOneWorker_spec s :
  cleanup_times_ok s ->
  cleanup_times_ok (WakeUpOneWorker_spec thread_starts s).
Proof.
  intros Hok. rewrite WakeUpOneWorker_spec_eq. destruct (workers_ s).
  - revert Hok. apply cleanup_times_frame; by fields.
  - by apply cleanup_times_keep_one_idle, cleanup_times_wake_one.
Qed.

Lemma cleanup_times_Start_loop_spec n : forall (index : Z) s,
  cleanup_times_ok s ->
  cleanup_times_ok (Start_loop_spec thread_starts n index s).
Proof.
  induction n as [|n IH]; intros index s Hok; cbn [Start_loop_spec]; [done|].
  apply IH. unfold Start_round.
  destruct (thread_starts (next_worker s));
    [destruct (index <? num_wake_ups_before_start_ s)|].
  - by apply cleanup_times_spec_wake, cleanup_times_created.
  - apply cleanup_times_created in Hok.
    revert Hok. apply cleanup_times_frame; by fields.
  - revert Hok. apply cleanup_times_frame; by fields.
Qed.

Lemma cleanup_times_GetWork_spec w s :
  cleanup_times_ok s -> cleanup_times_ok (snd (GetWork_spec w s)).
Proof.
  intros Hok. unfold GetWork_spec.
  destruct (delegates s !! w) as [d|]; [|done].
  destruct (is_on_idle_workers_stack_ d); cbn [snd].
  - destruct (CanCleanup w s).
    + destruct Hok as [Hpast Hpos].
      unfold cleanup_times_ok, cleaned. fields.
      rewrite !detach_durations_app. cbn. rewrite !app_nil_r.
      split; [|done]. apply Forall_cons. split; [lia|done].
    + revert Hok. apply cleanup_times_frame; fields; try done.
      rewrite detach_durations_app. cbn. by rewrite app_nil_r.
  - destruct (shared_priority_queue_ s) as [|[key sequence] rest]; cbn [snd].
    + destruct (gone_idle_fields w d s)
        as (_ & _ & _ & Htrace & _ & _ & Hstamps & Hnow).
      revert Hok. apply cleanup_times_frame; try done.
      rewrite Htrace, detach_durations_app.
      destruct (S (length (idle_workers_stack_ s)) =? length (workers_ s))%nat;
        cbn; by rewrite app_nil_r.
    + revert Hok. apply cleanup_times_frame; by fields.
Qed.

Lemma cleanup_times_run_op o s s' :
  pool_wf s ->
  enabled thread_starts s o ->
  run_op thread_starts o s = Ok (tt, s') ->
  cleanup_times_ok s -> cleanup_times_ok s'.
Proof.
  intros Hwf Hen Hrun Hok. destruct o; cbn [run_op enabled] in *.
  - destruct Hen as [Hws Hfirst].
    destruct (Start_Ok thread_starts params s Hwf Hws Hfirst) as [Heq _].
    rewrite Heq in Hrun. simplify_eq.
    unfold Start_spec. apply cleanup_times_Start_loop_spec.
    revert Hok. apply cleanup_times_frame; by fields.
  - unfold ScheduleSequence, queue_Push in Hrun. rewrite bind_modify in Hrun.
    rewrite WakeUpOneWorker_Ok in Hrun by (revert Hwf; by apply pool_wf_frame).
    simplify_eq. apply cleanup_times_WakeUpOneWorker_spec.
    revert Hok. apply cleanup_times_frame; by fields.
  - rewrite WakeUpOneWorker_Ok in Hrun by done. simplify_eq.
    by apply cleanup_times_WakeUpOneWorker_spec.
  - destruct (GetWork_Ok worker s Hwf Hen) as [Heq _].
    rewrite (bind_Ok _ _ _ _ _
               (eq_trans Heq (f_equal Ok (surjective_pairing _)))) in Hrun.
    unfold ret in Hrun. simplify_eq. by apply cleanup_times_GetWork_spec.
  - unfold ReEnqueueSequence, queue_Push, modify in Hrun. simplify_eq.
    revert Hok. apply cleanup_times_frame; by fields.
  - destruct Hen as [Hw _].
    pose proof Hwf as (_ & _ & _ & Hdel).
    destruct (Hdel worker Hw) as (d & Hd & _).
    rewrite (DidRunTask_eq worker d s Hd) in Hrun. simplify_eq.
    revert Hok. apply cleanup_times_frame; by fields.
  - unfold DisallowWorkerCleanupForTesting, modify in Hrun. simplify_eq.
    revert Hok. apply cleanup_times_frame; by fields.
  - unfold modify in Hrun. simplify_eq.
    destruct Hok as [Hpast Hpos]. unfold cleanup_times_ok. fields.
    split; [|done]. eapply Forall_impl; [exact Hpast|].
    intros x Hx. cbv beta in *. lia.
Qed.

Lemma cleanup_times_run_checked ops : forall s s',
  pool_wf s ->
  cleanup_times_ok s ->
  run_checked thread_starts ops s = Some s' ->
  cleanup_times_ok s'.
Proof.
  induction ops as [|o ops IH]; intros s s' Hwf Hok Hrun.
  { cbn [run_checked] in Hrun. by simplify_eq. }
  apply run_checked_cons in Hrun as (s1 & Hen & Hop & Hrun).
  pose proof (cleanup_times_run_op o s s1 Hwf Hen Hop Hok) as Hok1.
  destruct (run_op_Ok thread_starts o s Hwf Hen) as (s1' & Hop' & Hwf1).
  rewrite Hop in Hop'. simplify_eq. by eapply IH.
Qed.

(** X9: the detach-duration histogram never gets a negative sample.  Each
    [Cleanup] pushes the time of the clock, which does not go back, and
    each creation of a worker pops the latest of these times and records
    how long ago it was; the times still on [cleanup_timestamps_] are in
    the past. *)
Theorem detach_durations_are_not_negative (s : Pool) :
  reachable thread_starts s ->
  Forall (fun sample => 0 <= sample) (detach_durations (trace s))
  /\ Forall (fun t => t <= now s) (cleanup_timestamps_ s).
Proof.
  intros [ops Hops].
  destruct (cleanup_times_run_checked ops initial_pool s) as [Hpast Hpos].
  - apply initial_pool_wf.
  - split; constructor.
  - done.
  - done.
Qed.


(** *** The counters of a delegate *)

Lemma to_size_t_succ n (k : nat) :
  to_size_t (to_size_t (n + 1) + Z.of_nat k) = to_size_t (n + Z.of_nat (S k)).
Proof.
  unfold to_size_t. rewrite Z.add_mod_idemp_l by lia. f_equal. lia.
Qed.

Lemma to_size_t_range z : 0 <= to_size_t z < 2 ^ 64.
Proof. unfold to_size_t. apply Z.mod_pos_bound. lia. Qed.

(** [k] tasks run by a worker that is not idle. *)
Lemma DidRunTask_repeated (w : Worker) (k : nat) : forall s d,
  pool_wf s ->
  w ∈ workers_ s ->
  w ∉ idle_workers_stack_ s ->
  delegates s !! w = Some d ->
  0 <= num_tasks_since_last_wait_ d < 2 ^ 64 ->
  0 <= num_tasks_since_last_detach_ d < 2 ^ 64 ->
  exists s1 d1,
    run_ops thread_starts (replicate k (OpDidRunTask w)) s = Ok (tt, s1)
    /\ pool_wf s1
    /\ workers_ s1 = workers_ s
    /\ idle_workers_stack_ s1 = idle_workers_stack_ s
    /\ shared_priority_queue_ s1 = shared_priority_queue_ s
    /\ trace s1 = trace s
    /\ delegates s1 !! w = Some d1
    /\ is_on_idle_workers_stack_ d1 = is_on_idle_workers_stack_ d
    /\ num_tasks_since_last_wait_ d1
       = to_size_t (num_tasks_since_last_wait_ d + Z.of_nat k)
    /\ num_tasks_since_last_detach_ d1
       = to_size_t (num_tasks_since_last_detach_ d + Z.of_nat k).
Proof.
  induction k as [|k IH]; intros s d Hwf Hw Hnot Hd Hwait Hdetach.
  { exists s, d. cbn [replicate run_ops]. rewrite !Z.add_0_r.
    rewrite !to_size_t_small by done. split_and!; done. }
  cbn [replicate run_ops run_op].
  destruct (DidRunTask_Ok w s Hwf Hw Hnot) as (s0 & Hrun & Hwf0).
  rewrite (DidRunTask_eq w d s Hd) in Hrun. simplify_eq.
  rewrite (bind_Ok _ _ _ _ _ (DidRunTask_eq w d s Hd)).
  set (d0 := with_num_tasks_since_last_detach _ _) in *.
  set (s0 := set_delegates (insert w d0) s) in *.
  destruct (IH s0 d0) as (s1 & d1 & Hrun1 & Hwf1 & Hws1 & Hidle1 & Hqueue1
                          & Htrace1 & Hd1 & Hflag1 & Hwait1 & Hdetach1).
  - done.
  - unfold s0. by fields.
  - unfold s0. by fields.
  - unfold s0. fields. by rewrite lookup_insert_eq.
  - apply to_size_t_range.
  - apply to_size_t_range.
  - exists s1, d1. split_and!; try done.
    + rewrite Hwait1. apply to_size_t_succ.
    + rewrite Hdetach1. apply to_size_t_succ.
Qed.

(** X10: the histogram of the tasks between waits gets the number of tasks
    that the worker ran since it last waited.  After [k] calls of
    [DidRunTask] a worker that finds the queue empty records its count
    raised by [k], resets it, and goes idle; the count of the tasks since
    the last detach is raised by [k], as a [size_t], and kept.  The count
    recorded is taken up to [INT_MAX], where the sample of the histogram is
    the counter itself. *)
Theorem tasks_between_waits_are_counted
    (k : nat) (s : Pool) (w : Worker) (d : Delegate) :
  pool_wf s ->
  w ∈ workers_ s ->
  delegates s !! w = Some d ->
  is_on_idle_workers_stack_ d = false ->
  shared_priority_queue_ s = [] ->
  0 <= num_tasks_since_last_wait_ d ->
  num_tasks_since_last_wait_ d + Z.of_nat k <= INT_MAX ->
  0 <= num_tasks_since_last_detach_ d < 2 ^ 64 ->
  exists s1 s2 d2,
    run_ops thread_starts (replicate k (OpDidRunTask w)) s = Ok (tt, s1)
    /\ GetWork w s1 = Ok (None, s2)
    /\ EvHistogram num_tasks_between_waits_histogram_
         (num_tasks_since_last_wait_ d + Z.of_nat k)
       ∈ drop (length (trace s)) (trace s2)
    /\ delegates s2 !! w = Some d2
    /\ is_on_idle_workers_stack_ d2 = true
    /\ num_tasks_since_last_wait_ d2 = 0
    /\ num_tasks_since_last_detach_ d2
       = to_size_t (num_tasks_since_last_detach_ d + Z.of_nat k).
Proof.
  intros Hwf Hw Hd Hflag Hqueue Hwait0 Hsample Hdetach.
  unfold INT_MAX in Hsample.
  assert (0 <= num_tasks_since_last_wait_ d < 2 ^ 64) as Hwait by lia.
  assert (w ∉ idle_workers_stack_ s) as Hnot.
  { pose proof Hwf as (_ & _ & _ & Hdel).
    destruct (Hdel w Hw) as (d' & Hd' & Hidle & _).
    intros Hin. apply Hidle in Hin. congruence. }
  destruct (DidRunTask_repeated w k s d Hwf Hw Hnot Hd Hwait Hdetach)
    as (s1 & d1 & Hrun1 & Hwf1 & Hws1 & Hidle1 & Hqueue1 & Htrace1 & Hd1
        & Hflag1 & Hwait1 & Hdetach1).
  assert (w ∈ workers_ s1) as Hw1 by by rewrite Hws1.
  rewrite Hflag in Hflag1.
  pose proof (GetWork_running_Ok w d1 s1 Hwf1 Hw1 Hd1 Hflag1) as Hget.
  rewrite Hqueue1, Hqueue in Hget.
  destruct (gone_idle_fields w d1 s1)
    as (_ & _ & _ & Htrace2 & Hd2 & _).
  exists s1, (gone_idle w d1 s1). eexists. split_and!; [done|done| |done|..].
  - rewrite Htrace2, Htrace1, drop_app_length, Hwait1.
    rewrite to_size_t_small by lia.
    rewrite elem_of_cons. by left.
  - done.
  - done.
  - done.
Qed.

(** X11: the condition variable on which
    [WaitForAllWorkersIdleForTesting] waits is broadcast exactly when the
    wait is over.  A worker that goes idle records its tasks, goes on top
    of the idle stack, and broadcasts if and only if the loop of the
    waiter now finds every worker idle. *)
Theorem idle_broadcast_ends_the_wait
    (s : Pool) (w : Worker) (d : Delegate) :
  pool_wf s ->
  w ∈ workers_ s ->
  delegates s !! w = Some d ->
  is_on_idle_workers_stack_ d = false ->
  shared_priority_queue_ s = [] ->
  exists s',
    GetWork w s = Ok (None, s')
    /\ PeekAtIdleWorkersStack s' = Some w
    /\ trace s'
       = trace s
         ++ EvHistogram num_tasks_between_waits_histogram_
              (num_tasks_since_last_wait_ d)
            :: (if WaitForAllWorkersIdleForTesting_waits s'
                then [] else [EvBroadcastIdle]).
Proof.
  intros Hwf Hw Hd Hflag Hqueue.
  assert (w ∉ idle_workers_stack_ s) as Hnot.
  { pose proof Hwf as (_ & _ & _ & Hdel).
    destruct (Hdel w Hw) as (d' & Hd' & Hidle & _).
    intros Hin. apply Hidle in Hin. congruence. }
  pose proof (GetWork_running_Ok w d s Hwf Hw Hd Hflag) as Hget.
  rewrite Hqueue in Hget.
  pose proof (idle_room s w Hwf Hw Hnot) as Hroom.
  destruct (gone_idle_fields w d s) as (Hidle1 & Hws1 & _ & Htrace1 & _).
  exists (gone_idle w d s). split_and!; [done| |].
  - unfold PeekAtIdleWorkersStack. by rewrite Hidle1.
  - rewrite Htrace1. unfold WaitForAllWorkersIdleForTesting_waits.
    rewrite Hidle1, Hws1. unfold SchedulerWorkerStack.Size. cbn [length].
    destruct (S (length (idle_workers_stack_ s)) =? length (workers_ s))%nat
      eqn:Hall.
    + apply Nat.eqb_eq in Hall. rewrite Hall, Nat.ltb_irrefl. done.
    + apply Nat.eqb_neq in Hall.
      assert ((S (length (idle_workers_stack_ s)) <? length (workers_ s))%nat
              = true) as -> by (apply Nat.ltb_lt; lia).
      done.
Qed.

(** *** [Start] without capacity *)



(** *** A worker that leaves, and the others *)

(** X13: a worker that timed out and may clean itself up leaves the pool
    for good: [GetWork] records its tasks, calls [Cleanup()] on it and
    takes it from [workers_] and from the idle stack, so that the
    assertions of [OnMainExit] hold; a later [GetWork] of that worker would
    fail its first [DCHECK]. *)
Theorem cleaned_up_worker_has_left
    (s : Pool) (w : Worker) (d : Delegate) :
  pool_wf s ->
  w ∈ workers_ s ->
  delegates s !! w = Some d ->
  is_on_idle_workers_stack_ d = true ->
  CanCleanup w s = true ->
  exists s',
    GetWork w s = Ok (None, s')
    /\ trace s'
       = trace s
         ++ [EvHistogram num_tasks_before_detach_histogram_
               (num_tasks_since_last_detach_ d);
             EvWorkerCleanup w;
             EvHistogram num_tasks_between_waits_histogram_
               (num_tasks_since_last_wait_ d)]
    /\ cleanup_timestamps_ s' = now s :: cleanup_timestamps_ s
    /\ S (length (workers_ s')) = length (workers_ s)
    /\ OnMainExit false false w s' = Ok (tt, s')
    /\ GetWork w s' = Abort DCheckFailure.
Proof.
  intros Hwf Hw Hd Hflag Hcan.
  pose proof Hwf as ((Hnd & _ & _) & Hndw & _ & _).
  pose proof (GetWork_timed_out_Ok w d s Hwf Hw Hd Hflag) as Hget.
  rewrite Hcan in Hget.
  set (s' := emit _ (cleaned w d s)) in *.
  assert (workers_ s' = erase_first w (workers_ s)) as Hws'.
  { unfold s', cleaned. by fields. }
  assert (idle_workers_stack_ s' = erase_first w (idle_workers_stack_ s))
    as Hidle'.
  { unfold s', cleaned. fields. apply Remove_erase_first. }
  assert (ContainsWorker (workers_ s') w = false) as Hgone.
  { apply not_true_is_false. rewrite ContainsWorker_elem, Hws'.
    by apply erase_first_not_elem. }
  exists s'. split_and!.
  - done.
  - unfold s', cleaned. fields. by rewrite <- !app_assoc.
  - unfold s', cleaned. by fields.
  - rewrite Hws'. by apply erase_first_length_elem.
  - unfold OnMainExit, idle_Contains. cbn [negb andb].
    rewrite bind_gets.
    assert (SchedulerWorkerStack.Contains w (idle_workers_stack_ s') = false)
      as ->.
    { apply Contains_not_elem. rewrite Hidle'.
      by apply erase_first_not_elem. }
    cbn [negb]. rewrite bind_DCHECK, bind_gets, Hgone. reflexivity.
  - unfold GetWork. rewrite bind_gets, Hgone. reflexivity.
Qed.


(** *** Calls of the other threads *)

Lemma task_counters_frame w s s' :
  delegates s' = delegates s -> task_counters w s' = task_counters w s.
Proof. unfold task_counters. by intros ->. Qed.

Lemma task_counters_insert_ne w w' d s :
  w <> w' ->
  task_counters w (set_delegates (insert w' d) s) = task_counters w s.
Proof.
  intros Hne. unfold task_counters. fields. by rewrite lookup_insert_ne.
Qed.

Lemma task_counters_spec_wake w w' s :
  task_counters w (spec_wake w' s) = task_counters w s.
Proof.
  unfold task_counters, spec_wake. fields.
  destruct (decide (w = w')) as [->|Hne].
  - rewrite lookup_alter_eq. by destruct (delegates s !! w').
  - by rewrite lookup_alter_ne.
Qed.

Lemma task_counters_created w s :
  w <> next_worker s ->
  task_counters w (created s) = task_counters w s.
Proof.
  intros Hne. unfold task_counters. fields. by rewrite lookup_insert_ne.
Qed.

Lemma wake_one_other w s :
  pool_wf s ->
  w ∈ workers_ s ->
  w ∈ workers_ (wake_one thread_starts s)
  /\ task_counters w (wake_one thread_starts s) = task_counters w s.
Proof.
  intros Hwf Hw.
  assert (w <> next_worker s) as Hne.
  { destruct Hwf as (_ & _ & Hfresh & _). intros ->.
    apply Hfresh in Hw. lia. }
  unfold wake_one. rewrite spec_create_worker_eq.
  destruct (spec_has_room s).
  - destruct (thread_starts (next_worker s)).
    + rewrite task_counters_spec_wake, task_counters_created by done.
      unfold spec_wake. fields. split; [|done].
      rewrite elem_of_app. by left.
    + split; [by fields|]. by apply task_counters_frame; fields.
  - destruct (idle_workers_stack_ s); [done|].
    rewrite task_counters_spec_wake. unfold spec_wake. fields.
    split; [done|]. by apply task_counters_frame; fields.
Qed.

Lemma keep_one_idle_other w s :
  pool_wf s ->
  w ∈ workers_ s ->
  w ∈ workers_ (keep_one_idle thread_starts s)
  /\ task_counters w (keep_one_idle thread_starts s) = task_counters w s.
Proof.
  intros Hwf Hw.
  assert (w <> next_worker s) as Hne.
  { destruct Hwf as (_ & _ & Hfresh & _). intros ->.
    apply Hfresh in Hw. lia. }
  destruct (keep_one_idle_cases s) as [-> | [[_ ->] | [_ ->]]]; [done|..].
  - split; [by fields|]. by apply task_counters_frame; fields.
  - split.
    + fields. rewrite elem_of_app. by left.
    + rewrite <- (task_counters_created w s Hne).
      by apply task_counters_frame; fields.
Qed.

Lemma WakeUpOneWorker_spec_other w s :
  pool_wf s ->
  w ∈ workers_ s ->
  w ∈ workers_ (WakeUpOneWorker_spec thread_starts s)
  /\ task_counters w (WakeUpOneWorker_spec thread_starts s)
     = task_counters w s.
Proof.
  intros Hwf Hw. rewrite WakeUpOneWorker_spec_eq.
  destruct (workers_ s) as [|w0 ws] eqn:Hws; [by apply elem_of_nil in Hw|].
  rewrite <- Hws in Hw.
  destruct (wake_one_other w s Hwf Hw) as [Hw1 Hcount1].
  destruct (keep_one_idle_other w (wake_one thread_starts s)
              (pool_wf_wake_one thread_starts s Hwf) Hw1) as [Hw2 Hcount2].
  split; [done|]. by rewrite Hcount2.
Qed.

Lemma GetWork_spec_other w w' s :
  pool_wf s ->
  w ∈ workers_ s ->
  w <> w' ->
  w ∈ workers_ (snd (GetWork_spec w' s))
  /\ task_counters w (snd (GetWork_spec w' s)) = task_counters w s.
Proof.
  intros Hwf Hw Hne. unfold GetWork_spec.
  destruct (delegates s !! w') as [d|]; [|done].
  destruct (is_on_idle_workers_stack_ d); cbn [snd].
  - destruct (CanCleanup w' s).
    + split.
      * unfold cleaned. fields. by apply erase_first_other.
      * apply task_counters_frame. unfold cleaned. by fields.
    + split; [by fields|]. by apply task_counters_frame; fields.
  - destruct (shared_priority_queue_ s) as [|[key sequence] rest]; cbn [snd].
    + destruct (gone_idle_fields w' d s) as (_ & -> & _).
      split; [done|]. unfold task_counters, gone_idle.
      destruct (S (length (idle_workers_stack_ s)) =? length (workers_ s))%nat;
        fields; by rewrite !lookup_insert_ne.
    + split; [by fields|]. by apply task_counters_frame; fields.
Qed.

Lemma run_op_other w o s s' :
  pool_wf s ->
  enabled thread_starts s o ->
  is_call_of w o = false ->
  w ∈ workers_ s ->
  run_op thread_starts o s = Ok (tt, s') ->
  w ∈ workers_ s' /\ task_counters w s' = task_counters w s.
Proof.
  intros Hwf Hen Hother Hw Hrun.
  destruct o; cbn [run_op enabled is_call_of] in *.
  - destruct Hen as [Hws _]. rewrite Hws in Hw. by apply elem_of_nil in Hw.
  - unfold ScheduleSequence, queue_Push in Hrun. rewrite bind_modify in Hrun.
    rewrite WakeUpOneWorker_Ok in Hrun by (revert Hwf; by apply pool_wf_frame).
    simplify_eq.
    set (s0 := set_queue _ s).
    destruct (WakeUpOneWorker_spec_other w s0) as [Hw' Hcount'].
    + unfold s0. revert Hwf. by apply pool_wf_frame.
    + unfold s0. by fields.
    + split; [done|]. rewrite Hcount'. apply task_counters_frame.
      unfold s0. by fields.
  - rewrite WakeUpOneWorker_Ok in Hrun by done. simplify_eq.
    by apply WakeUpOneWorker_spec_other.
  - destruct (GetWork_Ok worker s Hwf Hen) as [Heq _].
    rewrite (bind_Ok _ _ _ _ _
               (eq_trans Heq (f_equal Ok (surjective_pairing _)))) in Hrun.
    unfold ret in Hrun. simplify_eq.
    apply GetWork_spec_other; [done|done|].
    intros <-. by rewrite Nat.eqb_refl in Hother.
  - unfold ReEnqueueSequence, queue_Push, modify in Hrun. simplify_eq.
    split; [by fields|]. by apply task_counters_frame; fields.
  - destruct Hen as [Hw0 _].
    pose proof Hwf as (_ & _ & _ & Hdel).
    destruct (Hdel worker Hw0) as (d & Hd & _).
    rewrite (DidRunTask_eq worker d s Hd) in Hrun. simplify_eq.
    split; [by fields|]. apply task_counters_insert_ne.
    intros <-. by rewrite Nat.eqb_refl in Hother.
  - unfold DisallowWorkerCleanupForTesting, modify in Hrun. simplify_eq.
    split; [by fields|]. by apply task_counters_frame; fields.
  - unfold modify in Hrun. simplify_eq.
    split; [by fields|]. by apply task_counters_frame; fields.
Qed.

(** X14: the calls of the other threads leave a worker in the pool and its
    counters as they are: a worker leaves the pool, and its tasks are
    counted, only through calls of its own delegate.  So a worker that has
    run no task since its last wait passes the assertions of [OnMainEntry]
    whenever its thread gets to run. *)
Theorem other_calls_leave_a_worker_alone
    (ops : list Op) (s s' : Pool) (w : Worker) :
  pool_wf s ->
  w ∈ workers_ s ->
  Forall (fun o => is_call_of w o = false) ops ->
  run_checked thread_starts ops s = Some s' ->
  w ∈ workers_ s'
  /\ task_counters w s' = task_counters w s
  /\ (forall n, task_counters w s = Some (0, n) ->
                OnMainEntry w s' = Ok (tt, s')).
Proof.
  intros Hwf Hw Hothers Hrun.
  assert (w ∈ workers_ s' /\ task_counters w s' = task_counters w s)
    as [Hw' Hcount'].
  { revert s Hwf Hw Hrun.
    induction Hothers as [|o ops Hother Hothers IH]; intros s Hwf Hw Hrun.
    { cbn [run_checked] in Hrun. by simplify_eq. }
    apply run_checked_cons in Hrun as (s1 & Hen & Hop & Hrun).
    destruct (run_op_other w o s s1 Hwf Hen Hother Hw Hop) as [Hw1 Hcount1].
    destruct (run_op_Ok thread_starts o s Hwf Hen) as (s1' & Hop' & Hwf1).
    rewrite Hop in Hop'. simplify_eq.
    destruct (IH s1' Hwf1 Hw1 Hrun) as [Hw' Hcount'].
    split; [done|]. by rewrite Hcount'. }
  split_and!; [done|done|].
  intros n Hzero. rewrite <- Hcount' in Hzero.
  unfold task_counters in Hzero.
  destruct (delegates s' !! w) as [d|] eqn:Hd; [|done].
  cbn [fmap option_fmap option_map] in Hzero.
  injection Hzero as Hwait _.
  unfold OnMainEntry. rewrite bind_gets.
  rewrite (proj2 (ContainsWorker_elem _ _) Hw'), bind_DCHECK.
  rewrite (bind_Ok _ _ _ _ _ (delegate_Ok _ _ _ Hd)).
  by rewrite Hwait.
Qed.

(** *** A sequence that is put back *)





(** *** A machine that creates no more threads *)

(** X16: when the idle stack is empty and no thread can be created,
    [WakeUpOneWorker] wakes nobody.  It tries twice to create a worker, for
    the wake-up and for the standby, and returns with the pool as it was:
    the request is dropped, and a sequence just queued waits for a worker
    that is running to ask for work. *)
Theorem WakeUpOneWorker_when_no_thread_starts (s : Pool) :
  pool_wf s ->
  workers_ s <> [] ->
  idle_workers_stack_ s = [] ->
  Z.of_nat (length (workers_ s)) < worker_capacity_ s ->
  thread_starts (next_worker s) = false ->
  thread_starts (S (next_worker s)) = false ->
  exists s',
    WakeUpOneWorker thread_starts s = Ok (tt, s')
    /\ next_worker s' = S (S (next_worker s))
    /\ workers_ s' = workers_ s
    /\ idle_workers_stack_ s' = []
    /\ delegates s' = delegates s
    /\ shared_priority_queue_ s' = shared_priority_queue_ s
    /\ trace s' = trace s.
Proof.
  intros Hwf Hne Hidle Hroom Hfirst Hsecond.
  exists (WakeUpOneWorker_spec thread_starts s).
  split; [by apply WakeUpOneWorker_Ok|].
  rewrite WakeUpOneWorker_spec_eq.
  destruct (workers_ s) as [|w0 ws] eqn:Hws; [done|]. rewrite <- Hws in *.
  assert (forall s0,
            idle_workers_stack_ s0 = [] ->
            Z.of_nat (length (workers_ s0)) < worker_capacity_ s0 ->
            spec_has_room s0 = true) as Hhas.
  { intros s0 Hidle0 Hroom0. unfold spec_has_room. rewrite Hidle0.
    cbn [SchedulerWorkerStack.IsEmpty andb]. by apply Z.ltb_lt. }
  assert (wake_one thread_starts s = set_next_worker (S (next_worker s)) s)
    as ->.
  { unfold wake_one. rewrite (Hhas s Hidle Hroom), spec_create_worker_eq.
    by rewrite Hfirst. }
  set (s1 := set_next_worker (S (next_worker s)) s).
  assert (keep_one_idle thread_starts s1
          = set_next_worker (S (next_worker s1)) s1) as ->.
  { unfold keep_one_idle. rewrite Hhas, spec_create_worker_eq.
    - unfold s1 at 1. fields. by rewrite Hsecond.
    - unfold s1. by fields.
    - unfold s1. by fields. }
  unfold s1. fields. by rewrite Hidle.
Qed.

(** *** From the request to the worker *)



End Facts.

(** *** The properties on sample pools *)

Lemma pool_before_start_reachable :
  reachable every_thread_starts pool_before_start.
Proof. exists ops_before_start. vm_compute. reflexivity. Qed.

Lemma pool_recreated_reachable :
  reachable every_thread_starts pool_recreated.
Proof. exists ops_recreated. vm_compute. reflexivity. Qed.

Lemma pool_started_reachable : reachable every_thread_starts pool_started.
Proof. exists ops_started. vm_compute. reflexivity. Qed.

Lemma pool_two_idle_reachable : reachable every_thread_starts pool_two_idle.
Proof. exists ops_two_idle. vm_compute. reflexivity. Qed.

Lemma enabled_calls_return_witness :
  (exists s',
     run_op every_thread_starts (OpStart (params_of 4)) pool_before_start
     = Ok (tt, s')
     /\ reachable every_thread_starts s')
  /\ (exists s',
        run_op every_thread_starts OpWakeUpOneWorker pool_before_start
        = Ok (tt, s')
        /\ reachable every_thread_starts s')
  /\ (exists s',
        run_op every_thread_starts (OpGetWork 0%nat) pool_started
        = Ok (tt, s')
        /\ reachable every_thread_starts s').
Proof.
  split_and!.
  - apply (enabled_calls_return every_thread_starts pool_before_start
             (OpStart (params_of 4))).
    + apply pool_before_start_reachable.
    + split; [reflexivity|]. intros _. reflexivity.
    + vm_compute. split; (split; [discriminate|]);
        [discriminate | reflexivity].
  - apply (enabled_calls_return every_thread_starts pool_before_start
             OpWakeUpOneWorker).
    + apply pool_before_start_reachable.
    + exact I.
    + intros _. vm_compute. reflexivity.
  - apply (enabled_calls_return every_thread_starts pool_started
             (OpGetWork 0%nat)).
    + apply pool_started_reachable.
    + vm_compute. repeat constructor.
    + exact I.
Defined.

Lemma delegate_flag_tracks_idle_stack_witness :
  NoDup (workers_ pool_two_idle)
  /\ NoDup (idle_workers_stack_ pool_two_idle).
Proof.
  destruct (delegate_flag_tracks_idle_stack every_thread_starts
              pool_two_idle) as (Hworkers & Hidle & _).
  - apply pool_two_idle_reachable.
  - split; [exact Hworkers | exact Hidle].
Defined.

Lemma pool_keeps_a_worker_witness :
  exists s',
    run_op every_thread_starts (OpGetWork 2%nat) pool_two_idle = Ok (tt, s')
    /\ workers_ s' <> [].
Proof.
  eexists. split; [vm_compute; reflexivity|].
  apply (pool_keeps_a_worker every_thread_starts pool_two_idle _
           (OpGetWork 2%nat)).
  - apply pool_two_idle_wf.
  - vm_compute. repeat constructor.
  - vm_compute. discriminate.
  - vm_compute. reflexivity.
Defined.

Lemma no_cleanup_once_disallowed_witness :
  exists s',
    run_checked every_thread_starts [OpGetWork 2%nat]
      (set_cleanup_disallowed true pool_two_idle) = Some s'
    /\ worker_cleanup_disallowed_ s' = true
    /\ workers_ pool_two_idle `prefix_of` workers_ s'.
Proof.
  eexists. split; [vm_compute; reflexivity|].
  apply (no_cleanup_once_disallowed every_thread_starts [OpGetWork 2%nat]
           (set_cleanup_disallowed true pool_two_idle)).
  - apply (pool_wf_frame pool_two_idle); try reflexivity.
    apply pool_two_idle_wf.
  - reflexivity.
  - vm_compute. reflexivity.
Defined.

Lemma Start_parameters_are_kept_witness :
  exists s',
    run_checked every_thread_starts [OpStart (params_of 4); OpWakeUpOneWorker]
      pool_before_start = Some s'
    /\ GetMaxConcurrentTasksDeprecated s' = Ok (4, s')
    /\ GetSleepTimeout s' = 30.
Proof.
  eexists. split; [vm_compute; reflexivity|].
  destruct (Start_parameters_are_kept every_thread_starts (params_of 4)
              (params_of 1) [OpWakeUpOneWorker] pool_before_start)
    with (s' := default initial_pool
                  (run_checked every_thread_starts
                     [OpStart (params_of 4); OpWakeUpOneWorker]
                     pool_before_start))
    as (Hmax & Hsleep & _).
  - apply pool_before_start_wf.
  - vm_compute. discriminate.
  - vm_compute. split; [reflexivity | discriminate].
  - vm_compute. reflexivity.
  - split; [exact Hmax | exact Hsleep].
Defined.

Lemma WakeUpOneWorker_wakes_top_of_idle_stack_witness :
  exists s',
    WakeUpOneWorker every_thread_starts pool_two_idle = Ok (tt, s')
    /\ woken (trace s') = woken (trace pool_two_idle) ++ [0%nat]
    /\ idle_workers_stack_ s' = [2%nat].
Proof.
  destruct (WakeUpOneWorker_wakes_top_of_idle_stack every_thread_starts
              pool_two_idle 0%nat [2%nat])
    as (s' & Hrun & Hwoken & _ & _ & Hrest).
  - apply pool_two_idle_wf.
  - reflexivity.
  - exists s'. split_and!; [exact Hrun | exact Hwoken|].
    destruct Hrest as [Hidle _]; [discriminate | exact Hidle].
Defined.

Lemma GetWork_then_WakeUpOneWorker_witness :
  exists s1 s2,
    GetWork 1%nat pool_two_idle = Ok (None, s1)
    /\ WakeUpOneWorker every_thread_starts s1 = Ok (tt, s2)
    /\ idle_workers_stack_ s2 = [0%nat; 2%nat].
Proof.
  destruct (GetWork_then_WakeUpOneWorker every_thread_starts pool_two_idle
              1%nat (with_is_on_idle_workers_stack false new_delegate))
    as (s1 & s2 & Hget & _ & Hwake & _ & _ & Hrest).
  - apply pool_two_idle_wf.
  - vm_compute. repeat constructor.
  - vm_compute. reflexivity.
  - reflexivity.
  - reflexivity.
  - exists s1, s2. split_and!; [exact Hget | exact Hwake|].
    destruct Hrest as [Hidle _]; [discriminate | exact Hidle].
Defined.

Lemma WakeUpOneWorker_keeps_a_standby_witness :
  exists s',
    WakeUpOneWorker every_thread_starts pool_started = Ok (tt, s')
    /\ (idle_workers_stack_ s' <> []
        \/ Z.of_nat (length (workers_ s')) = worker_capacity_ s').
Proof.
  apply (WakeUpOneWorker_keeps_a_standby every_thread_starts pool_started).
  - apply pool_started_wf.
  - vm_compute. discriminate.
  - intros w. reflexivity.
Defined.

Lemma detach_durations_are_not_negative_witness :
  detach_durations (trace pool_recreated) = [10]
  /\ cleanup_timestamps_ pool_recreated = [10]
  /\ now pool_recreated = 25
  /\ Forall (fun sample => 0 <= sample)
       (detach_durations (trace pool_recreated))
  /\ Forall (fun t => t <= now pool_recreated)
       (cleanup_timestamps_ pool_recreated).
Proof.
  destruct (detach_durations_are_not_negative every_thread_starts
              pool_recreated) as [Hpos Hpast].
  - apply pool_recreated_reachable.
  - split_and!; [reflexivity | reflexivity | reflexivity
                 | exact Hpos | exact Hpast].
Defined.

Lemma tasks_between_waits_are_counted_witness :
  exists s1 s2,
    run_ops every_thread_starts (replicate 3 (OpDidRunTask 1%nat))
      pool_two_idle = Ok (tt, s1)
    /\ GetWork 1%nat s1 = Ok (None, s2)
    /\ EvHistogram num_tasks_between_waits_histogram_ 3
       ∈ drop (length (trace pool_two_idle)) (trace s2).
Proof.
  destruct (tasks_between_waits_are_counted every_thread_starts 3
              pool_two_idle 1%nat
              (with_is_on_idle_workers_stack false new_delegate))
    as (s1 & s2 & d2 & Hrun & Hget & Hsample & _).
  - apply pool_two_idle_wf.
  - vm_compute. repeat constructor.
  - vm_compute. reflexivity.
  - reflexivity.
  - reflexivity.
  - vm_compute. discriminate.
  - vm_compute. discriminate.
  - vm_compute. split; [discriminate | reflexivity].
  - exists s1, s2. split_and!; [exact Hrun | exact Hget | exact Hsample].
Defined.

Lemma idle_broadcast_ends_the_wait_witness :
  exists s',
    GetWork 1%nat pool_two_idle = Ok (None, s')
    /\ PeekAtIdleWorkersStack s' = Some 1%nat.
Proof.
  destruct (idle_broadcast_ends_the_wait pool_two_idle 1%nat
              (with_is_on_idle_workers_stack false new_delegate))
    as (s' & Hget & Hpeek & _).
  - apply pool_two_idle_wf.
  - vm_compute. repeat constructor.
  - vm_compute. reflexivity.
  - reflexivity.
  - reflexivity.
  - exists s'. split; [exact Hget | exact Hpeek].
Defined.


Lemma cleaned_up_worker_has_left_witness :
  exists s',
    GetWork 2%nat pool_two_idle = Ok (None, s')
    /\ OnMainExit false false 2%nat s' = Ok (tt, s')
    /\ GetWork 2%nat s' = Abort DCheckFailure.
Proof.
  destruct (cleaned_up_worker_has_left pool_two_idle 2%nat new_delegate)
    as (s' & Hget & _ & _ & _ & Hexit & Hagain).
  - apply pool_two_idle_wf.
  - vm_compute. repeat constructor.
  - vm_compute. reflexivity.
  - reflexivity.
  - vm_compute. reflexivity.
  - exists s'. split_and!; [exact Hget | exact Hexit | exact Hagain].
Defined.

Lemma other_calls_leave_a_worker_alone_witness :
  exists s',
    run_checked every_thread_starts [OpGetWork 2%nat; OpWakeUpOneWorker]
      pool_two_idle = Some s'
    /\ 1%nat ∈ workers_ s'
    /\ OnMainEntry 1%nat s' = Ok (tt, s').
Proof.
  eexists. split; [vm_compute; reflexivity|].
  destruct (other_calls_leave_a_worker_alone every_thread_starts
              [OpGetWork 2%nat; OpWakeUpOneWorker] pool_two_idle)
    with (w := 1%nat)
         (s' := default initial_pool
                  (run_checked every_thread_starts
                     [OpGetWork 2%nat; OpWakeUpOneWorker] pool_two_idle))
    as (Hin & _ & Hentry).
  - apply pool_two_idle_wf.
  - vm_compute. repeat constructor.
  - repeat constructor.
  - vm_compute. reflexivity.
  - split; [exact Hin|]. apply (Hentry 0). vm_compute. reflexivity.
Defined.


Lemma WakeUpOneWorker_when_no_thread_starts_witness :
  exists s s',
    run_checked only_first_thread_starts
      [OpStart (params_of 4); OpWakeUpOneWorker] initial_pool = Some s
    /\ WakeUpOneWorker only_first_thread_starts s = Ok (tt, s')
    /\ workers_ s' = [0%nat]
    /\ trace s' = trace s.
Proof.
  eexists. 
  destruct (WakeUpOneWorker_when_no_thread_starts only_first_thread_starts
              (default initial_pool
                 (run_checked only_first_thread_starts
                    [OpStart (params_of 4); OpWakeUpOneWorker] initial_pool)))
    as (s' & Hrun & _ & Hworkers & _ & _ & _ & Htrace).
  - apply (run_checked_wf only_first_thread_starts
             [OpStart (params_of 4); OpWakeUpOneWorker] initial_pool);
      [apply initial_pool_wf | vm_compute; reflexivity].
  - vm_compute. discriminate.
  - vm_compute. reflexivity.
  - vm_compute. reflexivity.
  - vm_compute. reflexivity.
  - vm_compute. reflexivity.
  - exists s'. split_and!; [vm_compute; reflexivity | exact Hrun
                            | exact Hworkers | exact Htrace].
Defined.


End WorkerPoolLife.

(** ** The life of a controller: more of thread_controller_impl.cc *)

Module ThreadControllerLife.

Import WorkDeduplicator ThreadController MonadFacts ThreadControllerFacts.

(** *** Computations that keep a view of the state *)

Section Keeps.

Context {S V : Type} (f : S -> V).

Lemma keeps_ret {A} (a : A) : keeps f (ret a).
Proof. unfold keeps, ret. by intros s a' s' [= <- <-]. Qed.

Lemma keeps_gets {A} (g : S -> A) : keeps f (gets g).
Proof. unfold keeps, gets. by intros s a' s' [= <- <-]. Qed.

Lemma keeps_DCHECK (b : bool) : keeps f (DCHECK b).
Proof.
  unfold keeps. intros s a s' Hrun. by apply DCHECK_inv in Hrun as [_ ->].
Qed.

Lemma keeps_modify (g : S -> S) :
  (forall s, f (g s) = f s) -> keeps f (modify g).
Proof. unfold keeps, modify. intros Hg s a s' [= <- <-]. apply Hg. Qed.

Lemma keeps_bind {A B} (c : M S A) (k : A -> M S B) :
  keeps f c -> (forall a, keeps f (k a)) -> keeps f (bind c k).
Proof.
  intros Hc Hk s b s' Hrun.
  apply bind_Ok_inv in Hrun as (a & s1 & Hrun1 & Hrun2).
  rewrite (Hk a _ _ _ Hrun2). by eapply Hc.
Qed.

End Keeps.

Section Facts.

Context {Src : Type} `{SequencedTaskSource Src}.

Local Open Scope monad_scope.

(** A view that the task source and the deduplicator are no part of. *)
Lemma keeps_on_sequence {A V} (view : Controller Src -> V)
    (g : Src -> A * Src) :
  (forall x c, view (set_sequence x c) = view c) ->
  keeps view (on_sequence g).
Proof.
  intros Hview c a c'. unfold on_sequence.
  destruct (sequence_ c) as [src|]; [|done].
  destruct (g src) as [a0 src']. intros [= <- <-]. apply Hview.
Qed.

Lemma keeps_deduplicator {V} (view : Controller Src -> V) :
  (forall call st c, view (set_deduplicator call st c) = view c) ->
  keeps view deduplicator_OnWorkRequested
  /\ keeps view deduplicator_OnDelayedWorkRequested
  /\ keeps view deduplicator_OnWorkStarted
  /\ keeps view deduplicator_WillCheckForMoreWork
  /\ forall next_task,
       keeps view (deduplicator_DidCheckForMoreWork next_task).
Proof.
  intros Hview. split_and!.
  - intros c a c'. unfold deduplicator_OnWorkRequested.
    destruct (OnWorkRequested (work_deduplicator_ c)) as [answer st].
    intros [= <- <-]. apply Hview.
  - intros c a c'. unfold deduplicator_OnDelayedWorkRequested.
    intros [= <- <-]. apply Hview.
  - apply keeps_modify. intros c. apply Hview.
  - apply keeps_modify. intros c. apply Hview.
  - intros next_task c a c'. unfold deduplicator_DidCheckForMoreWork.
    destruct (DidCheckForMoreWork next_task (work_deduplicator_ c))
      as [answer st].
    intros [= <- <-]. apply Hview.
Qed.

(** *** The bookkeeping of the delayed [DoWork] *)

Lemma delayed_view_post_immediate (c : Controller Src) :
  delayed_view (post PostTask_immediate_do_work c) = delayed_view c.
Proof.
  unfold delayed_view, delayed_closures.
  cbn [posted post next_delayed_do_work cancelable_delayed_do_work_closure_].
  rewrite omap_app. cbn. by rewrite app_nil_r.
Qed.

Lemma keeps_delayed_ScheduleWork : keeps delayed_view (@ScheduleWork Src).
Proof.
  destruct (keeps_deduplicator delayed_view) as (Hreq & _); [done|].
  unfold ScheduleWork. apply keeps_bind; [done|]. intros [].
  - apply keeps_modify. apply delayed_view_post_immediate.
  - apply keeps_ret.
Qed.

Lemma keeps_delayed_RunTask task : keeps delayed_view (@RunTask Src task).
Proof.
  unfold RunTask. apply keeps_bind; [by apply keeps_modify|]. intros _.
  apply keeps_bind.
  - destruct (task_requests_work task);
      [apply keeps_delayed_ScheduleWork | apply keeps_ret].
  - intros _. destruct (task_deletes_controller task);
      [by apply keeps_modify | apply keeps_ret].
Qed.

Lemma keeps_delayed_DoWork_batch n : keeps delayed_view (DoWork_batch n).
Proof.
  induction n as [|n IH]; cbn [DoWork_batch]; [apply keeps_ret|].
  apply keeps_bind; [by apply keeps_on_sequence|]. intros [task|].
  2: apply keeps_ret.
  apply keeps_bind; [apply keeps_gets|]. intros levels.
  apply keeps_bind; [apply keeps_DCHECK|]. intros _.
  apply keeps_bind; [by apply keeps_modify|]. intros _.
  apply keeps_bind; [apply keeps_delayed_RunTask|]. intros _.
  apply keeps_bind; [apply keeps_gets|]. intros valid.
  destruct (negb valid); [apply keeps_ret|].
  apply keeps_bind; [by apply keeps_on_sequence|]. intros _.
  apply keeps_bind; [by apply keeps_modify|]. intros _.
  apply keeps_bind; [apply keeps_gets|]. intros levels'.
  destruct (1 <? levels')%nat; [apply keeps_ret | apply IH].
Qed.

Lemma delayed_do_work_inv_view (c c' : Controller Src) :
  delayed_view c' = delayed_view c ->
  delayed_do_work_inv c -> delayed_do_work_inv c'.
Proof.
  unfold delayed_view, delayed_do_work_inv. by intros [= -> -> ->].
Qed.

(** The closure is cancelled and no time is recorded. *)
Lemma delayed_do_work_inv_cancel (c c' : Controller Src) :
  next_delayed_do_work c' = TimeTicks_Max ->
  cancelable_delayed_do_work_closure_ c'
  = Cancel (cancelable_delayed_do_work_closure_ c) ->
  delayed_closures c' = delayed_closures c ->
  delayed_do_work_inv c -> delayed_do_work_inv c'.
Proof.
  unfold delayed_do_work_inv. intros -> -> -> (_ & Hle & Hone & _).
  cbn [Cancel generation is_cancelled]. split_and!; done.
Qed.

Lemma filter_newer (g : nat) (l : list nat) :
  Forall (fun closure => (closure <= g)%nat) l ->
  filter (fun closure => closure = S g) l = [].
Proof.
  induction 1 as [|x l Hx _ IH]; [done|].
  rewrite filter_cons_False by lia. exact IH.
Qed.

(** The closure is reset, a time is recorded and the new callback is
    posted. *)
Lemma delayed_do_work_inv_rearm (c c' : Controller Src) (t : TimeTicks) :
  t <> TimeTicks_Max ->
  next_delayed_do_work c' = t ->
  cancelable_delayed_do_work_closure_ c'
  = Reset (cancelable_delayed_do_work_closure_ c) ->
  delayed_closures c'
  = delayed_closures c
    ++ [generation (cancelable_delayed_do_work_closure_ c')] ->
  delayed_do_work_inv c -> delayed_do_work_inv c'.
Proof.
  unfold delayed_do_work_inv. intros Hmax -> Hreset -> (_ & Hle & _ & _).
  rewrite Hreset. cbn [Reset generation is_cancelled].
  split_and!.
  - split; [done|discriminate].
  - apply Forall_app. split.
    + eapply Forall_impl; [exact Hle|]. intros x Hx. cbv beta in *. lia.
    + apply Forall_cons. split; [lia|constructor].
  - rewrite filter_app, (filter_newer _ _ Hle).
    rewrite filter_cons_True by done. cbn. lia.
  - intros _. apply last_snoc.
Qed.

Lemma delayed_do_work_inv_SetNextDelayedDoWork
    (lazy_now run_time : TimeTicks) (c c' : Controller Src) :
  SetNextDelayedDoWork lazy_now run_time c = Ok (tt, c') ->
  delayed_do_work_inv c -> delayed_do_work_inv c'.
Proof.
  unfold SetNextDelayedDoWork. rewrite bind_gets.
  destruct (has_sequence c); [rewrite bind_DCHECK | discriminate].
  rewrite bind_gets.
  destruct (next_delayed_do_work c =? run_time); [by intros [= <-]|].
  destruct (run_time =? TimeTicks_Max) eqn:Hmax.
  - rewrite bind_modify. intros [= <-].
    by apply delayed_do_work_inv_cancel.
  - apply Z.eqb_neq in Hmax.
    unfold deduplicator_OnDelayedWorkRequested, bind at 1.
    destruct (OnDelayedWorkRequested (work_deduplicator_ c)).
    + rewrite !bind_modify. unfold PostDelayedTask_cancelable, modify.
      intros [= <-]. apply (delayed_do_work_inv_rearm _ _ run_time Hmax).
      * reflexivity.
      * reflexivity.
      * unfold delayed_closures.
        cbn [posted post set_cancelable set_next_delayed_do_work
             set_deduplicator cancelable_delayed_do_work_closure_].
        by rewrite omap_app.
    + intros [= <-]. by apply delayed_do_work_inv_view.
Qed.

Lemma delayed_do_work_inv_DoWork_continuation
    (time_now : TimeTicks) (c c' : Controller Src) :
  DoWork_continuation time_now c = Ok (tt, c') ->
  delayed_do_work_inv c -> delayed_do_work_inv c'.
Proof.
  destruct (keeps_deduplicator delayed_view)
    as (_ & _ & _ & Hwill & Hdid); [done|].
  unfold DoWork_continuation. intros Hrun Hinv.
  apply bind_Ok_inv in Hrun as ([] & c1 & Hrun1 & Hrun).
  apply Hwill in Hrun1.
  apply bind_Ok_inv in Hrun as ([] & c2 & Hrun2 & Hrun).
  apply (keeps_on_sequence delayed_view) in Hrun2; [|done].
  apply bind_Ok_inv in Hrun as (t & c3 & Hrun3 & Hrun).
  apply (keeps_on_sequence delayed_view) in Hrun3; [|done].
  apply bind_Ok_inv in Hrun as (immediate & c4 & Hrun4 & Hrun).
  assert (delayed_view c4 = delayed_view c3) as Hview4.
  { destruct (t =? TimeTicks_null).
    - by apply ret_inv in Hrun4 as [_ ->].
    - by apply (keeps_on_sequence delayed_view) in Hrun4. }
  assert (delayed_do_work_inv c4) as Hinv4.
  { revert Hinv. apply delayed_do_work_inv_view. congruence. }
  clear Hrun1 Hrun2 Hrun3 Hrun4 Hview4 Hinv.
  assert (forall c5 c6 : Controller Src,
            delayed_do_work_inv c5 ->
            PostTask_immediate c5 = Ok (tt, c6) ->
            delayed_do_work_inv c6) as Hpost.
  { intros c5 c6 Hinv5 [= <-]. revert Hinv5.
    apply delayed_do_work_inv_view, delayed_view_post_immediate. }
  destruct immediate.
  - apply bind_Ok_inv in Hrun as (answer & c5 & Hrun5 & Hrun).
    apply Hdid in Hrun5.
    assert (delayed_do_work_inv c5) as Hinv5.
    { revert Hinv4. by apply delayed_do_work_inv_view. }
    destruct answer; [by eapply Hpost|].
    by apply ret_inv in Hrun as [_ ->].
  - apply bind_Ok_inv in Hrun as (answer & c5 & Hrun5 & Hrun).
    apply Hdid in Hrun5.
    assert (delayed_do_work_inv c5) as Hinv5.
    { revert Hinv4. by apply delayed_do_work_inv_view. }
    destruct answer; [by eapply Hpost|].
    unfold OnIdle in Hrun. rewrite bind_modify in Hrun.
    set (c6 := set_run_levels (set_top kIdle) c5) in *.
    assert (delayed_do_work_inv c6) as Hinv6.
    { revert Hinv5. by apply delayed_do_work_inv_view. }
    destruct (t =? TimeTicks_Max) eqn:Hmax.
    + rewrite bind_modify in Hrun. injection Hrun as <-.
      revert Hinv6. by apply delayed_do_work_inv_cancel.
    + apply Z.eqb_neq in Hmax. rewrite bind_gets in Hrun.
      destruct (t =? next_delayed_do_work c6);
        [by apply ret_inv in Hrun as [_ ->]|].
      rewrite !bind_modify in Hrun.
      unfold PostDelayedTask_cancelable, modify in Hrun.
      injection Hrun as <-. revert Hinv6.
      apply (delayed_do_work_inv_rearm _ _ t Hmax).
      * reflexivity.
      * reflexivity.
      * unfold delayed_closures.
        cbn [posted post set_cancelable set_next_delayed_do_work
             cancelable_delayed_do_work_closure_].
        by rewrite omap_app.
Qed.

Lemma delayed_do_work_inv_DoWork
    (work_type : WorkType) (time_now : TimeTicks) (c c' : Controller Src) :
  DoWork work_type time_now c = Ok (tt, c') ->
  delayed_do_work_inv c -> delayed_do_work_inv c'.
Proof.
  destruct (keeps_deduplicator delayed_view)
    as (_ & _ & Hstarted & _); [done|].
  unfold DoWork. intros Hrun Hinv.
  apply bind_Ok_inv in Hrun as (bound & c0 & Hrun0 & Hrun).
  apply gets_inv in Hrun0 as [-> ->].
  apply bind_Ok_inv in Hrun as ([] & c1 & Hrun1 & Hrun).
  apply DCHECK_inv in Hrun1 as [_ ->].
  apply bind_Ok_inv in Hrun as ([] & c2 & Hrun2 & Hrun).
  apply Hstarted in Hrun2.
  apply bind_Ok_inv in Hrun as (batch & c3 & Hrun3 & Hrun).
  apply gets_inv in Hrun3 as [-> ->].
  apply bind_Ok_inv in Hrun as (valid & c4 & Hrun4 & Hrun).
  apply keeps_delayed_DoWork_batch in Hrun4.
  assert (delayed_do_work_inv c4) as Hinv4.
  { revert Hinv. apply delayed_do_work_inv_view. congruence. }
  destruct valid; cbn [negb] in Hrun.
  - by eapply delayed_do_work_inv_DoWork_continuation.
  - by apply ret_inv in Hrun as [_ ->].
Qed.

Lemma delayed_do_work_inv_run_call
    (call : Call) (c c' : Controller Src) :
  run_call call c = Ok (tt, c') ->
  delayed_do_work_inv c -> delayed_do_work_inv c'.
Proof.
  destruct call; cbn [run_call]; intros Hrun.
  - apply delayed_do_work_inv_view. by eapply keeps_delayed_ScheduleWork.
  - by eapply delayed_do_work_inv_SetNextDelayedDoWork.
  - by eapply delayed_do_work_inv_DoWork.
  - destruct (OnBeginNestedRunLoop_Ok c) as (c1 & Hrun1 & _).
    apply delayed_do_work_inv_view. revert Hrun.
    unfold OnBeginNestedRunLoop, OnRunLoopStarted, PostTask_immediate.
    rewrite bind_modify. unfold deduplicator_OnWorkRequested, bind at 1.
    cbn [work_deduplicator_ set_run_levels].
    destruct (OnWorkRequested (work_deduplicator_ c)) as [answer st].
    rewrite bind_modify, bind_gets.
    cbn [nesting_observer_ post set_deduplicator set_run_levels].
    destruct (nesting_observer_ c); intros [= <-];
      unfold delayed_view, delayed_closures;
      cbn [posted post next_delayed_do_work notify_observer
           cancelable_delayed_do_work_closure_ set_deduplicator
           set_run_levels];
      rewrite omap_app; cbn; by rewrite app_nil_r.
  - apply delayed_do_work_inv_view. revert Hrun.
    unfold OnExitNestedRunLoop, OnRunLoopEnded. rewrite bind_gets.
    by destruct (nesting_observer_ c); intros [= <-].
  - apply delayed_do_work_inv_view. by injection Hrun as <-.
  - apply delayed_do_work_inv_view. by injection Hrun as <-.
  - apply delayed_do_work_inv_view. revert Hrun.
    unfold RemoveNestingObserver. rewrite bind_gets.
    destruct (nesting_observer_ c); [|discriminate].
    by intros [= <-].
Qed.

(** X18: the bookkeeping of the delayed [DoWork] holds after every call.
    Whatever the calls made on the controller, [next_delayed_do_work] is
    [TimeTicks::Max()] exactly when the cancelable closure is cancelled;
    each [PostDelayedTask] carried a closure made by a new [Reset], so that
    at most one of the delayed tasks posted is not stale; and while a time
    is recorded that task is the one posted last. *)
Theorem delayed_do_work_bookkeeping
    (calls : list Call) (c c' : Controller Src) :
  delayed_do_work_inv c ->
  run_calls calls c = Ok (tt, c') ->
  delayed_do_work_inv c'.
Proof.
  revert c. induction calls as [|call calls IH]; intros c Hinv Hrun.
  { cbn [run_calls] in Hrun. by apply ret_inv in Hrun as [_ ->]. }
  cbn [run_calls] in Hrun.
  apply bind_Ok_inv in Hrun as ([] & c1 & Hrun1 & Hrun).
  apply (IH c1); [|done].
  by eapply delayed_do_work_inv_run_call.
Qed.


(** *** The run levels *)

Lemma loop_view_set_top x (c : Controller Src) :
  loop_view (set_run_levels (set_top x) c) = loop_view c.
Proof.
  unfold loop_view.
  cbn [run_level_tracker set_run_levels nesting_observer_ observer_calls].
  by destruct (run_level_tracker c).
Qed.

Lemma keeps_loop_ScheduleWork : keeps loop_view (@ScheduleWork Src).
Proof.
  destruct (keeps_deduplicator loop_view) as (Hreq & _); [done|].
  unfold ScheduleWork. apply keeps_bind; [done|]. intros [].
  - by apply keeps_modify.
  - apply keeps_ret.
Qed.

Lemma keeps_loop_RunTask task : keeps loop_view (@RunTask Src task).
Proof.
  unfold RunTask. apply keeps_bind; [by apply keeps_modify|]. intros _.
  apply keeps_bind.
  - destruct (task_requests_work task);
      [apply keeps_loop_ScheduleWork | apply keeps_ret].
  - intros _. destruct (task_deletes_controller task);
      [by apply keeps_modify | apply keeps_ret].
Qed.

Lemma keeps_loop_DoWork_batch n : keeps loop_view (DoWork_batch n).
Proof.
  induction n as [|n IH]; cbn [DoWork_batch]; [apply keeps_ret|].
  apply keeps_bind; [by apply keeps_on_sequence|]. intros [task|].
  2: apply keeps_ret.
  apply keeps_bind; [apply keeps_gets|]. intros levels.
  apply keeps_bind; [apply keeps_DCHECK|]. intros _.
  apply keeps_bind; [apply keeps_modify, loop_view_set_top|]. intros _.
  apply keeps_bind; [apply keeps_loop_RunTask|]. intros _.
  apply keeps_bind; [apply keeps_gets|]. intros valid.
  destruct (negb valid); [apply keeps_ret|].
  apply keeps_bind; [by apply keeps_on_sequence|]. intros _.
  apply keeps_bind; [apply keeps_modify, loop_view_set_top|]. intros _.
  apply keeps_bind; [apply keeps_gets|]. intros levels'.
  destruct (1 <? levels')%nat; [apply keeps_ret | apply IH].
Qed.

Lemma keeps_loop_DoWork_continuation time_now :
  keeps loop_view (DoWork_continuation time_now).
Proof.
  destruct (keeps_deduplicator loop_view)
    as (_ & _ & _ & Hwill & Hdid); [done|].
  unfold DoWork_continuation.
  apply keeps_bind; [done|]. intros _.
  apply keeps_bind; [by apply keeps_on_sequence|]. intros _.
  apply keeps_bind; [by apply keeps_on_sequence|]. intros t.
  apply keeps_bind.
  { destruct (t =? TimeTicks_null);
      [apply keeps_ret | by apply keeps_on_sequence]. }
  intros [].
  - apply keeps_bind; [done|].
    intros []; [by apply keeps_modify | apply keeps_ret].
  - apply keeps_bind; [done|].
    intros []; [by apply keeps_modify|].
    apply keeps_bind; [apply keeps_modify, loop_view_set_top|]. intros _.
    destruct (t =? TimeTicks_Max).
    + apply keeps_bind; [by apply keeps_modify|]. intros _.
      by apply keeps_modify.
    + apply keeps_bind; [apply keeps_gets|]. intros next.
      destruct (t =? next); [apply keeps_ret|].
      apply keeps_bind; [by apply keeps_modify|]. intros _.
      apply keeps_bind; [by apply keeps_modify|]. intros _.
      by apply keeps_modify.
Qed.

Lemma keeps_loop_DoWork work_type time_now :
  keeps loop_view (DoWork work_type time_now).
Proof.
  destruct (keeps_deduplicator loop_view)
    as (_ & _ & Hstarted & _); [done|].
  unfold DoWork.
  apply keeps_bind; [apply keeps_gets|]. intros bound.
  apply keeps_bind; [apply keeps_DCHECK|]. intros _.
  apply keeps_bind; [done|]. intros _.
  apply keeps_bind; [apply keeps_gets|]. intros batch.
  apply keeps_bind; [apply keeps_loop_DoWork_batch|]. intros valid.
  destruct (negb valid);
    [apply keeps_ret | apply keeps_loop_DoWork_continuation].
Qed.

(** X19: a nested run loop leaves the run levels as it found them.
    [OnBeginNestedRunLoop] posts a [DoWork] and tells the observer; the
    [DoWork] that runs inside the nested loop runs at most one task,
    whatever the batch size, and changes the innermost run level only; if
    the controller is still there, [OnExitNestedRunLoop] tells the observer
    and takes that level away. *)
Theorem nested_run_loop_round_trip
    (work_type : WorkType) (time_now : TimeTicks)
    (c : Controller Src) (src : Src) :
  sequence_ c = Some src ->
  run_level_tracker c <> [] ->
  weak_ptr_valid c = true ->
  exists c1 c2 ran,
    OnBeginNestedRunLoop c = Ok (tt, c1)
    /\ posted c1 = posted c ++ [PostTask_immediate_do_work]
    /\ DoWork work_type time_now c1 = Ok (tt, c2)
    /\ tasks_run c2 = tasks_run c ++ ran
    /\ (length ran <= 1)%nat
    /\ (weak_ptr_valid c2 = true ->
        exists c3,
          OnExitNestedRunLoop c2 = Ok (tt, c3)
          /\ run_level_tracker c3 = run_level_tracker c
          /\ tasks_run c3 = tasks_run c2
          /\ observer_calls c3
             = observer_calls c
               ++ (if nesting_observer_ c
                   then [ObserverOnBeginNestedRunLoop;
                         ObserverOnExitNestedRunLoop]
                   else [])).
Proof.
  intros Hseq Hlev Hvalid.
  assert (exists c1,
            OnBeginNestedRunLoop c = Ok (tt, c1)
            /\ posted c1 = posted c ++ [PostTask_immediate_do_work]
            /\ run_level_tracker c1
               = kSelectingNextTask :: run_level_tracker c
            /\ sequence_ c1 = sequence_ c
            /\ weak_ptr_valid c1 = weak_ptr_valid c
            /\ tasks_run c1 = tasks_run c
            /\ nesting_observer_ c1 = nesting_observer_ c
            /\ observer_calls c1
               = observer_calls c
                 ++ (if nesting_observer_ c
                     then [ObserverOnBeginNestedRunLoop] else []))
    as (c1 & Hbegin & Hposted1 & Hlev1 & Hseq1 & Hvalid1 & Htasks1 & Hobs1
        & Hcalls1).
  { unfold OnBeginNestedRunLoop, OnRunLoopStarted, PostTask_immediate.
    rewrite bind_modify. unfold deduplicator_OnWorkRequested, bind at 1.
    cbn [work_deduplicator_ set_run_levels].
    destruct (OnWorkRequested (work_deduplicator_ c)) as [answer st].
    rewrite bind_modify, bind_gets.
    cbn [nesting_observer_ post set_deduplicator set_run_levels].
    destruct (nesting_observer_ c) eqn:Hobs; eexists;
      (split; [reflexivity|]);
      cbn [posted run_level_tracker sequence_ weak_ptr_valid tasks_run
           nesting_observer_ observer_calls notify_observer post
           set_deduplicator set_run_levels];
      rewrite ?app_nil_r, ?Hobs; split_and!; reflexivity. }
  rewrite Hseq in Hseq1. rewrite Hvalid in Hvalid1.
  destruct (DoWork_Ok work_type time_now c1 src Hseq1)
    as (c2 & ran & Hwork & Htasks2 & _ & Hnested & _).
  { by rewrite Hlev1. }
  { done. }
  pose proof (keeps_loop_DoWork work_type time_now c1 tt c2 Hwork) as Hview.
  unfold loop_view in Hview. rewrite Hlev1, Hobs1, Hcalls1 in Hview.
  cbn [tail length] in Hview.
  injection Hview as Htail Hlen Hobs2 Hcalls2.
  exists c1, c2, ran. split_and!; [done|done|done| | |].
  - by rewrite Htasks2, Htasks1.
  - apply Hnested. unfold num_run_levels. rewrite Hlev1. cbn [length].
    destruct (run_level_tracker c); [done | cbn [length]; lia].
  - intros _. unfold OnExitNestedRunLoop, OnRunLoopEnded.
    rewrite bind_gets, Hobs2.
    destruct (nesting_observer_ c).
    + rewrite bind_modify. eexists. split; [reflexivity|].
      cbn [run_level_tracker tasks_run observer_calls set_run_levels
           notify_observer].
      rewrite Htail, Hcalls2, <- app_assoc. done.
    + rewrite bind_ret. eexists. split; [reflexivity|].
      cbn [run_level_tracker tasks_run observer_calls set_run_levels].
      rewrite Htail, Hcalls2. done.
Qed.

(** *** The batch *)

(** X20: with a batch size that is not positive [DoWork] runs no task,
    whatever the source holds: the loop is not entered.  [DoWork] still
    checks for more work; when a task is ready it tells the deduplicator
    that the next task is immediate and, if the deduplicator answers so,
    posts another [DoWork], which will run no task either. *)
Theorem DoWork_with_no_batch
    (work_batch_size : Z) (work_type : WorkType) (time_now : TimeTicks)
    (c : Controller Src) (src : Src) :
  sequence_ c = Some src ->
  work_batch_size <= 0 ->
  GetNextTaskTime time_now
    (RemoveAllCanceledDelayedTasksFromFront time_now src)
  = TimeTicks_null ->
  exists c1 c',
    SetWorkBatchSize work_batch_size c = Ok (tt, c1)
    /\ DoWork work_type time_now c1 = Ok (tt, c')
    /\ tasks_run c' = tasks_run c
    /\ sequence_ c'
       = Some (RemoveAllCanceledDelayedTasksFromFront time_now src)
    /\ deduplicator_calls c'
       = deduplicator_calls c
         ++ [CallOnWorkStarted; CallWillCheckForMoreWork;
             CallDidCheckForMoreWork kIsImmediate]
    /\ posted c'
       = posted c
         ++ (if should_schedule
                  (fst (DidCheckForMoreWork kIsImmediate
                          (WillCheckForMoreWork
                             (OnWorkStarted (work_deduplicator_ c)))))
             then [PostTask_immediate_do_work] else [])
    /\ work_batch_size_ c' = work_batch_size.
Proof.
  intros Hseq Hsize Hnull.
  set (c1 := set_work_batch_size work_batch_size c).
  exists c1. unfold DoWork.
  assert (has_sequence c1 = true) as Hbound.
  { apply (has_sequence_Some c1 src). exact Hseq. }
  rewrite bind_gets, Hbound, bind_DCHECK.
  unfold deduplicator_OnWorkStarted. rewrite bind_modify, bind_gets.
  set (c2 := set_deduplicator CallOnWorkStarted _ c1).
  assert (Z.to_nat (work_batch_size_ c2) = 0%nat) as ->.
  { unfold c2, c1. cbn [work_batch_size_ set_deduplicator
                         set_work_batch_size]. lia. }
  cbn [DoWork_batch]. rewrite bind_ret. cbn [negb].
  unfold DoWork_continuation, deduplicator_WillCheckForMoreWork.
  rewrite bind_modify.
  set (c3 := set_deduplicator CallWillCheckForMoreWork _ c2).
  assert (sequence_ c3 = Some src) as Hseq3 by exact Hseq.
  rewrite (bind_Ok _ _ _ _ _ (on_sequence_Ok _ c3 src Hseq3)).
  cbn [fst snd].
  set (src2 := RemoveAllCanceledDelayedTasksFromFront time_now src) in *.
  set (c4 := set_sequence (Some src2) c3).
  assert (sequence_ c4 = Some src2) as Hseq4 by reflexivity.
  rewrite (bind_Ok _ _ _ _ _ (on_sequence_Ok _ c4 src2 Hseq4)).
  cbn [fst snd]. rewrite Hnull, Z.eqb_refl, bind_ret.
  set (c5 := set_sequence (Some src2) c4).
  unfold deduplicator_DidCheckForMoreWork, bind at 1.
  assert (work_deduplicator_ c5
          = WillCheckForMoreWork (OnWorkStarted (work_deduplicator_ c)))
    as -> by reflexivity.
  destruct (DidCheckForMoreWork kIsImmediate
              (WillCheckForMoreWork (OnWorkStarted (work_deduplicator_ c))))
    as [[] st]; cbn [fst should_schedule].
  - eexists. split; [reflexivity|]. split; [reflexivity|].
    unfold PostTask_immediate, modify.
    cbn [tasks_run sequence_ deduplicator_calls posted work_batch_size_
         post set_deduplicator].
    unfold c5, c4, c3, c2, c1.
    cbn [tasks_run sequence_ deduplicator_calls posted work_batch_size_
         set_sequence set_deduplicator set_work_batch_size].
    rewrite <- !app_assoc. split_and!; reflexivity.
  - eexists. split; [reflexivity|]. split; [reflexivity|].
    cbn [tasks_run sequence_ deduplicator_calls posted work_batch_size_
         set_deduplicator].
    unfold c5, c4, c3, c2, c1.
    cbn [tasks_run sequence_ deduplicator_calls posted work_batch_size_
         set_sequence set_deduplicator set_work_batch_size].
    rewrite <- !app_assoc, app_nil_r. split_and!; reflexivity.
Qed.

(** X21: a task that destroys the controller ends [DoWork] on the spot.
    The weak pointer is found invalid when the task returns: no other task
    is selected, [DidRunTask] is not called on the source, the deduplicator
    is not asked about more work and no continuation is posted. *)
Theorem DoWork_stops_when_controller_is_deleted
    (work_type : WorkType) (time_now : TimeTicks)
    (c : Controller Src) (src src' : Src) (task : Task) :
  sequence_ c = Some src ->
  run_level_tracker c <> [] ->
  0 < work_batch_size_ c ->
  SelectNextTask src = (Some task, src') ->
  task_deletes_controller task = true ->
  exists c',
    DoWork work_type time_now c = Ok (tt, c')
    /\ tasks_run c' = tasks_run c ++ [task]
    /\ sequence_ c' = Some src'
    /\ weak_ptr_valid c' = false
    /\ deduplicator_calls c'
       = deduplicator_calls c
         ++ CallOnWorkStarted
            :: (if task_requests_work task then [CallOnWorkRequested]
                else [])
    /\ delayed_view c' = delayed_view c
    /\ (task_requests_work task = false -> posted c' = posted c).
Proof.
  intros Hseq Hlev Hbatch Hselect Hdeletes. unfold DoWork.
  rewrite bind_gets, (has_sequence_Some c src Hseq), bind_DCHECK.
  unfold deduplicator_OnWorkStarted. rewrite bind_modify, bind_gets.
  set (c0 := set_deduplicator CallOnWorkStarted _ c).
  assert (work_batch_size_ c0 = work_batch_size_ c) as -> by reflexivity.
  destruct (Z.to_nat (work_batch_size_ c)) as [|n] eqn:Hn; [lia|].
  cbn [DoWork_batch].
  assert (sequence_ c0 = Some src) as Hseq0 by exact Hseq.
  rewrite bind_assoc.
  rewrite (bind_Ok _ _ _ _ _ (on_sequence_Ok SelectNextTask c0 src Hseq0)).
  rewrite Hselect. cbn [fst snd].
  rewrite bind_assoc, bind_gets.
  assert (num_run_levels (set_sequence (Some src') c0) = num_run_levels c)
    as -> by reflexivity.
  assert ((0 <? num_run_levels c)%nat = true) as ->.
  { apply Nat.ltb_lt. unfold num_run_levels.
    destruct (run_level_tracker c); [done | cbn [length]; lia]. }
  rewrite bind_assoc, bind_DCHECK. unfold OnTaskStarted.
  rewrite bind_assoc, bind_modify.
  set (c2 := set_run_levels (set_top kRunningTask)
               (set_sequence (Some src') c0)).
  rewrite bind_assoc, (bind_Ok _ _ _ _ _ (RunTask_Ok task c2)).
  rewrite bind_assoc, bind_gets, RunTask_spec_weak_ptr_valid, Hdeletes.
  rewrite andb_false_r. cbn [negb]. rewrite bind_ret. cbn [negb].
  exists (RunTask_spec task c2). split; [reflexivity|].
  split_and!.
  - by rewrite RunTask_spec_tasks_run.
  - by rewrite RunTask_spec_sequence.
  - by rewrite RunTask_spec_weak_ptr_valid, Hdeletes, andb_false_r.
  - unfold RunTask_spec, ScheduleWork_spec. rewrite Hdeletes.
    destruct (task_requests_work task).
    + cbn [work_deduplicator_ record_task].
      destruct (OnWorkRequested (work_deduplicator_ c2)) as [[] st];
        cbn [deduplicator_calls set_weak_ptr_valid post set_deduplicator
             record_task];
        unfold c2, c0;
        cbn [deduplicator_calls set_run_levels set_sequence
             set_deduplicator];
        by rewrite <- app_assoc.
    + cbn [deduplicator_calls set_weak_ptr_valid record_task].
      reflexivity.
  - rewrite (keeps_delayed_RunTask task c2 tt (RunTask_spec task c2)
               (RunTask_Ok task c2)).
    reflexivity.
  - intros Hquiet. unfold RunTask_spec. rewrite Hquiet, Hdeletes.
    reflexivity.
Qed.


(** *** Requests for a delayed [DoWork] *)

(** X22: [SetNextDelayedDoWork] with [TimeTicks::Max()] cancels the delayed
    [DoWork]: the closure is cancelled and the recorded time cleared;
    nothing is posted and the deduplicator is not asked. *)
Theorem SetNextDelayedDoWork_Max_cancels
    (lazy_now : TimeTicks) (c : Controller Src) :
  has_sequence c = true ->
  next_delayed_do_work c <> TimeTicks_Max ->
  exists c',
    SetNextDelayedDoWork lazy_now TimeTicks_Max c = Ok (tt, c')
    /\ next_delayed_do_work c' = TimeTicks_Max
    /\ cancelable_delayed_do_work_closure_ c'
       = Cancel (cancelable_delayed_do_work_closure_ c)
    /\ posted c' = posted c
    /\ deduplicator_calls c' = deduplicator_calls c
    /\ work_deduplicator_ c' = work_deduplicator_ c.
Proof.
  intros Hbound Hnext. unfold SetNextDelayedDoWork.
  rewrite bind_gets, Hbound, bind_DCHECK, bind_gets.
  apply Z.eqb_neq in Hnext. rewrite Hnext, Z.eqb_refl, bind_modify.
  eexists. split; [reflexivity|]. split_and!; reflexivity.
Qed.

(** X23: [SetNextDelayedDoWork] with a new time asks the deduplicator once.
    When the answer is to schedule, it records the time, resets the
    closure, which cancels the earlier callback, and posts the new one with
    the delay from now to the run time, zero when the run time is past; a
    second request for the same time then changes nothing.  When the answer
    is that no work is needed, nothing is posted and the time is not
    recorded. *)
Theorem SetNextDelayedDoWork_posts_once
    (lazy_now lazy_now' run_time : TimeTicks) (c : Controller Src) :
  has_sequence c = true ->
  next_delayed_do_work c <> run_time ->
  run_time <> TimeTicks_Max ->
  exists c',
    SetNextDelayedDoWork lazy_now run_time c = Ok (tt, c')
    /\ deduplicator_calls c'
       = deduplicator_calls c ++ [CallOnDelayedWorkRequested]
    /\ if should_schedule (OnDelayedWorkRequested (work_deduplicator_ c))
       then
         exists delay,
           posted c'
           = posted c
             ++ [PostDelayedTask_delayed_do_work
                   (generation (cancelable_delayed_do_work_closure_ c'))
                   delay]
           /\ delay = Z.max 0 (run_time - lazy_now)
           /\ 0 <= delay
           /\ next_delayed_do_work c' = run_time
           /\ cancelable_delayed_do_work_closure_ c'
              = Reset (cancelable_delayed_do_work_closure_ c)
           /\ SetNextDelayedDoWork lazy_now' run_time c' = Ok (tt, c')
       else
         posted c' = posted c
         /\ next_delayed_do_work c' = next_delayed_do_work c
         /\ cancelable_delayed_do_work_closure_ c'
            = cancelable_delayed_do_work_closure_ c.
Proof.
  intros Hbound Hnext Hmax. unfold SetNextDelayedDoWork at 1.
  rewrite bind_gets, Hbound, bind_DCHECK, bind_gets.
  apply Z.eqb_neq in Hnext, Hmax. rewrite Hnext, Hmax.
  unfold deduplicator_OnDelayedWorkRequested, bind at 1.
  destruct (OnDelayedWorkRequested (work_deduplicator_ c)) eqn:Hanswer;
    cbn [should_schedule].
  - rewrite !bind_modify. unfold PostDelayedTask_cancelable, modify.
    eexists. split; [reflexivity|]. split; [reflexivity|].
    eexists. split_and!; try reflexivity.
    + lia.
    + set (c' := post _ _).
      assert (has_sequence c' = true) as Hbound' by exact Hbound.
      assert (next_delayed_do_work c' = run_time) as Hnext' by reflexivity.
      unfold SetNextDelayedDoWork.
      rewrite bind_gets, Hbound', bind_DCHECK, bind_gets, Hnext'.
      by rewrite Z.eqb_refl.
  - eexists. split; [reflexivity|]. split_and!; reflexivity.
Qed.

(** *** Binding the task source *)

(** X24: the task source is bound once.  [SetSequencedTaskSource] refuses a
    null source, and a second source when one is bound; until a source is
    bound [DoWork] and [SetNextDelayedDoWork] fail on their [DCHECK]. *)
Theorem SetSequencedTaskSource_binds_once
    (src src' : Src) (work_type : WorkType)
    (time_now run_time : TimeTicks) (c : Controller Src) :
  has_sequence c = false ->
  SetSequencedTaskSource None c = Abort DCheckFailure
  /\ DoWork work_type time_now c = Abort DCheckFailure
  /\ SetNextDelayedDoWork time_now run_time c = Abort DCheckFailure
  /\ exists c',
       SetSequencedTaskSource (Some src) c = Ok (tt, c')
       /\ sequence_ c' = Some src
       /\ SetSequencedTaskSource (Some src') c' = Abort DCheckFailure.
Proof.
  intros Hunbound. split_and!.
  - reflexivity.
  - unfold DoWork. by rewrite bind_gets, Hunbound.
  - unfold SetNextDelayedDoWork. by rewrite bind_gets, Hunbound.
  - unfold SetSequencedTaskSource.
    rewrite bool_decide_eq_true_2 by by eexists.
    rewrite bind_DCHECK, bind_gets, Hunbound. cbn [negb].
    rewrite bind_DCHECK. eexists. split; [reflexivity|].
    split; [reflexivity|].
    rewrite bool_decide_eq_true_2 by by eexists.
    rewrite bind_DCHECK, bind_gets. reflexivity.
Qed.

End Facts.

(** *** The properties on sample controllers *)

Lemma delayed_do_work_bookkeeping_witness :
  exists c',
    run_calls [CallSetNextDelayedDoWork 5 20; CallDoWork kImmediate 6;
               CallScheduleWork; CallSetNextDelayedDoWork 7 30]
      (sample_controller 2) = Ok (tt, c')
    /\ delayed_do_work_inv c'.
Proof.
  eexists. split; [vm_compute; reflexivity|].
  apply (delayed_do_work_bookkeeping
           [CallSetNextDelayedDoWork 5 20; CallDoWork kImmediate 6;
            CallScheduleWork; CallSetNextDelayedDoWork 7 30]
           (sample_controller 2)).
  - unfold delayed_do_work_inv. cbn.
    split_and!; [done | constructor | lia | done].
  - vm_compute. reflexivity.
Defined.

Lemma nested_run_loop_round_trip_witness :
  exists c1 c2 c3,
    OnBeginNestedRunLoop (sample_controller 2) = Ok (tt, c1)
    /\ DoWork kImmediate 5 c1 = Ok (tt, c2)
    /\ OnExitNestedRunLoop c2 = Ok (tt, c3)
    /\ run_level_tracker c3 = [kIdle].
Proof.
  destruct (nested_run_loop_round_trip kImmediate 5 (sample_controller 2)
              (fake_source 2))
    as (c1 & c2 & ran & Hbegin & _ & Hwork & _ & _ & Hexit).
  - reflexivity.
  - discriminate.
  - reflexivity.
  - assert (weak_ptr_valid c2 = true) as Hvalid.
    { vm_compute in Hbegin. injection Hbegin as <-.
      vm_compute in Hwork. injection Hwork as <-. reflexivity. }
    destruct (Hexit Hvalid) as (c3 & Hrun & Hlevels & _).
    exists c1, c2, c3.
    split_and!; [exact Hbegin | exact Hwork | exact Hrun | exact Hlevels].
Defined.

Lemma DoWork_with_no_batch_witness :
  exists c1 c',
    SetWorkBatchSize 0 (sample_controller 2) = Ok (tt, c1)
    /\ DoWork kImmediate 5 c1 = Ok (tt, c')
    /\ tasks_run c' = []
    /\ posted c' = [PostTask_immediate_do_work].
Proof.
  destruct (DoWork_with_no_batch 0 kImmediate 5 (sample_controller 2)
              (fake_source 2))
    as (c1 & c' & Hset & Hwork & Htasks & _ & _ & Hposted & _).
  - reflexivity.
  - discriminate.
  - reflexivity.
  - exists c1, c'.
    split_and!; [exact Hset | exact Hwork | exact Htasks | exact Hposted].
Defined.

Lemma DoWork_stops_when_controller_is_deleted_witness :
  exists c',
    DoWork kImmediate 5
      (set_sequence
         (Some {| ready_tasks :=
                    [{| task_id := 0;
                        task_requests_work := false;
                        task_deletes_controller := true |};
                     plain_task 1];
                  next_delayed_task := TimeTicks_Max |})
         (set_work_batch_size 2 initial_controller))
    = Ok (tt, c')
    /\ length (tasks_run c') = 1%nat
    /\ posted c' = [].
Proof.
  destruct (DoWork_stops_when_controller_is_deleted kImmediate 5
              (set_sequence
                 (Some {| ready_tasks :=
                            [{| task_id := 0;
                                task_requests_work := false;
                                task_deletes_controller := true |};
                             plain_task 1];
                          next_delayed_task := TimeTicks_Max |})
                 (set_work_batch_size 2 initial_controller))
              {| ready_tasks :=
                   [{| task_id := 0;
                       task_requests_work := false;
                       task_deletes_controller := true |};
                    plain_task 1];
                 next_delayed_task := TimeTicks_Max |}
              {| ready_tasks := [plain_task 1];
                 next_delayed_task := TimeTicks_Max |}
              {| task_id := 0;
                 task_requests_work := false;
                 task_deletes_controller := true |})
    as (c' & Hwork & Htasks & _ & _ & _ & _ & Hposted).
  - reflexivity.
  - discriminate.
  - reflexivity.
  - reflexivity.
  - reflexivity.
  - exists c'. split_and!; [exact Hwork | by rewrite Htasks|].
    by rewrite Hposted.
Defined.

Lemma SetNextDelayedDoWork_Max_cancels_witness :
  exists c',
    SetNextDelayedDoWork 5 TimeTicks_Max
      (set_cancelable Reset
         (set_next_delayed_do_work 20 (sample_controller 1)))
    = Ok (tt, c')
    /\ next_delayed_do_work c' = TimeTicks_Max
    /\ posted c' = [].
Proof.
  destruct (SetNextDelayedDoWork_Max_cancels 5
              (set_cancelable Reset
                 (set_next_delayed_do_work 20 (sample_controller 1))))
    as (c' & Hrun & Hnext & _ & Hposted & _).
  - reflexivity.
  - vm_compute. discriminate.
  - exists c'. split_and!; [exact Hrun | exact Hnext | exact Hposted].
Defined.

Lemma SetNextDelayedDoWork_posts_once_witness :
  exists c' delay,
    SetNextDelayedDoWork 5 20 (sample_controller 1) = Ok (tt, c')
    /\ posted c'
       = [PostDelayedTask_delayed_do_work
            (generation (cancelable_delayed_do_work_closure_ c')) delay]
    /\ 0 <= delay
    /\ SetNextDelayedDoWork 7 20 c' = Ok (tt, c').
Proof.
  destruct (SetNextDelayedDoWork_posts_once 5 7 20 (sample_controller 1))
    as (c' & Hrun & _ & Hposts).
  - reflexivity.
  - vm_compute. discriminate.
  - vm_compute. discriminate.
  - cbn [should_schedule OnDelayedWorkRequested work_deduplicator_
         sample_controller set_sequence initial_controller] in Hposts.
    destruct Hposts as (delay & Hposted & _ & Hdelay & _ & _ & Hagain).
    exists c', delay.
    split_and!; [exact Hrun | exact Hposted | exact Hdelay | exact Hagain].
Defined.

Lemma SetSequencedTaskSource_binds_once_witness :
  exists c',
    SetSequencedTaskSource (Some (fake_source 1)) initial_controller
    = Ok (tt, c')
    /\ SetSequencedTaskSource (Some (fake_source 2)) c'
       = Abort DCheckFailure.
Proof.
  destruct (SetSequencedTaskSource_binds_once (fake_source 1)
              (fake_source 2) kImmediate 5 20 initial_controller)
    as (_ & _ & _ & c' & Hbind & _ & Hagain).
  - reflexivity.
  - exists c'. split; [exact Hbind | exact Hagain].
Defined.

End ThreadControllerLife.
